(** * Event-stream log forwarder: transformation and delivery pipeline

    A shallow embedding of the Python sources
      - processor/sub/mapping.py
      - processor/sub/metadata_engine.py
      - processor/custom_processor.py
      - services/logs_sender.py
      - services/eventhub_consumer.py, libs/exceptions.py
      - local_checkpoint.py
      - managers/process_manager.py, libs/config_loader.py
    followed by the properties of the specification that concern them.

    Conventions of the embedding:
      - a Python value is a term of [value]; a [dict] built by the program
        itself (the parsed record) is a [gmap string value];
      - a call that can raise returns a [result]; [try ... except] is
        [try_except];
      - a coroutine that may wait for ever has a [completion] for outcome;
      - calls to the logger are left out, except for the few whose argument
        expressions can themselves raise: those expressions are evaluated;
      - requests and waits are recorded in a trace; the files of the
        checkpoint store are a map from places to directories and files;
      - text is a [string] of 8-bit characters; [casefold] is modelled on
        the ASCII letters. *)

From Stdlib Require Import ZArith Lia Ascii String List Bool.
From stdpp Require Import base option list strings gmap fin_maps.

Set Warnings "-register-all".
Local Open Scope string_scope.
Local Open Scope list_scope.

(* ===================================================================== *)
(** * Python values, exceptions and strings *)
(* ===================================================================== *)

Module Py.

(** The exception classes that the modelled code raises or catches. *)
Inductive exn : Type :=
| TypeError
| AttributeError
| KeyError
| IndexError
| ValueError
| JSONDecodeError      (* subclass of ValueError *)
| ClientError          (* aiohttp.ClientError *)
| TimeoutError         (* asyncio.TimeoutError, not a ClientError *)
| ConnectivityError    (* libs.exceptions *)
| ProcessingError      (* libs.exceptions *)
| FileNotFoundError    (* the four subclasses of OSError that [mkdir] *)
| FileExistsError      (* and [open] raise on a path                 *)
| NotADirectoryError
| IsADirectoryError
| OtherError.

Inductive result (A : Type) : Type :=
| Ok (a : A)
| Raise (e : exn).
Arguments Ok {A} a.
Arguments Raise {A} e.

Definition bind {A B} (r : result A) (k : A -> result B) : result B :=
  match r with
  | Ok a => k a
  | Raise e => Raise e
  end.

(** [try: body  except Exception as e: handler e] *)
Definition try_except {A} (body : result A) (handler : exn -> result A)
  : result A :=
  match body with
  | Ok a => Ok a
  | Raise e => handler e
  end.

Definition is_ok {A} (r : result A) : bool :=
  match r with Ok _ => true | Raise _ => false end.

(** What awaiting a coroutine comes to: the coroutine completes, with a
    value or an exception, or it waits for something that never happens
    and whoever awaits it waits with it. *)
Inductive completion (A : Type) : Type :=
| Completes (a : A)
| Blocks.
Arguments Completes {A} a.
Arguments Blocks {A}.

(** JSON-shaped Python values.  A float is kept by its literal: no float
    arithmetic is performed by the modelled code. *)
Inductive value : Type :=
| VNone
| VBool (b : bool)
| VInt (z : Z)
| VFloat (literal : string)
| VStr (s : string)
| VList (l : list value)
| VDict (items : list (string * value)).

(** ** Strings *)

Definition lower_ascii (c : ascii) : ascii :=
  let n := nat_of_ascii c in
  if (65 <=? n)%nat && (n <=? 90)%nat then ascii_of_nat (n + 32) else c.

(** [str.casefold()], on ASCII text. *)
Fixpoint casefold (s : string) : string :=
  match s with
  | EmptyString => EmptyString
  | String c s' => String (lower_ascii c) (casefold s')
  end.

(** [s.lstrip(c)] for a one-character set. *)
Fixpoint lstrip (c : ascii) (s : string) : string :=
  match s with
  | EmptyString => EmptyString
  | String a s' => if Ascii.eqb a c then lstrip c s' else s
  end.

(** [s.split(sep)] for a one-character separator: never empty, keeps
    empty fields. *)
Fixpoint split (sep : ascii) (s : string) : list string :=
  match s with
  | EmptyString => [EmptyString]
  | String a s' =>
      if Ascii.eqb a sep then EmptyString :: split sep s'
      else match split sep s' with
           | [] => [String a EmptyString]
           | w :: ws => String a w :: ws
           end
  end.

(** [sep.join(l)] *)
Definition join (sep : string) (l : list string) : string :=
  String.concat sep l.

Fixpoint str_take (n : nat) (s : string) : string :=
  match n, s with
  | O, _ => EmptyString
  | S _, EmptyString => EmptyString
  | S n', String a s' => String a (str_take n' s')
  end.

(** [s[:n]] with Python's reading of a negative bound. *)
Definition slice_to (n : Z) (s : string) : string :=
  if (0 <=? n)%Z then str_take (Z.to_nat n) s
  else str_take (Z.to_nat (Z.of_nat (String.length s) + n)) s.

(** [needle in hay] on strings. *)
Fixpoint contains (needle hay : string) : bool :=
  String.prefix needle hay
  || match hay with
     | EmptyString => false
     | String _ hay' => contains needle hay'
     end.

(** [x.startswith(y)] *)
Definition startswith (x y : string) : bool := String.prefix y x.

(** ** Dynamic operations on values *)

Definition value_is_str (v : value) : bool :=
  match v with VStr _ => true | _ => false end.

Definition value_eq_str (k : string) (v : value) : bool :=
  match v with VStr s => String.eqb s k | _ => false end.

Fixpoint assoc (k : string) (items : list (string * value)) : option value :=
  match items with
  | [] => None
  | (k', v) :: rest => if String.eqb k' k then Some v else assoc k rest
  end.

Definition has_key (k : string) (items : list (string * value)) : bool :=
  match assoc k items with Some _ => true | None => false end.

(** [k in x] for a string [k]. *)
Definition py_in (k : string) (x : value) : result bool :=
  match x with
  | VDict items => Ok (has_key k items)
  | VStr s => Ok (contains k s)
  | VList l => Ok (existsb (value_eq_str k) l)
  | VNone | VBool _ | VInt _ | VFloat _ => Raise TypeError
  end.

(** [k in x.keys()] *)
Definition in_keys (k : string) (x : value) : result bool :=
  match x with
  | VDict items => Ok (has_key k items)
  | _ => Raise AttributeError
  end.

(** [x.get(k, default)] *)
Definition py_get (x : value) (k : string) (dflt : value) : result value :=
  match x with
  | VDict items => Ok (default dflt (assoc k items))
  | _ => Raise AttributeError
  end.

(** [x[k]] for a string key [k]. *)
Definition py_getitem (x : value) (k : string) : result value :=
  match x with
  | VDict items =>
      match assoc k items with Some v => Ok v | None => Raise KeyError end
  | _ => Raise TypeError
  end.

(** Values that can be looked up in a dict or a set. *)
Definition hashable (v : value) : bool :=
  match v with
  | VList _ | VDict _ => false
  | _ => true
  end.

(** [isinstance(v, int)]: [bool] is a subclass of [int], [True == 1]. *)
Definition as_int (v : value) : option Z :=
  match v with
  | VInt z => Some z
  | VBool true => Some 1%Z
  | VBool false => Some 0%Z
  | _ => None
  end.

(** [x.lstrip(c)]: only a [str] has the method. *)
Definition py_lstrip (c : ascii) (x : value) : result string :=
  match x with
  | VStr s => Ok (lstrip c s)
  | _ => Raise AttributeError
  end.

(** [x[:200]], evaluated for the logger: defined on sequences only. *)
Definition py_sample (x : value) : result unit :=
  match x with
  | VStr _ | VList _ => Ok tt
  | _ => Raise TypeError
  end.

(** ** Mutable state with exceptions

    [M S A] is a computation over an object of type [S] that is mutated in
    place: the changes made before an exception is raised are still there
    when it is caught. *)
Definition M (S A : Type) : Type := S -> S * result A.

Definition ret {S A} (a : A) : M S A := fun s => (s, Ok a).

Definition raise {S A} (e : exn) : M S A := fun s => (s, Raise e).

Definition mbind {S A B} (m : M S A) (k : A -> M S B) : M S B :=
  fun s =>
    match m s with
    | (s', Ok a) => k a s'
    | (s', Raise e) => (s', Raise e)
    end.

Definition lift {S A} (r : result A) : M S A := fun s => (s, r).

Definition try_catch {S A} (body : M S A) (handler : exn -> M S A) : M S A :=
  fun s =>
    match body s with
    | (s', Ok a) => (s', Ok a)
    | (s', Raise e) => handler e s'
    end.

(** [d[k] = v] on the dict held as state. *)
Definition setitem (k : string) (v : value) : M (gmap string value) unit :=
  fun d => (<[k := v]> d, Ok tt).

Definition getstate {S} : M S S := fun s => (s, Ok s).

(** ** What the program takes from its runtime and its libraries

    These are not code of the repository: the built-in conversions, the
    [json] and [jmespath] libraries, the clock, and the helper module
    [processor/sub/monitored_entity_id.py], which is imported by
    [custom_processor.py] but is not part of the sources at hand. *)
Record Builtins : Type := {
  (** [str(v)] for a [v] that is not already a [str] *)
  py_str : value -> string;
  (** [json.dumps(v)] *)
  json_dumps : value -> string;
  (** [json.loads(s, strict=b)] *)
  json_loads : bool -> string -> result value;
  (** [jmespath.search(pattern, document, JMESPATH_OPTIONS)] *)
  jmespath_search : string -> value -> result value;
  (** [infer_monitored_entity_id(category, parsed)] *)
  infer_monitored_entity_id : string -> M (gmap string value) unit;
  (** [datetime.now(timezone.utc).isoformat()] *)
  utcnow_isoformat : string
}.

(** [str(v)] *)
Definition str_of (B : Builtins) (v : value) : string :=
  match v with
  | VStr s => s
  | _ => py_str B v
  end.

End Py.

Notation "'let*' x ':=' m 'in' k" := (Py.mbind m (fun x => k))
  (at level 10, x name, m at level 100, k at level 200).
Notation "m1 ';;' m2" := (Py.mbind m1 (fun _ => m2))
  (at level 100, m2 at level 200, right associativity).
Notation "'let?' x ':=' r 'in' k" := (Py.bind r (fun x => k))
  (at level 10, x name, r at level 100, k at level 200).

(* ===================================================================== *)
(** * processor/sub/mapping.py *)
(* ===================================================================== *)

Module Mapping.
Import Py.

Definition DEFAULT_SEVERITY_INFO : string := "Informational".
Definition RESOURCE_ID_ATTRIBUTE : string := "azure.resource.id".
Definition SUBSCRIPTION_ATTRIBUTE : string := "azure.subscription".
Definition RESOURCE_GROUP_ATTRIBUTE : string := "azure.resource.group".
Definition RESOURCE_TYPE_ATTRIBUTE : string := "azure.resource.type".
Definition RESOURCE_NAME_ATTRIBUTE : string := "azure.resource.name".

Definition log_level_to_severity_dict : list (Z * string) :=
  [(1%Z, "Critical"); (2%Z, "Error"); (3%Z, "Warning"); (4%Z, "Informational")].

Definition severity_to_log_level_dict : list (string * Z) :=
  map (fun kv => (snd kv, fst kv)) log_level_to_severity_dict.

Definition azure_level_properties : list string := ["Level"; "level"].
Definition azure_properties_names : list string := ["properties"; "EventProperties"].

(** [log_level_to_severity_dict.get(z, dflt)] *)
Fixpoint level_get (z : Z) (table : list (Z * string)) (dflt : string) : string :=
  match table with
  | [] => dflt
  | (k, v) :: rest => if Z.eqb k z then v else level_get z rest dflt
  end.

(** [parts[5:-1]] *)
Definition middle_parts (parts : list string) : list string :=
  drop 5 (take (length parts - 1) parts).

(** [[part for index, part in enumerate(l) if index == 0 or index % 2 != 0]] *)
Fixpoint type_parts_from (index : nat) (l : list string) : list string :=
  match l with
  | [] => []
  | part :: rest =>
      if Nat.eqb index 0 || negb (Nat.eqb (index mod 2) 0)
      then part :: type_parts_from (S index) rest
      else type_parts_from (S index) rest
  end.

Definition extract_resource_id_attributes (resource_id : value)
  : M (gmap string value) unit :=
  try_catch
    (setitem RESOURCE_ID_ATTRIBUTE resource_id ;;
     let* stripped := lift (py_lstrip "/" resource_id) in
     let parts := split "/" stripped in
     lift (py_sample resource_id) ;;
     if (length parts <? 7)%nat then ret tt
     else if negb (String.eqb (casefold (parts !!! 0%nat)) "subscriptions")
     then ret tt
     else if negb (String.eqb (casefold (parts !!! 2%nat)) "resourcegroups")
     then ret tt
     else if negb (String.eqb (casefold (parts !!! 4%nat)) "providers")
     then ret tt
     else
       setitem SUBSCRIPTION_ATTRIBUTE (VStr (parts !!! 1%nat)) ;;
       setitem RESOURCE_GROUP_ATTRIBUTE (VStr (parts !!! 3%nat)) ;;
       setitem RESOURCE_NAME_ATTRIBUTE (VStr (List.last parts "")) ;;
       let resource_type_parts := type_parts_from 0 (middle_parts parts) in
       setitem RESOURCE_TYPE_ATTRIBUTE (VStr (join "/" resource_type_parts)))
    (fun _ => lift (py_sample resource_id)).

(** [parsed_record["severity"] not in severity_to_log_level_dict]: the
    lookup hashes its argument. *)
Definition check_known_severity (v : value) : result unit :=
  if hashable v then Ok tt else Raise TypeError.

Definition map_to_severity (record : value) (level_property : string)
  : M (gmap string value) unit :=
  try_catch
    (let* raw_value := lift (py_getitem record level_property) in
     (match as_int raw_value with
      | Some z =>
          let severity :=
            level_get z log_level_to_severity_dict DEFAULT_SEVERITY_INFO in
          setitem "severity" (VStr severity)
      | None => setitem "severity" raw_value
      end) ;;
     let* parsed_record := getstate in
     lift (check_known_severity (default VNone (parsed_record !! "severity"))))
    (fun _ => setitem "severity" (VStr DEFAULT_SEVERITY_INFO)).

(** [next((level for level in names if level in record.keys()), None)] *)
Fixpoint first_level_property (names : list string) (record : value)
  : result (option string) :=
  match names with
  | [] => Ok None
  | level :: rest =>
      let? present := in_keys level record in
      if present then Ok (Some level) else first_level_property rest record
  end.

Definition extract_severity (record : value) : M (gmap string value) unit :=
  try_catch
    (let* level_property :=
       lift (first_level_property azure_level_properties record) in
     match level_property with
     | Some level => map_to_severity record level
     | None => setitem "severity" (VStr DEFAULT_SEVERITY_INFO)
     end)
    (fun _ => setitem "severity" (VStr DEFAULT_SEVERITY_INFO)).

End Mapping.

(* ===================================================================== *)
(** * processor/sub/metadata_engine.py *)
(* ===================================================================== *)

Module MetadataEngine.
Import Py.

Section Engine.
Variable B : Builtins.

(** The keys of [_CONDITION_COMPARATOR_MAP], in insertion order. *)
Inductive comparator : Type := CmpEq | CmpIn | CmpPrefix | CmpContains.

Definition comparator_key (c : comparator) : string :=
  match c with
  | CmpEq => casefold "$eq"
  | CmpIn => casefold "$in"
  | CmpPrefix => casefold "$prefix"
  | CmpContains => casefold "$contains"
  end.

Definition _CONDITION_COMPARATOR_MAP : list comparator :=
  [CmpEq; CmpIn; CmpPrefix; CmpContains].

Definition _eq_comparator (x : value) (y : string) : bool :=
  String.eqb (casefold (str_of B x)) (casefold y).

Definition _in_comparator (x : value) (y : string) : bool :=
  existsb (String.eqb (casefold (str_of B x))) (split "," (casefold y)).

Definition _prefix_comparator (x : value) (y : string) : bool :=
  startswith (casefold (str_of B x)) (casefold y).

Definition _contains_comparator (x : value) (y : string) : bool :=
  contains (casefold y) (casefold (str_of B x)).

Definition run_comparator (c : comparator) : value -> string -> bool :=
  match c with
  | CmpEq => _eq_comparator
  | CmpIn => _in_comparator
  | CmpPrefix => _prefix_comparator
  | CmpContains => _contains_comparator
  end.

(** The keys of [_SOURCE_VALUE_EXTRACTOR_MAP]. *)
Inductive extractor : Type := ExtResourceType | ExtCategory.

Definition _extract_resource_type (record : value)
    (parsed_record : gmap string value) : result value :=
  Ok (default (VStr "") (parsed_record !! Mapping.RESOURCE_TYPE_ATTRIBUTE)).

Definition _extract_category (record : value)
    (parsed_record : gmap string value) : result value :=
  py_get record "category" (VStr "").

Definition run_extractor (e : extractor)
  : value -> gmap string value -> result value :=
  match e with
  | ExtResourceType => _extract_resource_type
  | ExtCategory => _extract_category
  end.

Definition lookup_extractor (source : string) : option extractor :=
  if String.eqb (casefold source) (casefold "resourceType") then Some ExtResourceType
  else if String.eqb (casefold source) (casefold "category") then Some ExtCategory
  else None.

Record Attribute : Type := { key : string; pattern : string }.

Record SourceMatcher : Type := {
  source : string;
  condition : string;
  valid : bool;
  _evaluator : option comparator;
  _operand : option string;
  _source_value_extractor : option extractor
}.

Record ConfigRule : Type := {
  entity_type_name : string;
  source_matchers : list SourceMatcher;
  attributes : list Attribute
}.

(** [re.findall(r"'(.*?)'", condition, re.DOTALL)]: the texts between
    successive pairs of quotes. *)
Fixpoint quoted_from (inside : option string) (s : string) : list string :=
  match s with
  | EmptyString => []
  | String a s' =>
      match inside with
      | None =>
          if Ascii.eqb a "'" then quoted_from (Some EmptyString) s'
          else quoted_from None s'
      | Some acc =>
          if Ascii.eqb a "'" then acc :: quoted_from None s'
          else quoted_from (Some (String.append acc (String a EmptyString))) s'
      end
  end.

(** [SourceMatcher.__init__] *)
Definition new_SourceMatcher (source condition : string) : SourceMatcher :=
  let evaluator :=
    List.find (fun c => startswith condition (comparator_key c))
              _CONDITION_COMPARATOR_MAP in
  let operands := quoted_from None condition in
  let operand :=
    match operands with [] => None | _ => Some (join "," operands) end in
  let ext := lookup_extractor source in
  let truthy_operand :=
    match operand with Some (String _ _) => true | _ => false end in
  {| source := source;
     condition := condition;
     valid := bool_decide (is_Some ext)
              && bool_decide (is_Some evaluator) && truthy_operand;
     _evaluator := evaluator;
     _operand := operand;
     _source_value_extractor := ext |}.

(** [SourceMatcher.match] *)
Definition matcher_match (m : SourceMatcher) (record : value)
    (parsed_record : gmap string value) : bool :=
  if negb (valid m) then false
  else
    match
      try_except
        (match _source_value_extractor m, _evaluator m, _operand m with
         | Some ext, Some cmp, Some operand =>
             let? value := run_extractor ext record parsed_record in
             Ok (run_comparator cmp value operand)
         | _, _, _ => Raise TypeError
         end)
        (fun _ => Ok false)
    with
    | Ok b => b
    | Raise _ => false
    end.

Record Engine : Type := {
  rules : list ConfigRule;
  default_rule : option ConfigRule
}.

(** [MetadataEngine._is_rule_applicable] *)
Definition _is_rule_applicable (rule : ConfigRule) (record : value)
    (parsed_record : gmap string value) : bool :=
  forallb (fun m => matcher_match m record parsed_record) (source_matchers rule).

(** One turn of the loop of [_apply_rule]. *)
Definition apply_attribute (attr : Attribute) (raw_record : value)
  : M (gmap string value) unit :=
  try_catch
    (let* value := lift (jmespath_search B (pattern attr) raw_record) in
     match value with
     | VNone => ret tt
     | _ => setitem (key attr) value
     end)
    (fun _ => ret tt).

(** [MetadataEngine._apply_rule] *)
Fixpoint apply_attributes (attrs : list Attribute) (raw_record : value)
  : M (gmap string value) unit :=
  match attrs with
  | [] => ret tt
  | attr :: rest =>
      apply_attribute attr raw_record ;; apply_attributes rest raw_record
  end.

Definition _apply_rule (rule : ConfigRule) (raw_record : value)
  : M (gmap string value) unit :=
  apply_attributes (attributes rule) raw_record.

(** The [for rule in self.rules] loop of [apply]: [true] when the loop
    left through its [return]. *)
Fixpoint apply_first (rs : list ConfigRule) (record : value)
  : M (gmap string value) bool :=
  match rs with
  | [] => ret false
  | rule :: rest =>
      let* parsed_record := getstate in
      if _is_rule_applicable rule record parsed_record
      then _apply_rule rule record ;; ret true
      else apply_first rest record
  end.

(** [MetadataEngine.apply] *)
Definition apply (eng : Engine) (record : value) : M (gmap string value) unit :=
  try_catch
    (let* returned := apply_first (rules eng) record in
     if (returned : bool) then ret tt
     else
       match default_rule eng with
       | Some rule => _apply_rule rule record
       | None => ret tt
       end)
    (fun _ => ret tt).

End Engine.
End MetadataEngine.

(* ===================================================================== *)
(** * The library calls behind the timestamp conversion *)
(* ===================================================================== *)

(** The fragment of Python's [re] that the two time patterns are written
    in: [\d{n}] and literal characters. *)
Module Re.

Inductive item : Type :=
| Digits (n : nat)
| Lit (c : ascii).

Definition is_digit (c : ascii) : bool :=
  let n := nat_of_ascii c in (48 <=? n)%nat && (n <=? 57)%nat.

Definition digit_val (c : ascii) : nat := nat_of_ascii c - 48.

(** [re.compile(p)] *)
Fixpoint compile (p : string) : list item :=
  match p with
  | EmptyString => []
  | String c rest =>
      match rest with
      | String c1 (String c2 (String c3 (String c4 rest'))) =>
          if Ascii.eqb c "\" && Ascii.eqb c1 "d" && Ascii.eqb c2 "{"
             && is_digit c3 && Ascii.eqb c4 "}"
          then Digits (digit_val c3) :: compile rest'
          else Lit c :: compile rest
      | _ => Lit c :: compile rest
      end
  end.

Fixpoint match_digits (n : nat) (s : string) : option string :=
  match n with
  | O => Some s
  | S n' =>
      match s with
      | String a s' => if is_digit a then match_digits n' s' else None
      | EmptyString => None
      end
  end.

(** What is left of [s] after the items matched at its start. *)
Fixpoint match_items (items : list item) (s : string) : option string :=
  match items with
  | [] => Some s
  | Digits n :: rest =>
      match match_digits n s with
      | Some s' => match_items rest s'
      | None => None
      end
  | Lit c :: rest =>
      match s with
      | String a s' => if Ascii.eqb a c then match_items rest s' else None
      | EmptyString => None
      end
  end.

(** [pattern.match(s)] as a truth value: a match at the start of [s]. *)
Definition re_match (pattern : string) (s : string) : bool :=
  match match_items (compile pattern) s with
  | Some _ => true
  | None => false
  end.

End Re.

(** [datetime.strptime] for the directives of the two formats in use, and
    [isoformat(timespec="milliseconds")] of the naive result. *)
Module Datetime.
Import Py Re.
Local Open Scope nat_scope.

Inductive directive : Type :=
| DirY | Dirm | Dird | DirH | DirM | DirS
| DirSpace
| DirLit (c : ascii).

Definition is_space (c : ascii) : bool :=
  let n := nat_of_ascii c in
  Nat.eqb n 32 || ((9 <=? n)%nat && (n <=? 13)%nat).

Fixpoint parse_format (f : string) : option (list directive) :=
  match f with
  | EmptyString => Some []
  | String c rest =>
      if Ascii.eqb c "%" then
        match rest with
        | String d rest' =>
            let dir :=
              if Ascii.eqb d "Y" then Some DirY
              else if Ascii.eqb d "m" then Some Dirm
              else if Ascii.eqb d "d" then Some Dird
              else if Ascii.eqb d "H" then Some DirH
              else if Ascii.eqb d "M" then Some DirM
              else if Ascii.eqb d "S" then Some DirS
              else None in
            match dir, parse_format rest' with
            | Some x, Some ds => Some (x :: ds)
            | _, _ => None
            end
        | EmptyString => None
        end
      else
        match parse_format rest with
        | Some ds => Some ((if is_space c then DirSpace else DirLit c) :: ds)
        | None => None
        end
  end.

Record fields : Type := {
  year : nat; month : nat; day : nat; hour : nat; minute : nat; second : nat
}.

Definition fields0 : fields :=
  {| year := 1900; month := 1; day := 1; hour := 0; minute := 0; second := 0 |}.

(** Two digits that satisfy [ok], then one digit that satisfies [ok1]: the
    order in which the alternatives of a numeric directive are tried. *)
Definition two_digits (ok : nat -> nat -> bool) (s : string) : list (nat * string) :=
  match s with
  | String a (String b s') =>
      if is_digit a && is_digit b && ok (digit_val a) (digit_val b)
      then [(10 * digit_val a + digit_val b, s')] else []
  | _ => []
  end.

Definition one_digit (ok : nat -> bool) (s : string) : list (nat * string) :=
  match s with
  | String a s' =>
      if is_digit a && ok (digit_val a) then [(digit_val a, s')] else []
  | _ => []
  end.

(** [1[0-2]|0[1-9]|[1-9]] *)
Definition alts_m (s : string) : list (nat * string) :=
  two_digits (fun a b => (Nat.eqb a 1 && (b <=? 2)) || (Nat.eqb a 0 && (1 <=? b))) s
  ++ one_digit (fun a => 1 <=? a) s.

(** [3[0-1]|[1-2]\d|0[1-9]|[1-9]| [1-9]] *)
Definition alts_d (s : string) : list (nat * string) :=
  two_digits (fun a b => (Nat.eqb a 3 && (b <=? 1))
                         || ((1 <=? a) && (a <=? 2))
                         || (Nat.eqb a 0 && (1 <=? b))) s
  ++ one_digit (fun a => 1 <=? a) s
  ++ match s with
     | String a s' => if Ascii.eqb a " " then one_digit (fun a => 1 <=? a) s' else []
     | EmptyString => []
     end.

(** [2[0-3]|[0-1]\d|\d] *)
Definition alts_H (s : string) : list (nat * string) :=
  two_digits (fun a b => (Nat.eqb a 2 && (b <=? 3)) || (a <=? 1)) s
  ++ one_digit (fun _ => true) s.

(** [[0-5]\d|\d] *)
Definition alts_M (s : string) : list (nat * string) :=
  two_digits (fun a _ => a <=? 5) s ++ one_digit (fun _ => true) s.

(** [6[0-1]|[0-5]\d|\d] *)
Definition alts_S (s : string) : list (nat * string) :=
  two_digits (fun a b => (Nat.eqb a 6 && (b <=? 1)) || (a <=? 5)) s
  ++ one_digit (fun _ => true) s.

(** [\d\d\d\d] *)
Definition alts_Y (s : string) : list (nat * string) :=
  match s with
  | String a (String b (String c (String d s'))) =>
      if is_digit a && is_digit b && is_digit c && is_digit d
      then [(1000 * digit_val a + 100 * digit_val b
             + 10 * digit_val c + digit_val d, s')]
      else []
  | _ => []
  end.

(** [\s+], longest run first. *)
Fixpoint alts_space (s : string) : list string :=
  match s with
  | String a s' => if is_space a then alts_space s' ++ [s'] else []
  | EmptyString => []
  end.

(** All the ways the directives match at the start of [s], in the order a
    backtracking matcher finds them. *)
Fixpoint run (ds : list directive) (s : string) (acc : fields)
  : list (fields * string) :=
  match ds with
  | [] => [(acc, s)]
  | d :: rest =>
      let set (f : nat -> fields) (alts : list (nat * string)) :=
        flat_map (fun vs => run rest (snd vs) (f (fst vs))) alts in
      match d with
      | DirY => set (fun v => {| year := v; month := month acc; day := day acc;
                                 hour := hour acc; minute := minute acc;
                                 second := second acc |}) (alts_Y s)
      | Dirm => set (fun v => {| year := year acc; month := v; day := day acc;
                                 hour := hour acc; minute := minute acc;
                                 second := second acc |}) (alts_m s)
      | Dird => set (fun v => {| year := year acc; month := month acc; day := v;
                                 hour := hour acc; minute := minute acc;
                                 second := second acc |}) (alts_d s)
      | DirH => set (fun v => {| year := year acc; month := month acc; day := day acc;
                                 hour := v; minute := minute acc;
                                 second := second acc |}) (alts_H s)
      | DirM => set (fun v => {| year := year acc; month := month acc; day := day acc;
                                 hour := hour acc; minute := v;
                                 second := second acc |}) (alts_M s)
      | DirS => set (fun v => {| year := year acc; month := month acc; day := day acc;
                                 hour := hour acc; minute := minute acc;
                                 second := v |}) (alts_S s)
      | DirSpace => flat_map (fun s' => run rest s' acc) (alts_space s)
      | DirLit c =>
          match s with
          | String a s' =>
              if Ascii.eqb (lower_ascii a) (lower_ascii c) then run rest s' acc else []
          | EmptyString => []
          end
      end
  end.

Definition is_leap (y : nat) : bool :=
  (Nat.eqb (y mod 4) 0 && negb (Nat.eqb (y mod 100) 0)) || Nat.eqb (y mod 400) 0.

Definition days_in_month (y m : nat) : nat :=
  match m with
  | 2 => if is_leap y then 29 else 28
  | 4 | 6 | 9 | 11 => 30
  | _ => 31
  end.

(** The range checks of the [datetime] constructor. *)
Definition valid_fields (f : fields) : bool :=
  (1 <=? year f) && (1 <=? month f) && (month f <=? 12)
  && (1 <=? day f) && (day f <=? days_in_month (year f) (month f))
  && (hour f <=? 23) && (minute f <=? 59) && (second f <=? 59).

(** [datetime.strptime(data, format)] *)
Definition strptime (data format : string) : result fields :=
  match parse_format format with
  | None => Raise ValueError
  | Some ds =>
      match run ds data fields0 with
      | [] => Raise ValueError
      | (f, rest) :: _ =>
          match rest with
          | EmptyString => if valid_fields f then Ok f else Raise ValueError
          | String _ _ => Raise ValueError
          end
      end
  end.

Definition digit_char (n : nat) : ascii := ascii_of_nat (48 + n mod 10).

Definition pad2 (n : nat) : string :=
  String (digit_char (n / 10)) (String (digit_char n) EmptyString).

Definition pad4 (n : nat) : string :=
  String (digit_char (n / 1000)) (String (digit_char (n / 100))
    (String (digit_char (n / 10)) (String (digit_char n) EmptyString))).

(** [dt.isoformat(timespec="milliseconds")] of a naive [datetime] whose
    microsecond is 0, as [strptime] without [%f] builds it. *)
Definition isoformat_milliseconds (f : fields) : string :=
  String.concat ""
    [pad4 (year f); "-"; pad2 (month f); "-"; pad2 (day f); "T";
     pad2 (hour f); ":"; pad2 (minute f); ":"; pad2 (second f); ".000"].

End Datetime.

(* ===================================================================== *)
(** * services/logs_sender.py *)
(* ===================================================================== *)

Module LogSender.
Import Py.

(** The entries of [config] that [LogSender] reads.  Sizes are whole
    numbers of bytes; a byte limit that is not a whole number compares with
    them as its integer part does. *)
Record Config : Type := {
  max_request_size : Z;         (* log_ingestion.max_request_size *)
  max_events_per_request : Z;   (* log_ingestion.max_events_per_request *)
  max_retries : Z;              (* performance.http.max_retries *)
  concurrency : Z               (* performance.http.concurrency *)
}.

(** What one [session.post] comes back with: a response, given by its
    status and by what [await response.text()] comes to when the body is
    read, or an exception. *)
Inductive post_outcome : Type :=
| Response (status : Z) (text : result string)
| PostRaises (e : exn).

Section Sender.
Variable Entry : Type.
(** [len(json.dumps(log).encode('utf-8'))] *)
Variable entry_size : Entry -> Z.
Variable config : Config.

(** [serialized_batch] is the JSON text of a list of entries; it is kept
    here as the list it was serialised from. *)
Record LogBatch : Type := {
  serialized_batch : list Entry;
  number_of_logs : nat
}.

Definition _create_batch (logs : list Entry) : LogBatch :=
  {| serialized_batch := logs; number_of_logs := length logs |}.

(** The loop of [_prepare_batches] with its two local variables; the
    result lists the batches in the order in which they are yielded. *)
Fixpoint prepare_from (logs : list Entry) (current_batch : list Entry)
    (current_size : Z) : list LogBatch :=
  match logs with
  | [] =>
      match current_batch with
      | [] => []
      | _ :: _ => [_create_batch current_batch]
      end
  | log :: rest =>
      let size := entry_size log in
      if (size >? max_request_size config)%Z then
        prepare_from rest current_batch current_size
      else if (Z.of_nat (length current_batch) >=? max_events_per_request config)%Z
              || (current_size + size >? max_request_size config)%Z
      then _create_batch current_batch :: prepare_from rest [log] size
      else prepare_from rest (current_batch ++ [log]) (current_size + size)%Z
  end.

Definition _prepare_batches (logs : list Entry) : list LogBatch :=
  prepare_from logs [] 0%Z.

(** What the sender does to the outside world. *)
Inductive io_event : Type :=
| HttpPost (batch : LogBatch)
| Sleep (milliseconds : Z).

(** [_handle_response]: the body is read only when the status is 300 or
    more; [response_text[:500]] is a slice of a [str]. *)
Definition _handle_response (status : Z) (text : result string) : result bool :=
  if (status <? 300)%Z then Ok true
  else let? response_text := text in Ok false.

(** [_send_batch]: one POST.  The request and the handling of its response
    are both inside the [try]; [except aiohttp.ClientError] catches that
    class only.  The gzip compression of the payload, which comes first,
    is taken to succeed, as it does for a compression level from -1 to
    9. *)
Definition _send_batch (outcome : post_outcome) (batch : LogBatch)
  : list io_event * result bool :=
  ([HttpPost batch],
   match
     match outcome with
     | Response status text => _handle_response status text
     | PostRaises e => Raise e
     end
   with
   | Raise ClientError => Ok false
   | r => r
   end).

(** [range(1, n + 1)] *)
Definition range1 (n : Z) : list Z :=
  map (fun i => Z.of_nat i) (seq 1 (Z.to_nat n)).

(** The [for attempt in range(...)] loop of [_process_batch];
    [asyncio.sleep(attempt * 1.5)] is recorded in milliseconds. *)
Fixpoint attempts_loop (outcomes : Z -> post_outcome) (batch : LogBatch)
    (attempts : list Z) : list io_event * bool :=
  match attempts with
  | [] => ([], false)
  | attempt :: rest =>
      match _send_batch (outcomes attempt) batch with
      | (tr, Ok sent) => (tr, sent)
      | (tr, Raise _) =>
          if (attempt =? max_retries config)%Z then (tr, false)
          else
            let (tr', sent) := attempts_loop outcomes batch rest in
            (tr ++ Sleep (1500 * attempt) :: tr', sent)
      end
  end.

Definition _process_batch (outcomes : Z -> post_outcome) (batch : LogBatch)
  : list io_event * bool :=
  attempts_loop outcomes batch (range1 (max_retries config)).

(** [send].  [network i a] is what the [a]-th POST of the [i]-th batch
    comes back with.  [asyncio.Semaphore(concurrency)] raises [ValueError]
    on a negative count, which the [except] of [send] turns into [False]
    before any request; with a count of zero no [_process_batch] ever gets
    past [async with semaphore], so that [asyncio.gather] never completes.
    With one permit or more every batch gets its turn; [asyncio.gather]
    returns the results in the order of the batches; the trace lists the
    requests batch by batch, the order in which concurrent batches
    interleave is not modelled. *)
Definition send (network : nat -> Z -> post_outcome) (logs : list Entry)
  : list io_event * completion bool :=
  let batches := _prepare_batches logs in
  match batches with
  | [] => ([], Completes true)
  | _ :: _ =>
      if (concurrency config <? 0)%Z then ([], Completes false)
      else if (concurrency config =? 0)%Z then ([], Blocks)
      else
        let results :=
          imap (fun i batch => _process_batch (network i) batch) batches in
        (concat (map fst results), Completes (forallb (fun r => snd r) results))
  end.

End Sender.

Arguments serialized_batch {Entry} _.
Arguments number_of_logs {Entry} _.
Arguments HttpPost {Entry} _.
Arguments Sleep {Entry} _.

End LogSender.

(* ===================================================================== *)
(** * processor/custom_processor.py *)
(* ===================================================================== *)

Module CustomProcessor.
Import Py.

(** The entries of [config["log_processing"]] read by [__init__]. *)
Record Config : Type := {
  attribute_limit : Z;     (* attribute_value_length_limit *)
  content_limit : Z;       (* content_length_limit *)
  truncated_mark : string  (* content_truncated_mark *)
}.

(** The event object handed over by the stream client, as far as the
    processor touches it. *)
Record Event : Type := {
  (** [event.body_as_str(encoding="UTF-8")] *)
  body_as_str : result string;
  (** [event.get("offset", "unknown")], evaluated by [_log_event_error] *)
  get_offset : result value
}.

(** A normalized entry, or the [None] that [_process_record] returns. *)
Abbreviation Entry := (option (gmap string string)).

Section Processor.
Variable B : Builtins.
Variable config : Config.
Variable metadata_engine : MetadataEngine.Engine.
Variable sender_config : LogSender.Config.
(** [len(json.dumps(log).encode('utf-8'))] *)
Variable entry_size : Entry -> Z.

(** [_init_time_formats]: the sources of the two compiled patterns. *)
Definition time_patterns : list string :=
  [ "\d{4}-\d{2}-\d{2} \d{2}:\d{2}:\d{2}";
    "\d{2}/\d{2}/\d{4} \d{2}:\d{2}:\d{2}" ].

(** [_get_format]; [pattern] is [pattern.pattern]. *)
Definition _get_format (pattern : string) : string :=
  if contains "202" pattern then "%Y-%m-%d %H:%M:%S" else "%m/%d/%Y %H:%M:%S".

(** [pattern.match(timestamp)]: a [TypeError] unless [timestamp] is text. *)
Definition pattern_match (pattern : string) (timestamp : value) : result bool :=
  match timestamp with
  | VStr s => Ok (Re.re_match pattern s)
  | _ => Raise TypeError
  end.

Definition py_strptime (timestamp : value) (format : string)
  : result Datetime.fields :=
  match timestamp with
  | VStr s => Datetime.strptime s format
  | _ => Raise TypeError
  end.

(** [except ValueError] *)
Definition is_ValueError (e : exn) : bool :=
  match e with
  | ValueError | JSONDecodeError => true
  | _ => false
  end.

(** The loop of [_parse_datetime] over the patterns still to try. *)
Fixpoint parse_datetime_from (patterns : list string) (timestamp : value)
  : result string :=
  match patterns with
  | [] => Ok (utcnow_isoformat B)
  | pattern :: rest =>
      let? matched := pattern_match pattern timestamp in
      if (matched : bool) then
        match py_strptime timestamp (_get_format pattern) with
        | Ok dt => Ok (Datetime.isoformat_milliseconds dt)
        | Raise e =>
            if is_ValueError e then parse_datetime_from rest timestamp
            else Raise e
        end
      else parse_datetime_from rest timestamp
  end.

Definition _parse_datetime (timestamp : value) : result string :=
  parse_datetime_from time_patterns timestamp.

Definition _convert_timestamp : M (gmap string value) unit :=
  let* record := getstate in
  match record !! "timestamp" with
  | Some timestamp =>
      let* iso := lift (_parse_datetime timestamp) in
      setitem "timestamp" (VStr iso)
  | None => ret tt
  end.

Definition str_len (s : string) : Z := Z.of_nat (String.length s).

(** [_truncate_content] *)
Definition _truncate_content (content : value) : string :=
  let content_str :=
    match content with
    | VStr s => s
    | _ => json_dumps B content
    end in
  if (str_len content_str >? content_limit config)%Z
  then String.append
         (slice_to (content_limit config - str_len (truncated_mark config)) content_str)
         (truncated_mark config)
  else content_str.

(** [_truncate_generic_field] *)
Definition _truncate_generic_field (value : value) : string :=
  let str_value := str_of B value in
  if (str_len str_value >? attribute_limit config)%Z
  then String.append
         (slice_to (attribute_limit config - str_len (truncated_mark config)) str_value)
         (truncated_mark config)
  else str_value.

(** [_truncate_value] *)
Definition _truncate_value (key : string) (value : value) : string :=
  if String.eqb key "content" then _truncate_content value
  else if String.eqb key "severity" || String.eqb key "timestamp"
  then str_of B value
  else _truncate_generic_field value.

(** [_apply_field_limits] *)
Definition _apply_field_limits (record : gmap string value) : gmap string string :=
  map_imap (fun key value => Some (_truncate_value key value)) record.

(** [next((k for k in names if k in record), None)] *)
Fixpoint first_present (names : list string) (record : value)
  : result (option string) :=
  match names with
  | [] => Ok None
  | k :: rest =>
      let? present := py_in k record in
      if (present : bool) then Ok (Some k) else first_present rest record
  end.

(** [record[k] = v] on a record that is a dict. *)
Fixpoint assoc_set (k : string) (v : value) (items : list (string * value))
  : list (string * value) :=
  match items with
  | [] => [(k, v)]
  | (k', v') :: rest =>
      if String.eqb k' k then (k, v) :: rest else (k', v') :: assoc_set k v rest
  end.

Definition py_setitem (record : value) (k : string) (v : value) : result value :=
  match record with
  | VDict items => Ok (VDict (assoc_set k v items))
  | _ => Raise TypeError
  end.

(** [_deserialize_properties]; the record it has changed in place is
    returned. *)
Definition _deserialize_properties (record : value) : result value :=
  let? prop_key := first_present Mapping.azure_properties_names record in
  match prop_key with
  | Some k =>
      let? current := py_get record k VNone in
      match current with
      | VStr text =>
          match json_loads B true text with
          | Ok decoded => py_setitem record k decoded
          | Raise JSONDecodeError => Ok record
          | Raise e => Raise e
          end
      | _ => Ok record
      end
  | None => Ok record
  end.

(** [_extract_resource_info] *)
Definition _extract_resource_info (record : value) : M (gmap string value) unit :=
  let* present := lift (py_in "resourceId" record) in
  if (present : bool) then
    let* resource_id := lift (py_getitem record "resourceId") in
    Mapping.extract_resource_id_attributes resource_id
  else ret tt.

(** [x.lower()] *)
Definition py_lower (x : value) : result string :=
  match x with
  | VStr s => Ok (casefold s)
  | _ => Raise AttributeError
  end.

(** [_build_parsed_record] *)
Definition _build_parsed_record (record : value) : result (gmap string value) :=
  let steps : M (gmap string value) unit :=
    Mapping.extract_severity record ;;
    _extract_resource_info record ;;
    MetadataEngine.apply B metadata_engine record ;;
    _convert_timestamp ;;
    let* category :=
      lift (let? c := py_get record "category" (VStr "") in py_lower c) in
    infer_monitored_entity_id B category in
  match steps {[ "cloud.provider" := VStr "Azure" ]} with
  | (parsed, Ok _) => Ok parsed
  | (_, Raise e) => Raise e
  end.

(** [_process_record] *)
Definition _process_record (record : value) : Entry :=
  match
    (let? record' := _deserialize_properties record in
     let? parsed := _build_parsed_record record' in
     Ok (_apply_field_limits parsed))
  with
  | Ok entry => Some entry
  | Raise _ => None
  end.

(** [s.replace(c, by)] for a one-character [c]. *)
Fixpoint replace_char (c : ascii) (by_ : string) (s : string) : string :=
  match s with
  | EmptyString => EmptyString
  | String a s' =>
      if Ascii.eqb a c then String.append by_ (replace_char c by_ s')
      else String a (replace_char c by_ s')
  end.

(** [_attempt_fallback_parsing] *)
Definition _attempt_fallback_parsing (body : string) : result value :=
  let modified_body :=
    replace_char "'" (String "034" EmptyString) (replace_char "010" "" body) in
  try_except
    (let? doc := json_loads B false modified_body in
     py_get doc "records" (VList []))
    (fun _ => Ok (VList [])).

(** [_parse_event_body] *)
Definition _parse_event_body (body : string) : result value :=
  match (let? doc := json_loads B true body in py_get doc "records" (VList [])) with
  | Ok records => Ok records
  | Raise JSONDecodeError => _attempt_fallback_parsing body
  | Raise e => Raise e
  end.

(** What a [for] loop over [x] goes through. *)
Definition py_iter (x : value) : result (list value) :=
  match x with
  | VList l => Ok l
  | VDict items => Ok (map (fun kv => VStr (fst kv)) items)
  | VStr s => Ok (map (fun a => VStr (String a EmptyString)) (list_ascii_of_string s))
  | _ => Raise TypeError
  end.

Definition is_not_None (v : value) : bool :=
  match v with VNone => false | _ => true end.

(** [_log_event_error]: its argument [event.get("offset", "unknown")]. *)
Definition _log_event_error (event : Event) : result unit :=
  let? _ := get_offset event in Ok tt.

(** [extract_logs] *)
Definition extract_logs (event : Event) : result (list Entry) :=
  try_except
    (let? event_body := body_as_str event in
     match event_body with
     | EmptyString => Ok []
     | String _ _ =>
         let? parsed_body := _parse_event_body event_body in
         let? records := py_iter parsed_body in
         Ok (map _process_record (List.filter is_not_None records))
     end)
    (fun _ => let? _ := _log_event_error event in Ok []).

(** [_send_logs_safely]: [send] does not raise; a [False] from it is
    logged and nothing more. *)
Definition _send_logs_safely (network : nat -> Z -> LogSender.post_outcome)
    (logs : list Entry)
  : list (LogSender.io_event Entry) * completion (result unit) :=
  match LogSender.send Entry entry_size sender_config network logs with
  | (tr, Completes sent) => (tr, Completes (Ok tt))
  | (tr, Blocks) => (tr, Blocks)
  end.

(** [process]: an exception is logged and raised again. *)
Definition process (network : nat -> Z -> LogSender.post_outcome)
    (event : Event)
  : list (LogSender.io_event Entry) * completion (result unit) :=
  match extract_logs event with
  | Ok logs =>
      match logs with
      | [] => ([], Completes (Ok tt))
      | _ :: _ => _send_logs_safely network logs
      end
  | Raise e => ([], Completes (Raise e))
  end.

End Processor.
End CustomProcessor.

(* ===================================================================== *)
(** * services/eventhub_consumer.py and libs/exceptions.py *)
(* ===================================================================== *)

Module EventHubConsumer.
Import Py.

Abbreviation Entry := (option (gmap string string)).

(** What a partition worker does to the outside world for one event. *)
Inductive worker_event : Type :=
| Delivery (e : LogSender.io_event Entry)
| UpdateCheckpoint (event : CustomProcessor.Event).

Section Consumer.
Variable B : Builtins.
Variable config : CustomProcessor.Config.
Variable metadata_engine : MetadataEngine.Engine.
Variable sender_config : LogSender.Config.
Variable entry_size : Entry -> Z.

(** The body of [process_message], below its decorator.
    [checkpoint] is what [partition_context.update_checkpoint(event)]
    comes back with. *)
Definition process_message_body
    (network : nat -> Z -> LogSender.post_outcome)
    (checkpoint : result unit) (event : CustomProcessor.Event)
  : list worker_event * completion (result unit) :=
  match CustomProcessor.process B config metadata_engine sender_config
          entry_size network event with
  | (tr, Completes (Ok _)) =>
      match checkpoint with
      | Ok _ =>
          (map Delivery tr ++ [UpdateCheckpoint event], Completes (Ok tt))
      | Raise _ =>
          (map Delivery tr ++ [UpdateCheckpoint event],
           Completes (Raise ProcessingError))
      end
  | (tr, Completes (Raise _)) =>
      (map Delivery tr, Completes (Raise ProcessingError))
  | (tr, Blocks) => (map Delivery tr, Blocks)
  end.

(** [error_handler(max_retries)]: the wrapper around [func]; [retries]
    counts up to [max_retries], [fuel] is the number of turns left. *)
Fixpoint error_handler_loop (fuel : nat)
    (func : list worker_event * completion (result unit))
  : list worker_event * completion (result unit) :=
  match fuel with
  | O => ([], Completes (Raise ConnectivityError))
  | S fuel' =>
      match func with
      | (tr, Completes (Ok r)) => (tr, Completes (Ok r))
      | (tr, Completes (Raise ConnectivityError)) =>
          let (tr', r) := error_handler_loop fuel' func in (tr ++ tr', r)
      | (tr, Completes (Raise e)) => (tr, Completes (Raise e))
      | (tr, Blocks) => (tr, Blocks)
      end
  end.

(** [process_message], as the stream client calls it. *)
Definition process_message
    (network : nat -> Z -> LogSender.post_outcome)
    (checkpoint : result unit) (event : CustomProcessor.Event)
  : list worker_event * completion (result unit) :=
  error_handler_loop 3 (process_message_body network checkpoint event).

End Consumer.
End EventHubConsumer.

(* ===================================================================== *)
(** * A small runtime on which the program can be run *)
(* ===================================================================== *)

Module Demo.
Import Py.

(** A runtime whose JSON decoder returns [doc] whatever the text, and
    whose rule queries find nothing. *)
Definition builtins (doc : value) : Builtins :=
  {| py_str := fun _ => "?";
     json_dumps := fun _ => "?";
     json_loads := fun _ _ => Ok doc;
     jmespath_search := fun _ _ => Ok VNone;
     infer_monitored_entity_id := fun _ => ret tt;
     utcnow_isoformat := "now" |}.

(** The same runtime, except that every rule query evaluates to its own
    text. *)
Definition echo_builtins : Builtins :=
  {| py_str := fun _ => "?";
     json_dumps := fun _ => "?";
     json_loads := fun _ _ => Ok VNone;
     jmespath_search := fun pattern _ => Ok (VStr pattern);
     infer_monitored_entity_id := fun _ => ret tt;
     utcnow_isoformat := "now" |}.

Definition rule_storage : MetadataEngine.ConfigRule :=
  {| MetadataEngine.entity_type_name := "storage";
     MetadataEngine.source_matchers :=
       [MetadataEngine.new_SourceMatcher "category" "$eq('StorageRead')"];
     MetadataEngine.attributes :=
       [{| MetadataEngine.key := "entity"; MetadataEngine.pattern := "storage" |}] |}.

Definition rule_admin : MetadataEngine.ConfigRule :=
  {| MetadataEngine.entity_type_name := "admin";
     MetadataEngine.source_matchers :=
       [MetadataEngine.new_SourceMatcher "category" "$prefix('admin')";
        MetadataEngine.new_SourceMatcher "Category" "$contains('strat')"];
     MetadataEngine.attributes :=
       [{| MetadataEngine.key := "entity"; MetadataEngine.pattern := "admin" |}] |}.

Definition rule_any : MetadataEngine.ConfigRule :=
  {| MetadataEngine.entity_type_name := "any";
     MetadataEngine.source_matchers :=
       [MetadataEngine.new_SourceMatcher "category" "$in('Security', 'Administrative')"];
     MetadataEngine.attributes :=
       [{| MetadataEngine.key := "entity"; MetadataEngine.pattern := "any" |}] |}.

Definition rule_default : MetadataEngine.ConfigRule :=
  {| MetadataEngine.entity_type_name := "default";
     MetadataEngine.source_matchers := [];
     MetadataEngine.attributes :=
       [{| MetadataEngine.key := "entity"; MetadataEngine.pattern := "default" |}] |}.

Definition admin_record : value := VDict [("category", VStr "Administrative")].

(** A record whose category is a number: [.lower()] raises on it. *)
Definition bad_record : value := VDict [("category", VInt 5)].

(** A record with a level and nothing else. *)
Definition good_record : value := VDict [("Level", VInt 2)].

Definition good_entry : gmap string string :=
  {[ "cloud.provider" := "Azure"; "severity" := "Error" ]}.

Definition sender_config : LogSender.Config :=
  {| LogSender.max_request_size := 1000;
     LogSender.max_events_per_request := 100;
     LogSender.max_retries := 3;
     LogSender.concurrency := 4 |}.

(** Every entry counted as ten bytes. *)
Definition ten_bytes (e : option (gmap string string)) : Z := 10.

(** An endpoint that answers every request with status 500 and a body
    that can be read. *)
Definition always_500 (batch : nat) (attempt : Z) : LogSender.post_outcome :=
  LogSender.Response 500 (Ok "Internal Server Error").

Definition config : CustomProcessor.Config :=
  {| CustomProcessor.attribute_limit := 250;
     CustomProcessor.content_limit := 8192;
     CustomProcessor.truncated_mark := "[TRUNCATED]" |}.

Definition engine : MetadataEngine.Engine :=
  {| MetadataEngine.rules := []; MetadataEngine.default_rule := None |}.

(** An event of the stream client: it has a body and no [get] method. *)
Definition event : CustomProcessor.Event :=
  {| CustomProcessor.body_as_str := Ok "body";
     CustomProcessor.get_offset := Raise AttributeError |}.

End Demo.

(* ===================================================================== *)
(** * Severity, as the specification words it *)
(* ===================================================================== *)

Module SeveritySpec.
Import Py.

(** The level field of a record: the first alias that is a key of it. *)
Definition level_field (items : list (string * value)) : option value :=
  match assoc "Level" items with
  | Some v => Some v
  | None => assoc "level" items
  end.

(** The fixed table, with its default. *)
Definition severity_of_code (z : Z) : string :=
  if (z =? 1)%Z then "Critical"
  else if (z =? 2)%Z then "Error"
  else if (z =? 3)%Z then "Warning"
  else "Informational".

(** The severity of an entry, given the level field of its record. *)
Definition severity_of_level (level : option value) : value :=
  match level with
  | None => VStr "Informational"
  | Some raw =>
      match as_int raw with
      | Some z => VStr (severity_of_code z)
      | None => if hashable raw then raw else VStr "Informational"
      end
  end.

End SeveritySpec.

(* ===================================================================== *)
(** * The field-length policy, as the specification words it *)
(* ===================================================================== *)

Module FieldLimitSpec.
Import Py.

(** [out] is [s] under the limit [limit] with the marker [mark]: [s] itself
    when it fits, else a start of [s] followed by the marker, [limit]
    characters in all. *)
Definition truncated_to (limit : Z) (mark s out : string) : Prop :=
  ((CustomProcessor.str_len s <= limit)%Z -> out = s)
  /\ ((CustomProcessor.str_len s > limit)%Z ->
      (exists kept, out = String.append kept mark /\ String.prefix kept s = true)
      /\ CustomProcessor.str_len out = limit)
  /\ (CustomProcessor.str_len out <= limit)%Z.

(** [out] is [s] under a limit that the marker alone exceeds: a text within
    the limit is unchanged; a longer one loses only its last characters,
    as many as the marker is longer than the limit (all of them, if it has
    fewer), the marker is appended, and the outcome is longer than the
    limit. *)
Definition overrun_to (limit : Z) (mark s out : string) : Prop :=
  ((CustomProcessor.str_len s <= limit)%Z -> out = s)
  /\ ((CustomProcessor.str_len s > limit)%Z ->
      (exists kept,
         out = String.append kept mark /\ String.prefix kept s = true
         /\ CustomProcessor.str_len kept
            = Z.max 0 (CustomProcessor.str_len s
                       - (CustomProcessor.str_len mark - limit)))
      /\ (CustomProcessor.str_len out > limit)%Z).

(** The policy for one value, whatever the limit and the marker. *)
Definition limited_to (limit : Z) (mark s out : string) : Prop :=
  ((CustomProcessor.str_len mark <= limit)%Z -> truncated_to limit mark s out)
  /\ ((limit < CustomProcessor.str_len mark)%Z -> overrun_to limit mark s out).

(** The text of a content value before truncation. *)
Definition content_text (B : Builtins) (content : value) : string :=
  match content with
  | VStr s => s
  | _ => json_dumps B content
  end.

End FieldLimitSpec.

(* ===================================================================== *)
(** * Batches, as the specification words them *)
(* ===================================================================== *)

Module BatcherSpec.

Section Batches.
Variable Entry : Type.
Variable entry_size : Entry -> Z.
Variable config : LogSender.Config.

(** An entry that is not dropped for its own size. *)
Definition fits (e : Entry) : bool :=
  negb (entry_size e >? LogSender.max_request_size config)%Z.

(** The byte total of a batch: the sizes of its entries, summed. *)
Definition total_size (l : list Entry) : Z :=
  fold_right (fun e acc => (entry_size e + acc)%Z) 0%Z l.

(** A batch within both limits. *)
Definition within_limits (b : LogSender.LogBatch Entry) : Prop :=
  LogSender.serialized_batch b <> []
  /\ LogSender.number_of_logs b = length (LogSender.serialized_batch b)
  /\ (Z.of_nat (LogSender.number_of_logs b)
      <= LogSender.max_events_per_request config)%Z
  /\ (total_size (LogSender.serialized_batch b)
      <= LogSender.max_request_size config)%Z.

(** Every batch that is followed by another one was closed because the
    first entry of the next one would not fit: it would have pushed the
    count or the byte total past its limit. *)
Fixpoint closed_when_full (bs : list (LogSender.LogBatch Entry)) : Prop :=
  match bs with
  | b :: tl =>
      match tl with
      | b' :: _ =>
          match LogSender.serialized_batch b' with
          | e :: _ =>
              (Z.of_nat (length (LogSender.serialized_batch b))
               >= LogSender.max_events_per_request config)%Z
              \/ (total_size (LogSender.serialized_batch b) + entry_size e
                  > LogSender.max_request_size config)%Z
          | [] => False
          end
      | [] => True
      end
      /\ closed_when_full tl
  | [] => True
  end.

(** What the loop of [_prepare_batches] keeps true of its two local
    variables. *)
Definition pending_ok (cur : list Entry) (sz : Z) : Prop :=
  sz = total_size cur
  /\ (Z.of_nat (length cur) <= LogSender.max_events_per_request config)%Z
  /\ (cur <> [] -> (total_size cur <= LogSender.max_request_size config)%Z).

(** The input two by two; a last entry alone when the count is odd. *)
Fixpoint pairs (l : list Entry) : list (list Entry) :=
  match l with
  | a :: tl =>
      match tl with
      | b :: rest => [a; b] :: pairs rest
      | [] => [[a]]
      end
  | [] => []
  end.

End Batches.
End BatcherSpec.

(* ===================================================================== *)
(** * Resource identifiers, as the specification words them *)
(* ===================================================================== *)

Module ResourceIdSpec.
Import Py Mapping.

(** The condition of the specification on an identifier: at least seven
    segments once the leading slashes are removed, and the three fixed
    segments in place, case-insensitively. *)
Definition spec_well_formed (resource_id : string) : bool :=
  let parts := split "/" (lstrip "/" resource_id) in
  (7 <=? length parts)%nat
  && String.eqb (casefold (parts !!! 0%nat)) "subscriptions"
  && String.eqb (casefold (parts !!! 2%nat)) "resourcegroups"
  && String.eqb (casefold (parts !!! 4%nat)) "providers".

(** The four derived attributes, written into [parsed]. *)
Definition with_resource_attributes (parts : list string)
    (parsed : gmap string value) : gmap string value :=
  <[RESOURCE_TYPE_ATTRIBUTE :=
      VStr (join "/" (type_parts_from 0 (middle_parts parts)))]>
  (<[RESOURCE_NAME_ATTRIBUTE := VStr (List.last parts "")]>
  (<[RESOURCE_GROUP_ATTRIBUTE := VStr (parts !!! 3%nat)]>
  (<[SUBSCRIPTION_ATTRIBUTE := VStr (parts !!! 1%nat)]> parsed))).

Definition vm_extension_id : string :=
  "/subscriptions/S/resourceGroups/G/providers/Microsoft.Compute/virtualMachines/V/extensions/E".

End ResourceIdSpec.

(* ===================================================================== *)
(** * Delivery and timestamps: the situations the properties speak of *)
(* ===================================================================== *)

Module DeliverySpec.
Import Py.

(** Reading the body of a response gives its text, or fails with a client
    error (a broken transfer, say). *)
Definition body_read_ends (text : result string) : Prop :=
  forall e, text = Raise e -> e = ClientError.

(** The first request of a batch fails: it is answered with a status of 300
    or more, or it does not get through for a network error, the errors
    that aiohttp reports as [ClientError]. *)
Definition first_request_fails (outcomes : Z -> LogSender.post_outcome) : Prop :=
  (exists status text,
     outcomes 1%Z = LogSender.Response status text
     /\ (300 <= status)%Z /\ body_read_ends text)
  \/ outcomes 1%Z = LogSender.PostRaises ClientError.

(** The first request is answered with a status of 300 or more, and
    reading the body of the answer raises something else than a client
    error (text that cannot be decoded, a timeout). *)
Definition first_body_unreadable (outcomes : Z -> LogSender.post_outcome) : Prop :=
  exists status e,
    outcomes 1%Z = LogSender.Response status (Raise e)
    /\ (300 <= status)%Z /\ e <> ClientError.

End DeliverySpec.

Module TimestampSpec.

(** The two entries of [time_patterns]. *)
Definition dash_pattern : string := "\d{4}-\d{2}-\d{2} \d{2}:\d{2}:\d{2}".
Definition slash_pattern : string := "\d{2}/\d{2}/\d{4} \d{2}:\d{2}:\d{2}".

End TimestampSpec.

(* ===================================================================== *)
(** * Reading a delivery trace *)
(* ===================================================================== *)

Module TraceSpec.

Section Traces.
Variable Entry : Type.

(** The batches posted, in order. *)
Fixpoint posts (tr : list (LogSender.io_event Entry))
  : list (LogSender.LogBatch Entry) :=
  match tr with
  | [] => []
  | LogSender.HttpPost b :: rest => b :: posts rest
  | LogSender.Sleep _ :: rest => posts rest
  end.

(** The waits, in milliseconds, in order. *)
Fixpoint sleeps (tr : list (LogSender.io_event Entry)) : list Z :=
  match tr with
  | [] => []
  | LogSender.HttpPost _ :: rest => sleeps rest
  | LogSender.Sleep ms :: rest => ms :: sleeps rest
  end.

(** [except aiohttp.ClientError] *)
Definition is_ClientError (e : Py.exn) : bool :=
  match e with Py.ClientError => true | _ => false end.

(** A request that raises something [_send_batch] does not catch. *)
Definition raises_uncaught (o : LogSender.post_outcome) : Prop :=
  exists e, o = LogSender.PostRaises e /\ is_ClientError e = false.

(** A request that is answered with a status below 300. *)
Definition accepted (o : LogSender.post_outcome) : Prop :=
  exists status text, o = LogSender.Response status text /\ (status < 300)%Z.

End Traces.
End TraceSpec.

(* ===================================================================== *)
(** * libs/exceptions.py: the retry decorator on its own *)
(* ===================================================================== *)

Module Exceptions.
Import Py.

Section Handler.
Variable A : Type.

(** The [while retries < max_retries] loop of [wrapper].  [func i] is what
    the decorated function does when it is called for the [i]-th time,
    counting from 0; [left] is [max_retries - retries].  The result comes
    with the number of calls made. *)
Fixpoint wrapper_loop (func : nat -> result A) (retries left : nat)
  : nat * result A :=
  match left with
  | O => (retries, Raise ConnectivityError)
  | S left' =>
      match func retries with
      | Ok a => (S retries, Ok a)
      | Raise ConnectivityError => wrapper_loop func (S retries) left'
      | Raise e => (S retries, Raise e)
      end
  end.

(** [error_handler(max_retries)(func)], called once. *)
Definition error_handler (max_retries : Z) (func : nat -> result A)
  : nat * result A :=
  wrapper_loop func 0 (Z.to_nat max_retries).

End Handler.
End Exceptions.

(* ===================================================================== *)
(** * local_checkpoint.py *)
(* ===================================================================== *)

Module LocalCheckpoint.
Import Py.

(** What a checkpoint file holds: nothing yet, right after it was opened
    for writing, or the JSON text of an offset and a sequence number, kept
    here as the two values it serialises. *)
Inductive content : Type :=
| Truncated
| Written (offset sequence_number : value).

(** ** Paths and what the operating system does with them

    A place in the file system is given by the names that lead to it; at
    a place there is a directory or a regular file.  Symbolic links, access
    rights and the limits on names are not modelled. *)
Inductive node : Type :=
| Directory
| File (c : content).

Abbreviation place := (list string).
Abbreviation FileSystem := (gmap (list string) node).

(** The components that [pathlib] makes of a relative path text: the
    pieces between slashes, the empty ones and the single dots left out. *)
Definition kept_component (c : string) : bool :=
  negb (String.eqb c "") && negb (String.eqb c ".").

Definition components (text : string) : list string :=
  List.filter kept_component (split "/" text).

(** Where following [names] from the directory at [cur] leads.  Every
    place on the way has to be a directory; two dots lead to the parent. *)
Fixpoint walk (fs : FileSystem) (cur : place) (names : list string)
  : result place :=
  match names with
  | [] => Ok cur
  | c :: rest =>
      match fs !! cur with
      | Some Directory =>
          walk fs (if String.eqb c ".." then removelast cur else cur ++ [c]) rest
      | Some (File _) => Raise NotADirectoryError
      | None => Raise FileNotFoundError
      end
  end.

(** [Path.mkdir(exist_ok=True)]: the parents are not made; a directory
    that is there already is accepted, a regular file is not. *)
Definition mkdir_exist_ok (start : place) (names : list string)
  : M FileSystem unit :=
  fun fs =>
    match walk fs start names with
    | Raise e => (fs, Raise e)
    | Ok target =>
        match fs !! target with
        | None => (<[target := Directory]> fs, Ok tt)
        | Some Directory => (fs, Ok tt)
        | Some (File _) => (fs, Raise FileExistsError)
        end
    end.

(** [open(path, 'w')]: the file is made, or emptied when it is there; the
    result is the place of the open file. *)
Definition open_w (start : place) (names : list string)
  : M FileSystem place :=
  fun fs =>
    match walk fs start names with
    | Raise e => (fs, Raise e)
    | Ok target =>
        match fs !! target with
        | Some Directory => (fs, Raise IsADirectoryError)
        | _ => (<[target := File Truncated]> fs, Ok target)
        end
    end.

(** [f.write(text)] on a file just opened for writing. *)
Definition write (f : place) (c : content) : M FileSystem unit :=
  fun fs => (<[f := File c]> fs, Ok tt).

Section Store.
Variable B : Builtins.
(** [self.base_dir]: the place of storage_dir / eventhub_name /
    consumer_group. *)
Variable base_dir : place.

(** [_get_partition_dir]: the names that lead from [base_dir] to the
    directory of the partition. *)
Definition _get_partition_dir (partition_id : value) : list string :=
  components (String.append "partition_" (str_of B partition_id)).

(** The path of the checkpoint file of a partition, as it is written. *)
Definition checkpoint_file (partition_id : value) : place :=
  base_dir ++ _get_partition_dir partition_id ++ ["checkpoint.json"].

(** [list_ownership] and [claim_ownership] *)
Definition list_ownership : list value := [].
Definition claim_ownership (ownership_list : list value) : list value := [].

(** [update_checkpoint].  The file is open, and empty, while the text to
    write is built from the checkpoint. *)
Definition update_checkpoint (checkpoint : value) : M FileSystem unit :=
  let* partition_id := lift (py_getitem checkpoint "partition_id") in
  let partition_dir := _get_partition_dir partition_id in
  mkdir_exist_ok base_dir partition_dir ;;
  let* f := open_w base_dir (partition_dir ++ ["checkpoint.json"]) in
  let* offset := lift (py_getitem checkpoint "offset") in
  let* sequence_number := lift (py_getitem checkpoint "sequence_number") in
  write f (Written offset sequence_number).

End Store.
End LocalCheckpoint.

(* ===================================================================== *)
(** * Records and entries: the situations the properties speak of *)
(* ===================================================================== *)

Module RecordSpec.
Import Py.

(** The alias of the properties field that [_deserialize_properties]
    looks at: the first of the two that is a key of the record. *)
Definition first_alias (items : list (string * value)) : option string :=
  if has_key "properties" items then Some "properties"
  else if has_key "EventProperties" items then Some "EventProperties"
  else None.

(** A computation on the parsed record that removes no key. *)
Definition keeps_keys {A : Type} (m : M (gmap string value) A) : Prop :=
  forall (parsed : gmap string value) (k : string),
    is_Some (parsed !! k) -> is_Some (fst (m parsed) !! k).

(** A value that is neither text nor an array. *)
Definition not_sliceable (v : value) : bool :=
  match v with
  | VStr _ | VList _ => false
  | _ => true
  end.

End RecordSpec.

(* ===================================================================== *)
(** * Month-first timestamps, printed *)
(* ===================================================================== *)

Module TimestampText.
Import Datetime.

(** The fields of a date and time as "MM/DD/YYYY HH:MM:SS", every field
    padded with zeros. *)
Definition slash_text (f : fields) : string :=
  String.append (pad2 (month f)) (String "/"
    (String.append (pad2 (day f)) (String "/"
      (String.append (pad4 (year f)) (String " "
        (String.append (pad2 (hour f)) (String ":"
          (String.append (pad2 (minute f)) (String ":"
            (pad2 (second f)))))))))))%char.

End TimestampText.

(* ===================================================================== *)
(** * processor/sub/metadata_engine.py: loading the rules *)
(* ===================================================================== *)

Module RuleLoading.
Import Py MetadataEngine.

(** [SourceMatcher(source, condition)] on values of any type: the
    constructor calls [condition.startswith] and [source.casefold]. *)
Definition SourceMatcher_init (source condition : value) : result SourceMatcher :=
  match condition with
  | VStr c =>
      match source with
      | VStr s => Ok (new_SourceMatcher s c)
      | _ => Raise AttributeError
      end
  | _ => Raise AttributeError
  end.

(** [_create_sources] *)
Fixpoint _create_sources (sources_def : list value) : result (list SourceMatcher) :=
  match sources_def with
  | [] => Ok []
  | src :: rest =>
      match (let? source := py_getitem src "source" in
             let? condition := py_getitem src "condition" in
             SourceMatcher_init source condition)
      with
      | Ok matcher =>
          let? valid_sources := _create_sources rest in
          Ok (if valid matcher then matcher :: valid_sources else valid_sources)
      | Raise KeyError => _create_sources rest
      | Raise e => Raise e
      end
  end.

(** [_create_attributes]: an [Attribute] takes the two values as they
    are. *)
Fixpoint _create_attributes (attrs_def : list value) : result (list (value * value)) :=
  match attrs_def with
  | [] => Ok []
  | attr :: rest =>
      match (let? k := py_getitem attr "key" in
             let? p := py_getitem attr "pattern" in
             Ok (k, p))
      with
      | Ok a => let? valid_attrs := _create_attributes rest in Ok (a :: valid_attrs)
      | Raise KeyError => _create_attributes rest
      | Raise e => Raise e
      end
  end.

(** A [ConfigRule] as the loader builds it. *)
Record LoadedRule : Type := {
  entity : value;
  matchers : list SourceMatcher;
  attrs : list (value * value)
}.

Definition is_default_name (name : value) : bool := value_eq_str "default" name.

(** [_create_config_rule] *)
Definition _create_config_rule (entity_name : value) (rule_def : value)
  : option LoadedRule :=
  match
    (let? sources_def := py_get rule_def "sources" (VList []) in
     let? sources_list := CustomProcessor.py_iter sources_def in
     let? sources := _create_sources sources_list in
     let? attrs_def := py_get rule_def "attributes" (VList []) in
     let? attrs_list := CustomProcessor.py_iter attrs_def in
     let? attributes := _create_attributes attrs_list in
     Ok (sources, attributes))
  with
  | Ok (sources, attributes) =>
      if negb (is_default_name entity_name)
         && match sources with [] => true | _ :: _ => false end
      then None
      else Some {| entity := entity_name;
                   matchers := sources;
                   attrs := attributes |}
  | Raise _ => None
  end.

(** [_process_config] *)
Definition _process_config (config : value) : result (list LoadedRule) :=
  let? rules_def := py_get config "rules" (VList []) in
  let? rules_list := CustomProcessor.py_iter rules_def in
  let? name := py_get config "name" (VStr "unnamed") in
  Ok (omap (_create_config_rule name) rules_list).

(** The rules and the default rule of the engine while it loads. *)
Record Loaded : Type := {
  loaded_rules : list LoadedRule;
  loaded_default : option LoadedRule
}.

(** [_load_single_config], from the decoded document on. *)
Definition _load_single_config (config : value) (st : Loaded) : Loaded :=
  match py_get config "name" VNone with
  | Ok name =>
      if is_default_name name then
        {| loaded_rules := loaded_rules st;
           loaded_default := _create_config_rule (VStr "default") config |}
      else
        match _process_config config with
        | Ok rs => {| loaded_rules := loaded_rules st ++ rs;
                      loaded_default := loaded_default st |}
        | Raise _ => st
        end
  | Raise _ => st
  end.

(** [_load_configs] over the decoded documents, in the order in which the
    directory lists them. *)
Definition load_all (documents : list value) : Loaded :=
  fold_left (fun st doc => _load_single_config doc st) documents
    {| loaded_rules := []; loaded_default := None |}.

(** A rule with at least one matcher, all of them valid. *)
Definition has_valid_matchers (r : LoadedRule) : Prop :=
  matchers r <> [] /\ Forall (fun m => valid m = true) (matchers r).

End RuleLoading.

(* ===================================================================== *)
(** * managers/process_manager.py *)
(* ===================================================================== *)

Module ProcessManager.
Import Py.

(** A [PartitionProcess], as far as the manager looks at it: its name, the
    configuration it was built with, and whether it is alive. *)
Record Process : Type := {
  pname : string;
  consumer_config : gmap string value;
  is_alive : bool
}.

Record EventHubManager : Type := {
  config : gmap string value;
  processes : list Process
}.


Section Manager.
(** The name that [multiprocessing] gives to the [i]-th process object
    of the program. *)
Variable process_name : nat -> string.

(** [_build_process_config] *)
Definition _build_process_config (m : EventHubManager) (partition_id : Z)
  : gmap string value :=
  <["partition_id" := VInt partition_id]> (config m).

(** [start]; [created] process objects exist already.  A process that
    has just been started is alive. *)
Definition start (created : nat) (m : EventHubManager) : result EventHubManager :=
  match config m !! "partitions" with
  | None => Raise KeyError
  | Some partitions =>
      match as_int partitions with
      | None => Raise TypeError
      | Some n =>
          Ok {| config := config m;
                processes :=
                  processes m
                  ++ map (fun i =>
                            {| pname := process_name (created + i);
                               consumer_config :=
                                 _build_process_config m (Z.of_nat i);
                               is_alive := true |})
                         (seq 0 (Z.to_nat n)) |}
      end
  end.



End Manager.
End ProcessManager.

(* ===================================================================== *)
(** * libs/config_loader.py *)
(* ===================================================================== *)

Module ConfigLoader.
Import Py.

(** How a validation ends: it returns, it raises
    [ConfigValidationError], or it fails with another exception. *)
Inductive outcome : Type :=
| Valid
| ConfigValidationError
| Crash (e : exn).

Definition and_then (o : outcome) (k : outcome) : outcome :=
  match o with
  | Valid => k
  | _ => o
  end.

Section Loader.
(** [x <= 0] for a float, given by its literal. *)
Variable float_le_zero : string -> bool.

(** [missing = required - x.keys(); if missing: raise ...] *)
Definition check_required (required : list string) (x : value) : outcome :=
  match x with
  | VDict items =>
      if forallb (fun k => has_key k items) required then Valid
      else ConfigValidationError
  | _ => Crash AttributeError
  end.

Fixpoint for_each (check : value -> outcome) (l : list value) : outcome :=
  match l with
  | [] => Valid
  | x :: rest => and_then (check x) (for_each check rest)
  end.

(** [_validate_structure] *)
Definition _validate_structure (config : value) : outcome :=
  and_then (check_required ["event_hubs"] config)
    (match py_get config "event_hubs" (VList []) with
     | Raise e => Crash e
     | Ok hubs =>
         match CustomProcessor.py_iter hubs with
         | Raise e => Crash e
         | Ok l =>
             for_each
               (check_required
                  ["name"; "connection_str"; "consumer_group"; "partitions"])
               l
         end
     end).

(** [v <= 0] *)
Definition le_zero (v : value) : result bool :=
  match v with
  | VInt z => Ok (z <=? 0)%Z
  | VBool b => Ok (negb b)
  | VFloat literal => Ok (float_le_zero literal)
  | _ => Raise TypeError
  end.

(** The body of the loop of [_validate_values]. *)
Definition check_hub_values (hub : value) : outcome :=
  match py_getitem hub "partitions" with
  | Raise e => Crash e
  | Ok partitions =>
      match le_zero partitions with
      | Raise e => Crash e
      | Ok true => ConfigValidationError
      | Ok false =>
          match py_in "local_checkpoint_dir" hub with
          | Raise e => Crash e
          | Ok false => ConfigValidationError
          | Ok true =>
              match py_getitem hub "local_checkpoint_dir" with
              | Raise e => Crash e
              | Ok dir =>
                  if value_is_str dir then Valid else ConfigValidationError
              end
          end
      end
  end.

(** [_validate_values] *)
Definition _validate_values (config : value) : outcome :=
  match py_getitem config "event_hubs" with
  | Raise e => Crash e
  | Ok (VList hubs) => for_each check_hub_values hubs
  | Ok _ => ConfigValidationError
  end.

(** The two validations of [load], in order. *)
Definition validate (config : value) : outcome :=
  and_then (_validate_structure config) (_validate_values config).

(** A hub that passes: an object with the five fields, a partition count
    that is not [<= 0], and a checkpoint directory that is text. *)
Definition hub_ok (hub : value) : Prop :=
  exists items partitions dir,
    hub = VDict items
    /\ has_key "name" items = true
    /\ has_key "connection_str" items = true
    /\ has_key "consumer_group" items = true
    /\ assoc "partitions" items = Some partitions
    /\ le_zero partitions = Ok false
    /\ assoc "local_checkpoint_dir" items = Some (VStr dir).

End Loader.
End ConfigLoader.

Module DemoManager.
Import Py.

(** A hub with three partitions. *)
Definition hub_config : gmap string value :=
  {[ "name" := VStr "hub"; "partitions" := VInt 3 ]}.


End DemoManager.

(* ===================================================================== *)
(** * The attributes of a rule, as the specification words them *)
(* ===================================================================== *)

Module RuleSpec.
Import Py.

Section Rules.
Variable B : Builtins.

(** What an attribute finds in a record: the value of its pattern, unless
    the evaluation fails or comes to nothing. *)
Definition found (attr : MetadataEngine.Attribute) (record : value)
  : option value :=
  match jmespath_search B (MetadataEngine.pattern attr) record with
  | Ok VNone => None
  | Ok v => Some v
  | Raise _ => None
  end.

(** What a list of attributes has for the key [k]: the value found by the
    last attribute for [k] that finds one. *)
Fixpoint assigned (attrs : list MetadataEngine.Attribute) (record : value)
    (k : string) : option value :=
  match attrs with
  | [] => None
  | attr :: rest =>
      match assigned rest record k with
      | Some v => Some v
      | None =>
          if String.eqb (MetadataEngine.key attr) k then found attr record
          else None
      end
  end.

(** [entry'] is [entry] with the attributes applied: a key for which they
    have a value holds that value, every other key is as it was. *)
Definition applied (attrs : list MetadataEngine.Attribute) (record : value)
    (entry entry' : gmap string value) : Prop :=
  forall k : string,
    entry' !! k = match assigned attrs record k with
                  | Some v => Some v
                  | None => entry !! k
                  end.

End Rules.
End RuleSpec.

Module DemoStore.
Import Py LocalCheckpoint.

(** The store right after [FileCheckpointStore.__init__]: the base
    directory and nothing in it. *)
Definition fresh : FileSystem := {[ ["ckpt"] := Directory ]}.

(** The store with a checkpoint of partition 1. *)
Definition with_partition_1 : FileSystem :=
  <[ ["ckpt"; "partition_1"; "checkpoint.json"]
     := File (Written (VStr "7") (VInt 7)) ]>
  (<[ ["ckpt"; "partition_1"] := Directory ]> fresh).

(** Checkpoints of partition 0. *)
Definition checkpoint_10 : list (string * value) :=
  [("partition_id", VStr "0"); ("offset", VStr "10"); ("sequence_number", VInt 1)].
Definition checkpoint_20 : list (string * value) :=
  [("partition_id", VStr "0"); ("offset", VStr "20"); ("sequence_number", VInt 2)].
Definition checkpoint_without_offset : list (string * value) :=
  [("partition_id", VStr "0"); ("sequence_number", VInt 2)].

(** The store after the checkpoint at offset 10 of partition 0. *)
Definition with_partition_0 : FileSystem :=
  <[ ["ckpt"; "partition_0"; "checkpoint.json"]
     := File (Written (VStr "10") (VInt 1)) ]>
  (<[ ["ckpt"; "partition_0"] := Directory ]> fresh).

End DemoStore.

(* ===================================================================== *)
(** * Properties *)
(* ===================================================================== *)

(** ** Resource attributes (mapping.py) *)

Import Py.

(** C6, the claim as it stands fails: for the identifier "/foo", which
    has a single segment, the entry does not stay as it was: it receives
    the attribute azure.resource.id. *)
Lemma resource_id_ill_formed_still_recorded :
  ResourceIdSpec.spec_well_formed "/foo" = false
  /\ fst (Mapping.extract_resource_id_attributes (VStr "/foo") ∅) ≠ ∅
  /\ fst (Mapping.extract_resource_id_attributes (VStr "/foo") ∅)
       !! Mapping.RESOURCE_ID_ATTRIBUTE = Some (VStr "/foo").
Proof.
  split; [reflexivity|].
  assert (H : fst (Mapping.extract_resource_id_attributes (VStr "/foo") ∅)
              !! Mapping.RESOURCE_ID_ATTRIBUTE = Some (VStr "/foo"))
    by (vm_compute; reflexivity).
  split; [|exact H].
  intros Heq. rewrite Heq in H. rewrite lookup_empty in H. discriminate.
Qed.

(** C6, amended: on every textual identifier the raw identifier is
    recorded under azure.resource.id and no exception leaves the function;
    a well-formed identifier adds subscription = segment 1, resource group
    = segment 3, resource name = last segment and the resource type made of
    the first middle segment and every odd-indexed one after it, joined by
    "/"; any other identifier adds nothing else.  The identifier of a
    virtual-machine extension gives type
    Microsoft.Compute/virtualMachines/extensions and name E. *)
Theorem extract_resource_id_attributes_spec :
  (forall (resource_id : string) (parsed : gmap string value),
     let parts := split "/" (lstrip "/" resource_id) in
     Mapping.extract_resource_id_attributes (VStr resource_id) parsed =
       (if ResourceIdSpec.spec_well_formed resource_id
        then ResourceIdSpec.with_resource_attributes parts
               (<[Mapping.RESOURCE_ID_ATTRIBUTE := VStr resource_id]> parsed)
        else <[Mapping.RESOURCE_ID_ATTRIBUTE := VStr resource_id]> parsed,
        Ok tt))
  /\ (let parsed :=
        fst (Mapping.extract_resource_id_attributes
               (VStr ResourceIdSpec.vm_extension_id) ∅) in
      parsed !! Mapping.RESOURCE_TYPE_ATTRIBUTE
        = Some (VStr "Microsoft.Compute/virtualMachines/extensions")
      /\ parsed !! Mapping.RESOURCE_NAME_ATTRIBUTE = Some (VStr "E")
      /\ parsed !! Mapping.SUBSCRIPTION_ATTRIBUTE = Some (VStr "S")
      /\ parsed !! Mapping.RESOURCE_GROUP_ATTRIBUTE = Some (VStr "G")).
Proof.
  split.
  - intros resource_id parsed parts.
    unfold Mapping.extract_resource_id_attributes, ResourceIdSpec.spec_well_formed,
      try_catch, mbind, lift, setitem, ret, py_lstrip, py_sample.
    fold parts. cbn beta iota.
    destruct (Nat.ltb_spec (length parts) 7) as [Hlt|Hge].
    + replace (7 <=? length parts)%nat with false
        by (symmetry; apply Nat.leb_gt; lia).
      reflexivity.
    + replace (7 <=? length parts)%nat with true
        by (symmetry; apply Nat.leb_le; lia).
      cbn [andb].
      destruct (String.eqb (casefold (parts !!! 0%nat)) "subscriptions");
        cbn [negb andb]; [|reflexivity].
      destruct (String.eqb (casefold (parts !!! 2%nat)) "resourcegroups");
        cbn [negb andb]; [|reflexivity].
      destruct (String.eqb (casefold (parts !!! 4%nat)) "providers");
        cbn [negb andb]; reflexivity.
  - vm_compute. repeat split.
Qed.

(** ** Severity (mapping.py) *)

(** C7, the claim as it stands fails: a level that is a JSON array is not
    numeric, yet it is not kept: the severity becomes Informational. *)
Lemma severity_array_level_not_verbatim :
  let record := VDict [("Level", VList [VStr "x"])] in
  fst (Mapping.extract_severity record ∅) !! "severity"
    = Some (VStr "Informational")
  /\ fst (Mapping.extract_severity record ∅) !! "severity"
    <> Some (VList [VStr "x"]).
Proof.
  assert (H : fst (Mapping.extract_severity (VDict [("Level", VList [VStr "x"])]) ∅)
              !! "severity" = Some (VStr "Informational"))
    by (vm_compute; reflexivity).
  cbv zeta. split; [exact H|]. rewrite H. discriminate.
Qed.

Lemma level_get_table (z : Z) :
  Mapping.level_get z Mapping.log_level_to_severity_dict
    Mapping.DEFAULT_SEVERITY_INFO = SeveritySpec.severity_of_code z.
Proof.
  unfold Mapping.log_level_to_severity_dict, SeveritySpec.severity_of_code.
  cbn [Mapping.level_get].
  rewrite !(Z.eqb_sym _ z).
  destruct (z =? 1)%Z; [reflexivity|].
  destruct (z =? 2)%Z; [reflexivity|].
  destruct (z =? 3)%Z; [reflexivity|].
  destruct (z =? 4)%Z; reflexivity.
Qed.

Lemma map_to_severity_present (items : list (string * value))
    (level : string) (raw : value) (parsed : gmap string value) :
  assoc level items = Some raw ->
  Mapping.map_to_severity (VDict items) level parsed =
    (<["severity" := SeveritySpec.severity_of_level (Some raw)]> parsed, Ok tt).
Proof.
  intros Hraw.
  unfold Mapping.map_to_severity, try_catch, mbind, lift, getstate, setitem,
    py_getitem, SeveritySpec.severity_of_level.
  rewrite Hraw. cbn beta iota.
  destruct (as_int raw) as [z|] eqn:Hint; cbn beta iota.
  - rewrite level_get_table, lookup_insert_eq. reflexivity.
  - rewrite lookup_insert_eq. cbn [default]. unfold id.
    unfold Mapping.check_known_severity.
    destruct (hashable raw); [reflexivity|].
    rewrite insert_insert_eq. reflexivity.
Qed.

(** C7, amended: the severity of a record is decided by the first of Level
    and level that is a key of it.  An integer (a boolean counts as 1 or
    0) goes through the table 1 Critical, 2 Error, 3 Warning,
    4 Informational, any other integer Informational.  A value that is not
    an integer is kept as it is when it is a string, a float or null; an
    array or an object gives Informational.  Without a level field the
    severity is Informational.  Nothing else in the entry changes and no
    exception leaves the function. *)
Theorem extract_severity_spec (items : list (string * value))
    (parsed : gmap string value) :
  Mapping.extract_severity (VDict items) parsed =
    (<["severity" :=
         SeveritySpec.severity_of_level (SeveritySpec.level_field items)]> parsed,
     Ok tt).
Proof.
  unfold Mapping.extract_severity, try_catch, mbind, lift,
    SeveritySpec.level_field.
  cbn [Mapping.first_level_property Mapping.azure_level_properties in_keys
       bind has_key].
  unfold has_key.
  destruct (assoc "Level" items) as [raw|] eqn:HL; cbn beta iota.
  - rewrite (map_to_severity_present items "Level" raw parsed HL). reflexivity.
  - destruct (assoc "level" items) as [raw|] eqn:Hl; cbn beta iota.
    + rewrite (map_to_severity_present items "level" raw parsed Hl). reflexivity.
    + reflexivity.
Qed.

(** ** Field-length policy (custom_processor.py) *)

Lemma length_append (a b : string) :
  String.length (String.append a b) = (String.length a + String.length b)%nat.
Proof. induction a as [|c a IH]; simpl; [reflexivity | f_equal; exact IH]. Qed.

Lemma length_str_take (n : nat) (s : string) :
  String.length (str_take n s) = Nat.min n (String.length s).
Proof.
  revert s. induction n as [|n IH]; intros [|c s]; simpl; try reflexivity.
  f_equal. apply IH.
Qed.

Lemma prefix_str_take (n : nat) (s : string) :
  String.prefix (str_take n s) s = true.
Proof.
  revert s. induction n as [|n IH]; intros [|c s]; simpl; try reflexivity.
  destruct (ascii_dec c c); [apply IH | congruence].
Qed.

(** The shared shape of [_truncate_content] and [_truncate_generic_field]. *)
Lemma truncate_shape (limit : Z) (mark s : string) :
  (CustomProcessor.str_len mark <= limit)%Z ->
  FieldLimitSpec.truncated_to limit mark s
    (if (CustomProcessor.str_len s >? limit)%Z
     then String.append (slice_to (limit - CustomProcessor.str_len mark) s) mark
     else s).
Proof.
  intros Hmark. unfold FieldLimitSpec.truncated_to, CustomProcessor.str_len in *.
  destruct (Z.gtb_spec (Z.of_nat (String.length s)) limit) as [Hgt|Hle].
  - assert (Hlen : Z.of_nat (String.length
               (String.append (slice_to (limit - Z.of_nat (String.length mark)) s) mark))
             = limit).
    { rewrite length_append. unfold slice_to.
      destruct (Z.leb_spec 0 (limit - Z.of_nat (String.length mark))) as [_|Hneg];
        [|lia].
      rewrite length_str_take. lia. }
    split; [lia|]. split; [|lia].
    intros _. split; [|exact Hlen].
    exists (slice_to (limit - Z.of_nat (String.length mark)) s).
    split; [reflexivity|]. unfold slice_to.
    destruct (0 <=? limit - Z.of_nat (String.length mark))%Z;
      apply prefix_str_take.
  - split; [reflexivity|]. split; [lia|lia].
Qed.

(** The same shape under a limit that is shorter than the marker. *)
Lemma truncate_overrun (limit : Z) (mark s : string) :
  (limit < CustomProcessor.str_len mark)%Z ->
  FieldLimitSpec.overrun_to limit mark s
    (if (CustomProcessor.str_len s >? limit)%Z
     then String.append (slice_to (limit - CustomProcessor.str_len mark) s) mark
     else s).
Proof.
  intros Hmark. unfold FieldLimitSpec.overrun_to, CustomProcessor.str_len in *.
  destruct (Z.gtb_spec (Z.of_nat (String.length s)) limit) as [Hgt|Hle].
  - split; [lia|]. intros _.
    assert (Hkept : Z.of_nat (String.length
               (slice_to (limit - Z.of_nat (String.length mark)) s))
             = Z.max 0 (Z.of_nat (String.length s)
                        - (Z.of_nat (String.length mark) - limit))).
    { unfold slice_to.
      destruct (Z.leb_spec 0 (limit - Z.of_nat (String.length mark))) as [?|_];
        [lia|].
      rewrite length_str_take. lia. }
    split.
    + exists (slice_to (limit - Z.of_nat (String.length mark)) s).
      split; [reflexivity|]. split; [|exact Hkept].
      unfold slice_to.
      destruct (0 <=? limit - Z.of_nat (String.length mark))%Z;
        apply prefix_str_take.
    + rewrite length_append, Nat2Z.inj_add, Hkept. lia.
  - split; [reflexivity|]. lia.
Qed.

Lemma truncate_limited (limit : Z) (mark s : string) :
  FieldLimitSpec.limited_to limit mark s
    (if (CustomProcessor.str_len s >? limit)%Z
     then String.append (slice_to (limit - CustomProcessor.str_len mark) s) mark
     else s).
Proof.
  split; [apply truncate_shape | apply truncate_overrun].
Qed.

(** C8, the claim as it stands fails: under an attribute limit of 2 and the
    marker "..." the value "abcdef" comes out as "abcde...", eight
    characters long: the slice bound 2 - 3 is negative and cuts one
    character from the end. *)
Lemma field_limit_shorter_than_marker :
  let config := {| CustomProcessor.attribute_limit := 2;
                   CustomProcessor.content_limit := 2;
                   CustomProcessor.truncated_mark := "..." |} in
  let record : gmap string value := {[ "name" := VStr "abcdef" ]} in
  CustomProcessor._apply_field_limits (Demo.builtins VNone) config record
    !! "name" = Some "abcde..."
  /\ (CustomProcessor.str_len "abcde..."
      > CustomProcessor.attribute_limit config)%Z.
Proof.
  cbv zeta. split; [vm_compute; reflexivity | vm_compute; reflexivity].
Qed.

(** C8, amended: after [_apply_field_limits] the entry has the same keys
    and all its values are strings; "severity" and "timestamp" are their
    text, uncut; "content" is held to the content limit and any other value
    to the attribute limit, in this way: a text within the limit is
    unchanged; a longer one, when the marker is no longer than the limit,
    is cut to the limit, marker included, so that it does not exceed the
    limit; when the marker is longer than the limit, a longer text loses
    only as many of its last characters as the marker is longer than the
    limit, gets the marker and ends up longer than the limit. *)
Theorem apply_field_limits_spec (B : Builtins) (config : CustomProcessor.Config)
    (record : gmap string value) (key : string) :
  match record !! key with
  | None => CustomProcessor._apply_field_limits B config record !! key = None
  | Some v =>
      exists out : string,
        CustomProcessor._apply_field_limits B config record !! key = Some out
        /\ (key = "content" ->
            FieldLimitSpec.limited_to (CustomProcessor.content_limit config)
              (CustomProcessor.truncated_mark config)
              (FieldLimitSpec.content_text B v) out)
        /\ (key = "severity" \/ key = "timestamp" -> out = str_of B v)
        /\ (key <> "content" -> key <> "severity" -> key <> "timestamp" ->
            FieldLimitSpec.limited_to (CustomProcessor.attribute_limit config)
              (CustomProcessor.truncated_mark config) (str_of B v) out)
  end.
Proof.
  unfold CustomProcessor._apply_field_limits.
  rewrite map_lookup_imap.
  destruct (record !! key) as [v|]; cbn; [|reflexivity].
  eexists. split; [reflexivity|].
  unfold CustomProcessor._truncate_value.
  destruct (String.eqb_spec key "content") as [->|Hk1].
  { split; [|split].
    - intros _. apply truncate_limited.
    - intros [H|H]; discriminate H.
    - intros H; congruence. }
  destruct (String.eqb_spec key "severity") as [->|Hk2].
  { split; [|split].
    - intros H; discriminate H.
    - intros _. reflexivity.
    - intros _ H; congruence. }
  destruct (String.eqb_spec key "timestamp") as [->|Hk3].
  { split; [|split].
    - intros H; discriminate H.
    - intros _. reflexivity.
    - intros _ _ H; congruence. }
  cbn [orb]. split; [|split].
  - intros H; congruence.
  - intros [H|H]; congruence.
  - intros _ _ _. apply truncate_limited.
Qed.

(** A content of ten characters under a limit of eight with a marker of
    three: five characters are kept. *)
Lemma apply_field_limits_spec_witness :
  let config := {| CustomProcessor.attribute_limit := 5;
                   CustomProcessor.content_limit := 8;
                   CustomProcessor.truncated_mark := "..." |} in
  let record : gmap string value :=
    {[ "content" := VStr "0123456789" ]} in
  exists out : string,
    CustomProcessor._apply_field_limits (Demo.builtins VNone) config record
      !! "content" = Some out
    /\ FieldLimitSpec.truncated_to 8 "..." "0123456789" out.
Proof.
  cbv zeta.
  pose proof (apply_field_limits_spec (Demo.builtins VNone)
    {| CustomProcessor.attribute_limit := 5;
       CustomProcessor.content_limit := 8;
       CustomProcessor.truncated_mark := "..." |}
    {[ "content" := VStr "0123456789" ]} "content") as H.
  rewrite lookup_singleton_eq in H.
  destruct H as (out & Hout & Hcontent & _).
  exists out. split; [exact Hout|].
  apply (proj1 (Hcontent eq_refl)). vm_compute. discriminate.
Defined.

(** ** Rule engine (metadata_engine.py) *)

Section RuleEngine.
Import MetadataEngine.
Variable B : Builtins.

Lemma apply_attribute_ok (attr : Attribute) (raw_record : value)
    (parsed : gmap string value) :
  snd (apply_attribute B attr raw_record parsed) = Ok tt.
Proof.
  unfold apply_attribute, try_catch, mbind, lift, setitem, ret.
  destruct (jmespath_search B (pattern attr) raw_record) as [v|e];
    [destruct v|]; reflexivity.
Qed.

Lemma apply_attributes_ok (attrs : list Attribute) (raw_record : value)
    (parsed : gmap string value) :
  snd (apply_attributes B attrs raw_record parsed) = Ok tt.
Proof.
  revert parsed. induction attrs as [|attr attrs IH]; intros parsed.
  - reflexivity.
  - cbn [apply_attributes]. unfold mbind.
    pose proof (apply_attribute_ok attr raw_record parsed) as Hattr.
    destruct (apply_attribute B attr raw_record parsed) as [parsed' r].
    cbn in Hattr. subst r. apply IH.
Qed.

Lemma apply_rule_ok (rule : ConfigRule) (raw_record : value)
    (parsed : gmap string value) :
  exists parsed', _apply_rule B rule raw_record parsed = (parsed', Ok tt).
Proof.
  unfold _apply_rule.
  pose proof (apply_attributes_ok (attributes rule) raw_record parsed) as H.
  destruct (apply_attributes B (attributes rule) raw_record parsed) as [p r].
  cbn in H. subst r. eauto.
Qed.

Lemma apply_first_skip (pre rest : list ConfigRule) (record : value)
    (parsed : gmap string value) :
  Forall (fun r => _is_rule_applicable B r record parsed = false) pre ->
  apply_first B (pre ++ rest) record parsed = apply_first B rest record parsed.
Proof.
  induction 1 as [|r pre Hr _ IH]; [reflexivity|].
  cbn [app apply_first]. unfold mbind at 1, getstate at 1.
  rewrite Hr. exact IH.
Qed.

Lemma apply_first_hit (rule : ConfigRule) (post : list ConfigRule)
    (record : value) (parsed : gmap string value) :
  _is_rule_applicable B rule record parsed = true ->
  apply_first B (rule :: post) record parsed =
    (fst (_apply_rule B rule record parsed), Ok true).
Proof.
  intros Hr. cbn [apply_first]. unfold mbind, getstate, ret. rewrite Hr.
  destruct (apply_rule_ok rule record parsed) as [parsed' ->]. reflexivity.
Qed.

End RuleEngine.

Lemma metadata_apply_returns (B : Builtins) (eng : MetadataEngine.Engine)
    (record : value) (parsed : gmap string value) :
  exists parsed', MetadataEngine.apply B eng record parsed = (parsed', Ok tt).
Proof.
  unfold MetadataEngine.apply, try_catch, mbind.
  destruct (MetadataEngine.apply_first B (MetadataEngine.rules eng) record parsed)
    as [parsed1 [returned|e]]; [|eauto].
  destruct returned; [eauto|].
  destruct (MetadataEngine.default_rule eng) as [rule|]; [|eauto].
  destruct (apply_rule_ok B rule record parsed1) as [p ->]. eauto.
Qed.

Section RuleAttributes.
Import MetadataEngine.
Variable B : Builtins.

(** One attribute: the key receives what the attribute finds. *)
Lemma apply_attribute_found (attr : Attribute) (record : value)
    (parsed : gmap string value) :
  apply_attribute B attr record parsed
  = (match RuleSpec.found B attr record with
     | Some v => <[key attr := v]> parsed
     | None => parsed
     end, Ok tt).
Proof.
  unfold apply_attribute, RuleSpec.found, try_catch, mbind, lift, setitem, ret.
  destruct (jmespath_search B (pattern attr) record) as [v|e];
    [destruct v|]; reflexivity.
Qed.

(** The loop of [_apply_rule], key by key. *)
Lemma apply_attributes_applied (attrs : list Attribute) (record : value)
    (parsed : gmap string value) :
  exists parsed',
    apply_attributes B attrs record parsed = (parsed', Ok tt)
    /\ RuleSpec.applied B attrs record parsed parsed'.
Proof.
  revert parsed. induction attrs as [|attr rest IH]; intros parsed.
  - exists parsed. split; [reflexivity|]. intros k. reflexivity.
  - cbn [apply_attributes]. unfold mbind.
    rewrite apply_attribute_found.
    destruct (IH (match RuleSpec.found B attr record with
                  | Some v => <[key attr := v]> parsed
                  | None => parsed
                  end)) as (parsed' & Heq & Happlied).
    exists parsed'. split; [exact Heq|].
    intros k. rewrite (Happlied k). cbn [RuleSpec.assigned].
    destruct (RuleSpec.assigned B rest record k) as [v|]; [reflexivity|].
    destruct (String.eqb_spec (key attr) k) as [->|Hne].
    + destruct (RuleSpec.found B attr record) as [v|]; [|reflexivity].
      apply lookup_insert_eq.
    + destruct (RuleSpec.found B attr record) as [v|]; [|reflexivity].
      apply lookup_insert_ne. exact Hne.
Qed.

End RuleAttributes.

(** C9: [apply] never raises; a rule is applicable exactly when every one
    of its source matchers matches; the first applicable rule in load order
    is the one that is applied, whatever rules follow it and whatever the
    default rule is; when no rule is applicable the default rule is applied
    if there is one and the entry is left as it was if there is none.  A
    rule that is applied leaves in the entry, for every key of its
    attributes, the value that the last attribute for that key finds in the
    record, and leaves every other key as it was. *)
Theorem metadata_engine_apply_spec (B : Builtins) (record : value)
    (parsed : gmap string value) :
  (forall eng, snd (MetadataEngine.apply B eng record parsed) = Ok tt)
  /\ (forall rule,
        MetadataEngine._is_rule_applicable B rule record parsed = true
        <-> Forall (fun m => MetadataEngine.matcher_match B m record parsed = true)
                   (MetadataEngine.source_matchers rule))
  /\ (forall pre rule post dflt,
        Forall (fun r => MetadataEngine._is_rule_applicable B r record parsed = false) pre ->
        MetadataEngine._is_rule_applicable B rule record parsed = true ->
        exists parsed',
          MetadataEngine.apply B
            {| MetadataEngine.rules := pre ++ rule :: post;
               MetadataEngine.default_rule := dflt |} record parsed
          = (parsed', Ok tt)
          /\ RuleSpec.applied B (MetadataEngine.attributes rule) record
               parsed parsed')
  /\ (forall rs dflt,
        Forall (fun r => MetadataEngine._is_rule_applicable B r record parsed = false) rs ->
        exists parsed',
          MetadataEngine.apply B
            {| MetadataEngine.rules := rs;
               MetadataEngine.default_rule := Some dflt |} record parsed
          = (parsed', Ok tt)
          /\ RuleSpec.applied B (MetadataEngine.attributes dflt) record
               parsed parsed')
  /\ (forall rs,
        Forall (fun r => MetadataEngine._is_rule_applicable B r record parsed = false) rs ->
        MetadataEngine.apply B
          {| MetadataEngine.rules := rs;
             MetadataEngine.default_rule := None |} record parsed
        = (parsed, Ok tt)).
Proof.
  assert (Hnone : forall rs,
    Forall (fun r => MetadataEngine._is_rule_applicable B r record parsed = false) rs ->
    MetadataEngine.apply_first B rs record parsed = (parsed, Ok false)).
  { intros rs Hrs.
    rewrite <- (app_nil_r rs), (apply_first_skip B rs [] record parsed Hrs).
    reflexivity. }
  split; [|split; [|split; [|split]]].
  - intros eng.
    destruct (metadata_apply_returns B eng record parsed) as [p ->]. reflexivity.
  - intros rule. unfold MetadataEngine._is_rule_applicable.
    rewrite forallb_forall, List.Forall_forall. reflexivity.
  - intros pre rule post dflt Hpre Hrule.
    destruct (apply_attributes_applied B (MetadataEngine.attributes rule)
                record parsed) as (parsed' & Heq & Happlied).
    exists parsed'. split; [|exact Happlied].
    unfold MetadataEngine.apply, try_catch, mbind. cbn [MetadataEngine.rules].
    rewrite (apply_first_skip B pre _ record parsed Hpre),
      (apply_first_hit B rule post record parsed Hrule).
    unfold MetadataEngine._apply_rule. rewrite Heq. reflexivity.
  - intros rs dflt Hrs.
    destruct (apply_attributes_applied B (MetadataEngine.attributes dflt)
                record parsed) as (parsed' & Heq & Happlied).
    exists parsed'. split; [|exact Happlied].
    unfold MetadataEngine.apply, try_catch, mbind.
    cbn [MetadataEngine.rules MetadataEngine.default_rule].
    rewrite (Hnone rs Hrs).
    unfold MetadataEngine._apply_rule. rewrite Heq. reflexivity.
  - intros rs Hrs.
    unfold MetadataEngine.apply, try_catch, mbind.
    cbn [MetadataEngine.rules MetadataEngine.default_rule].
    rewrite (Hnone rs Hrs). reflexivity.
Qed.

(** A record of category Administrative and three rules of which the
    second and the third are applicable: the second is applied, and the
    entry holds its attribute and nothing else. *)
Lemma metadata_engine_apply_spec_witness :
  MetadataEngine.apply Demo.echo_builtins
    {| MetadataEngine.rules := [Demo.rule_storage; Demo.rule_admin; Demo.rule_any];
       MetadataEngine.default_rule := Some Demo.rule_default |}
    Demo.admin_record ∅
  = ({[ "entity" := VStr "admin" ]}, Ok tt)
  /\ MetadataEngine._is_rule_applicable Demo.echo_builtins Demo.rule_any
       Demo.admin_record ∅ = true.
Proof.
  split; [|vm_compute; reflexivity].
  destruct (proj1 (proj2 (proj2
              (metadata_engine_apply_spec Demo.echo_builtins Demo.admin_record ∅)))
            [Demo.rule_storage] Demo.rule_admin [Demo.rule_any]
            (Some Demo.rule_default))
    as (parsed' & Heq & Happlied).
  - constructor; [vm_compute; reflexivity | constructor].
  - vm_compute; reflexivity.
  - cbn [app] in Heq. rewrite Heq. f_equal. apply map_eq. intros k.
    rewrite (Happlied k).
    cbn [RuleSpec.assigned Demo.rule_admin MetadataEngine.attributes
         MetadataEngine.key].
    destruct (String.eqb_spec "entity" k) as [<-|Hne].
    + rewrite lookup_singleton_eq. reflexivity.
    + rewrite lookup_singleton_ne by exact Hne. apply lookup_empty.
Defined.

(** ** Batches (logs_sender.py) *)

Section Batcher.
Import LogSender BatcherSpec.
Variable Entry : Type.
Variable entry_size : Entry -> Z.
Variable config : Config.

Local Abbreviation prepare := (prepare_from Entry entry_size config).
Local Abbreviation total := (total_size Entry entry_size).
Local Abbreviation max_size := (max_request_size config).
Local Abbreviation max_events := (max_events_per_request config).

Lemma total_size_snoc (l : list Entry) (e : Entry) :
  total (l ++ [e]) = (total l + entry_size e)%Z.
Proof.
  induction l as [|a l IH]; cbn [app total_size fold_right].
  - lia.
  - fold (total (l ++ [e])). fold (total l). rewrite IH. lia.
Qed.

(** The entries of the batches, in order, are the pending entries followed
    by the entries of the input that fit. *)
Lemma prepare_from_concat (logs cur : list Entry) (sz : Z) :
  concat (map serialized_batch (prepare logs cur sz))
  = cur ++ List.filter (fits Entry entry_size config) logs.
Proof.
  revert cur sz. induction logs as [|log rest IH]; intros cur sz.
  - cbn [prepare_from List.filter]. rewrite app_nil_r.
    destruct cur; cbn; [reflexivity | rewrite app_nil_r; reflexivity].
  - cbn [prepare_from List.filter]. unfold fits at 1.
    destruct (entry_size log >? max_size)%Z; cbn [negb].
    + apply IH.
    + destruct ((Z.of_nat (length cur) >=? max_events)%Z
                || (sz + entry_size log >? max_size)%Z).
      * cbn [map concat serialized_batch _create_batch]. rewrite IH. reflexivity.
      * rewrite IH, <- app_assoc. reflexivity.
Qed.

(** With pending entries, a batch is emitted, and the first one starts with
    them. *)
Lemma prepare_from_head (logs cur : list Entry) (sz : Z) :
  cur <> [] ->
  exists suffix tl,
    prepare logs cur sz = _create_batch Entry (cur ++ suffix) :: tl.
Proof.
  revert cur sz. induction logs as [|log rest IH]; intros cur sz Hcur.
  - cbn [prepare_from]. destruct cur as [|c cur]; [congruence|].
    exists [], []. rewrite app_nil_r. reflexivity.
  - cbn [prepare_from].
    destruct (entry_size log >? max_size)%Z; [apply IH; exact Hcur|].
    destruct ((Z.of_nat (length cur) >=? max_events)%Z
              || (sz + entry_size log >? max_size)%Z).
    + exists [], (prepare rest [log] (entry_size log)).
      rewrite app_nil_r. reflexivity.
    + destruct (IH (cur ++ [log]) (sz + entry_size log)%Z) as (suffix & tl & Heq).
      { destruct cur; discriminate. }
      exists (log :: suffix), tl. rewrite Heq, <- app_assoc. reflexivity.
Qed.

Lemma prepare_from_within_limits (logs cur : list Entry) (sz : Z) :
  (1 <= max_events)%Z ->
  pending_ok Entry entry_size config cur sz ->
  Forall (within_limits Entry entry_size config) (prepare logs cur sz).
Proof.
  intros Hevents. revert cur sz.
  induction logs as [|log rest IH]; intros cur sz (Hsz & Hlen & Htot).
  - cbn [prepare_from]. destruct cur as [|c cur]; constructor; [|constructor].
    unfold within_limits. cbn [serialized_batch number_of_logs _create_batch].
    repeat split; [discriminate | exact Hlen | apply Htot; discriminate].
  - cbn [prepare_from].
    destruct (Z.gtb_spec (entry_size log) max_size) as [Hbig|Hfit].
    { apply IH. repeat split; assumption. }
    destruct (Z.geb_spec (Z.of_nat (length cur)) max_events) as [Hfull|Hroom];
      cbn [orb].
    + constructor.
      * unfold within_limits. cbn [serialized_batch number_of_logs _create_batch].
        assert (cur <> []) by (destruct cur; [cbn in Hfull; lia | discriminate]).
        repeat split; [assumption | exact Hlen | apply Htot; assumption].
      * apply IH. repeat split; cbn [total_size fold_right length]; lia.
    + destruct (Z.gtb_spec (sz + entry_size log) max_size) as [Hover|Hunder].
      * constructor.
        -- unfold within_limits. cbn [serialized_batch number_of_logs _create_batch].
           assert (cur <> []).
           { intros ->. cbn [total_size fold_right] in Hsz. lia. }
           repeat split; [assumption | exact Hlen | apply Htot; assumption].
        -- apply IH. repeat split; cbn [total_size fold_right length]; lia.
      * apply IH. repeat split.
        -- rewrite total_size_snoc. lia.
        -- rewrite length_app. cbn [length]. lia.
        -- intros _. rewrite total_size_snoc. lia.
Qed.

Lemma prepare_from_closed_when_full (logs cur : list Entry) (sz : Z) :
  sz = total cur ->
  closed_when_full Entry entry_size config (prepare logs cur sz).
Proof.
  revert cur sz. induction logs as [|log rest IH]; intros cur sz Hsz.
  - cbn [prepare_from]. destruct cur; cbn; auto.
  - cbn [prepare_from].
    destruct (entry_size log >? max_size)%Z; [apply IH; exact Hsz|].
    destruct (Z.geb_spec (Z.of_nat (length cur)) max_events) as [Hfull|Hroom];
      cbn [orb].
    + destruct (prepare_from_head rest [log] (entry_size log)) as (suffix & tl & Heq);
        [discriminate|].
      specialize (IH [log] (entry_size log)). rewrite Heq in IH |- *.
      cbn [closed_when_full serialized_batch _create_batch app].
      split; [left; lia|]. apply IH. cbn [total_size fold_right]. lia.
    + destruct (Z.gtb_spec (sz + entry_size log) max_size) as [Hover|Hunder].
      * destruct (prepare_from_head rest [log] (entry_size log)) as (suffix & tl & Heq);
          [discriminate|].
        specialize (IH [log] (entry_size log)). rewrite Heq in IH |- *.
        cbn [closed_when_full serialized_batch _create_batch app].
        split; [right; lia|]. apply IH. cbn [total_size fold_right]. lia.
      * apply IH. rewrite total_size_snoc. lia.
Qed.

(** With a count limit of zero or less the pending batch is closed before
    every entry that fits. *)
Lemma prepare_from_zero_count_limit (logs cur : list Entry) (sz : Z) :
  (max_events_per_request config <= 0)%Z ->
  map serialized_batch (prepare_from Entry entry_size config logs cur sz)
  = match List.filter (fits Entry entry_size config) logs with
    | [] => match cur with [] => [] | _ :: _ => [cur] end
    | kept => cur :: map (fun e => [e]) kept
    end.
Proof.
  intros Hzero. revert cur sz.
  induction logs as [|log rest IH]; intros cur sz.
  - cbn [prepare_from List.filter]. destruct cur; reflexivity.
  - cbn [prepare_from List.filter]. unfold fits at 1.
    destruct (entry_size log >? max_request_size config)%Z; cbn [negb].
    + apply IH.
    + replace (Z.of_nat (length cur) >=? max_events_per_request config)%Z
        with true by (symmetry; apply Z.geb_le; lia).
      cbn [orb map serialized_batch _create_batch]. rewrite IH.
      destruct (List.filter (fits Entry entry_size config) rest); reflexivity.
Qed.

(** Entries of one size [s] under a byte limit of 2.5 [s], or of its
    integer part when 2.5 [s] is not a whole number. *)
Section EqualSizes.
Variable s : Z.
Hypothesis s_pos : (0 < s)%Z.
Hypothesis max_size_is : (2 * max_size <= 5 * s < 2 * max_size + 2)%Z.
Hypothesis max_events_is : max_events = 100%Z.

Lemma prepare_from_pair (logs : list Entry) (a b : Entry) :
  Forall (fun e => entry_size e = s) logs ->
  prepare logs [a; b] (2 * s)
  = _create_batch Entry [a; b] :: prepare logs [] 0.
Proof.
  intros Hs. destruct logs as [|c rest]; [reflexivity|].
  destruct (Forall_cons_1 _ _ _ Hs) as [Hc Hrest].
  cbn [prepare_from length app]. rewrite Hc, max_events_is.
  destruct (Z.gtb_spec s max_size) as [?|_]; [lia|].
  destruct (Z.geb_spec (Z.of_nat 2) 100) as [?|_]; [lia|].
  destruct (Z.geb_spec (Z.of_nat 0) 100) as [?|_]; [lia|].
  destruct (Z.gtb_spec (2 * s + s) max_size) as [_|?]; [|lia].
  destruct (Z.gtb_spec (0 + s) max_size) as [?|_]; [lia|].
  cbn [orb]. reflexivity.
Qed.

Lemma prepare_batches_pairs_upto (n : nat) (logs : list Entry) :
  (length logs <= n)%nat ->
  Forall (fun e => entry_size e = s) logs ->
  map serialized_batch (prepare logs [] 0) = pairs Entry logs.
Proof.
  revert logs. induction n as [|n IH]; intros logs Hn Hs.
  - destruct logs; [reflexivity | cbn in Hn; lia].
  - destruct logs as [|a [|b rest]]; [reflexivity| |].
    + destruct (Forall_cons_1 _ _ _ Hs) as [Ha _].
      cbn [prepare_from length app]. rewrite Ha, max_events_is.
      destruct (Z.gtb_spec s max_size) as [?|_]; [lia|].
      destruct (Z.geb_spec (Z.of_nat 0) 100) as [?|_]; [lia|].
      destruct (Z.gtb_spec (0 + s) max_size) as [?|_]; [lia|].
      reflexivity.
    + destruct (Forall_cons_1 _ _ _ Hs) as [Ha Hs'].
      destruct (Forall_cons_1 _ _ _ Hs') as [Hb Hrest].
      cbn [prepare_from length app pairs]. rewrite Ha, Hb, max_events_is.
      destruct (Z.gtb_spec s max_size) as [?|_]; [lia|].
      destruct (Z.geb_spec (Z.of_nat 0) 100) as [?|_]; [lia|].
      destruct (Z.gtb_spec (0 + s) max_size) as [?|_]; [lia|].
      destruct (Z.geb_spec (Z.of_nat 1) 100) as [?|_]; [lia|].
      destruct (Z.gtb_spec (0 + s + s) max_size) as [?|_]; [lia|].
      cbn [orb].
      replace (0 + s + s)%Z with (2 * s)%Z by lia.
      rewrite (prepare_from_pair rest a b Hrest).
      cbn [map serialized_batch _create_batch]. f_equal.
      apply IH; [cbn in Hn; lia | exact Hrest].
Qed.

End EqualSizes.
End Batcher.

(** C5, the claim as it stands fails: under a count limit of zero the
    entries 2 and 3 leave in the batches [], [2] and [3]: an empty batch is
    emitted, and the two others hold one entry, which is past the count
    limit. *)
Lemma prepare_batches_count_limit_not_kept :
  let config := {| LogSender.max_request_size := 5;
                   LogSender.max_events_per_request := 0;
                   LogSender.max_retries := 3;
                   LogSender.concurrency := 4 |} in
  let batches := LogSender._prepare_batches Z (fun z => z) config [2; 3]%Z in
  map LogSender.serialized_batch batches = [[]; [2]; [3]]%Z
  /\ ~ Forall (BatcherSpec.within_limits Z (fun z => z) config) batches.
Proof.
  cbv zeta. split; [reflexivity|].
  intros H. apply Forall_cons_1 in H as [(Hne & _) _].
  apply Hne. reflexivity.
Qed.

(** C5, amended: whatever the two limits, the batches hold, in input order
    and once each, exactly the entries whose own size is within the byte
    limit (an entry above it is in no batch), and a batch is closed only
    when the next entry finds it at the count limit or would push its byte
    total past the byte limit, the last one when the input ends.  With a
    count limit of at least one every batch is non-empty and within both
    limits, its byte total being the sum of the sizes of its entries.  With
    a count limit of zero or less an empty batch comes first and every
    entry that fits follows in a batch of its own.  Entries of one size s,
    under a byte limit of 2.5 s (its integer part when that is not a whole
    number) and a count limit of 100, leave two by two, a last one alone
    when their number is odd. *)
Theorem prepare_batches_spec (Entry : Type) (entry_size : Entry -> Z)
    (config : LogSender.Config) (logs : list Entry) :
  let batches := LogSender._prepare_batches Entry entry_size config logs in
  let kept := List.filter (BatcherSpec.fits Entry entry_size config) logs in
  concat (map LogSender.serialized_batch batches) = kept
  /\ BatcherSpec.closed_when_full Entry entry_size config batches
  /\ ((1 <= LogSender.max_events_per_request config)%Z ->
      Forall (BatcherSpec.within_limits Entry entry_size config) batches)
  /\ ((LogSender.max_events_per_request config <= 0)%Z ->
      map LogSender.serialized_batch batches
      = match kept with
        | [] => []
        | _ :: _ => [] :: map (fun e => [e]) kept
        end)
  /\ (forall s : Z,
        (0 < s)%Z ->
        (2 * LogSender.max_request_size config <= 5 * s
         < 2 * LogSender.max_request_size config + 2)%Z ->
        LogSender.max_events_per_request config = 100%Z ->
        Forall (fun e => entry_size e = s) logs ->
        map LogSender.serialized_batch batches = BatcherSpec.pairs Entry logs).
Proof.
  cbv zeta. unfold LogSender._prepare_batches.
  split; [|split; [|split; [|split]]].
  - apply (prepare_from_concat Entry entry_size config logs [] 0%Z).
  - apply prepare_from_closed_when_full. reflexivity.
  - intros Hevents. apply prepare_from_within_limits; [exact Hevents|].
    repeat split; cbn; [lia | congruence].
  - intros Hzero.
    rewrite (prepare_from_zero_count_limit Entry entry_size config logs [] 0%Z
               Hzero).
    destruct (List.filter (BatcherSpec.fits Entry entry_size config) logs);
      reflexivity.
  - intros s Hs Hmax Hcount Hall.
    apply (prepare_batches_pairs_upto Entry entry_size config s Hs Hmax Hcount
             (length logs) logs (Nat.le_refl _) Hall).
Qed.

(** Five entries of three bytes under a limit of seven bytes, the integer
    part of 7.5, and a hundred entries: two batches of two and one of
    one, each within the limits. *)
Lemma prepare_batches_spec_witness :
  let config := {| LogSender.max_request_size := 7;
                   LogSender.max_events_per_request := 100;
                   LogSender.max_retries := 3;
                   LogSender.concurrency := 4 |} in
  let batches :=
    LogSender._prepare_batches Z (fun z => z) config [3; 3; 3; 3; 3]%Z in
  map LogSender.serialized_batch batches = [[3; 3]; [3; 3]; [3]]%Z
  /\ Forall (BatcherSpec.within_limits Z (fun z => z) config) batches.
Proof.
  cbv zeta.
  pose proof (prepare_batches_spec Z (fun z => z)
                {| LogSender.max_request_size := 7;
                   LogSender.max_events_per_request := 100;
                   LogSender.max_retries := 3;
                   LogSender.concurrency := 4 |}
                [3; 3; 3; 3; 3]%Z) as (_ & _ & Hlimits & _ & Hpairs).
  split.
  - apply (Hpairs 3%Z); [lia | cbn; lia | reflexivity | repeat constructor].
  - apply Hlimits. cbn. lia.
Defined.

(** ** Delivery (logs_sender.py) *)

Lemma prepare_from_all_oversized (Entry : Type) (entry_size : Entry -> Z)
    (config : LogSender.Config) (logs : list Entry) :
  Forall (fun e => (entry_size e > LogSender.max_request_size config)%Z) logs ->
  LogSender.prepare_from Entry entry_size config logs [] 0%Z = [].
Proof.
  induction 1 as [|e logs He _ IH]; [reflexivity|].
  cbn [LogSender.prepare_from].
  destruct (Z.gtb_spec (entry_size e) (LogSender.max_request_size config));
    [exact IH | lia].
Qed.

(** C10: when every entry of the list is above the byte limit on its own
    (an empty list included) there is no batch, no request is issued and
    [send] returns true. *)
Theorem send_without_batches (Entry : Type) (entry_size : Entry -> Z)
    (config : LogSender.Config) (network : nat -> Z -> LogSender.post_outcome)
    (logs : list Entry) :
  Forall (fun e => (entry_size e > LogSender.max_request_size config)%Z) logs ->
  LogSender._prepare_batches Entry entry_size config logs = []
  /\ LogSender.send Entry entry_size config network logs
     = ([], Completes true).
Proof.
  intros Hall. unfold LogSender.send, LogSender._prepare_batches.
  rewrite (prepare_from_all_oversized Entry entry_size config logs Hall).
  split; reflexivity.
Qed.

(** Two entries of nine and seven bytes under a limit of five. *)
Lemma send_without_batches_witness :
  let config := {| LogSender.max_request_size := 5;
                   LogSender.max_events_per_request := 100;
                   LogSender.max_retries := 3;
                   LogSender.concurrency := 4 |} in
  LogSender.send Z (fun z => z) config
    (fun _ _ => LogSender.Response 500 (Ok "")) [9; 7]%Z
  = ([], Completes true).
Proof.
  cbv zeta.
  apply (proj2 (send_without_batches Z (fun z => z)
                  {| LogSender.max_request_size := 5;
                     LogSender.max_events_per_request := 100;
                     LogSender.max_retries := 3;
                     LogSender.concurrency := 4 |}
                  (fun _ _ => LogSender.Response 500 (Ok "")) [9; 7]%Z
                  ltac:(repeat constructor))).
Defined.

Section DeliveryTraces.
Import LogSender TraceSpec.
Variable Entry : Type.
Variable config : Config.

Lemma posts_app (tr1 tr2 : list (io_event Entry)) :
  posts Entry (tr1 ++ tr2) = posts Entry tr1 ++ posts Entry tr2.
Proof.
  induction tr1 as [|[b|ms] tr1 IH]; cbn [app posts]; [reflexivity| |exact IH].
  rewrite IH. reflexivity.
Qed.

Lemma sleeps_app (tr1 tr2 : list (io_event Entry)) :
  sleeps Entry (tr1 ++ tr2) = sleeps Entry tr1 ++ sleeps Entry tr2.
Proof.
  induction tr1 as [|[b|ms] tr1 IH]; cbn [app sleeps]; [reflexivity|exact IH|].
  rewrite IH. reflexivity.
Qed.

(** [_send_batch] makes one request, whatever comes of it. *)
Lemma send_batch_trace (o : post_outcome) (batch : LogBatch Entry) :
  fst (_send_batch Entry o batch) = [HttpPost batch].
Proof. reflexivity. Qed.

(** [_send_batch] returns true on an accepted request only. *)
Lemma send_batch_true (o : post_outcome) (batch : LogBatch Entry) :
  snd (_send_batch Entry o batch) = Ok true -> accepted o.
Proof.
  unfold _send_batch, _handle_response, accepted. cbn [snd].
  destruct o as [status text|e].
  - destruct (Z.ltb_spec status 300) as [Hlt|_].
    + intros _. exists status, text. split; [reflexivity | exact Hlt].
    + destruct text as [body|e]; [discriminate|]. destruct e; discriminate.
  - destruct e; discriminate.
Qed.

(** What is not a client error leaves [_send_batch] when the request
    raises it. *)
Lemma send_batch_raises (o : post_outcome) (batch : LogBatch Entry) :
  raises_uncaught o -> exists e, snd (_send_batch Entry o batch) = Raise e.
Proof.
  intros (e & -> & He). exists e. destruct e; try reflexivity. discriminate He.
Qed.

(** One turn of the retry loop. *)
Lemma attempts_loop_step (outcomes : Z -> post_outcome)
    (batch : LogBatch Entry) (attempt : Z) (rest : list Z) :
  attempts_loop Entry config outcomes batch (attempt :: rest)
  = match snd (_send_batch Entry (outcomes attempt) batch) with
    | Ok sent => ([HttpPost batch], sent)
    | Raise _ =>
        if (attempt =? max_retries config)%Z
        then ([HttpPost batch], false)
        else (HttpPost batch :: Sleep (1500 * attempt)
                :: fst (attempts_loop Entry config outcomes batch rest),
              snd (attempts_loop Entry config outcomes batch rest))
    end.
Proof.
  cbn [attempts_loop].
  destruct (_send_batch Entry (outcomes attempt) batch) as [tr r] eqn:Hsend.
  pose proof (send_batch_trace (outcomes attempt) batch) as Htr.
  rewrite Hsend in Htr. cbn [fst] in Htr. subst tr. cbn [snd].
  destruct r as [sent|e]; [reflexivity|].
  destruct (attempt =? max_retries config)%Z; [reflexivity|].
  destruct (attempts_loop Entry config outcomes batch rest) as [tr' sent'].
  reflexivity.
Qed.

(** The loop starts with a request when there is an attempt to make. *)
Lemma attempts_loop_first (outcomes : Z -> post_outcome)
    (batch : LogBatch Entry) (attempt : Z) (rest : list Z) :
  exists tr,
    fst (attempts_loop Entry config outcomes batch (attempt :: rest))
    = HttpPost batch :: tr.
Proof.
  rewrite attempts_loop_step.
  destruct (snd (_send_batch Entry (outcomes attempt) batch)) as [sent|e];
    [eexists; reflexivity|].
  destruct (attempt =? max_retries config)%Z; eexists; reflexivity.
Qed.

(** The requests of the retry loop are requests for its batch, at most one
    for each attempt; the loop succeeds only on an accepted request. *)
Lemma attempts_loop_posts (outcomes : Z -> post_outcome)
    (batch : LogBatch Entry) (attempts : list Z) :
  let out := attempts_loop Entry config outcomes batch attempts in
  Forall (fun b => b = batch) (posts Entry (fst out))
  /\ (length (posts Entry (fst out)) <= length attempts)%nat
  /\ (snd out = true ->
      exists attempt, In attempt attempts /\ accepted (outcomes attempt)).
Proof.
  cbv zeta. induction attempts as [|attempt rest (IH1 & IH2 & IH3)].
  - cbn. split; [constructor|]. split; [lia | discriminate].
  - rewrite attempts_loop_step.
    destruct (snd (_send_batch Entry (outcomes attempt) batch))
      as [sent|e] eqn:Hsend.
    + cbn [fst snd posts length]. split; [repeat constructor|].
      split; [lia|]. intros ->. exists attempt. split; [left; reflexivity|].
      apply (send_batch_true _ batch). exact Hsend.
    + destruct (attempt =? max_retries config)%Z.
      * cbn [fst snd posts length]. split; [repeat constructor|].
        split; [lia | discriminate].
      * cbn [fst snd posts length].
        split; [constructor; [reflexivity|exact IH1]|].
        split; [lia|]. intros Hsent. destruct (IH3 Hsent) as (a & Ha & Hacc).
        exists a. split; [right; exact Ha | exact Hacc].
Qed.

Lemma range1_length (n : Z) : length (range1 n) = Z.to_nat n.
Proof. unfold range1. rewrite length_map, length_seq. reflexivity. Qed.

Lemma range1_In (n a : Z) : In a (range1 n) <-> (1 <= a <= n)%Z.
Proof.
  unfold range1. rewrite in_map_iff. split.
  - intros (i & <- & Hi). apply in_seq in Hi. lia.
  - intros Ha. exists (Z.to_nat a). split; [lia|]. apply in_seq. lia.
Qed.

End DeliveryTraces.

(** C2, what the code does: whatever the number of retries allowed, a batch
    whose first request is answered with a status of 300 or more, or does
    not get through for a network error, is given up at once: one request,
    no wait, no second attempt.  The loop over the attempts goes on only
    when an exception leaves [_send_batch], and [_send_batch] returns false
    for such an answer and catches the network errors itself.  The one
    answer of 300 or more that is tried again is the one whose body cannot
    be read for a reason other than a network error: a wait of 1.5 s and a
    second request follow it. *)
Theorem process_batch_no_retry_on_http_failure (Entry : Type)
    (config : LogSender.Config) (outcomes : Z -> LogSender.post_outcome)
    (batch : LogSender.LogBatch Entry) :
  (1 <= LogSender.max_retries config)%Z ->
  (DeliverySpec.first_request_fails outcomes ->
   LogSender._process_batch Entry config outcomes batch
   = ([LogSender.HttpPost batch], false))
  /\ (DeliverySpec.first_body_unreadable outcomes ->
      (2 <= LogSender.max_retries config)%Z ->
      exists tr,
        fst (LogSender._process_batch Entry config outcomes batch)
        = LogSender.HttpPost batch :: LogSender.Sleep 1500
            :: LogSender.HttpPost batch :: tr).
Proof.
  intros Hretries. unfold LogSender._process_batch, LogSender.range1. split.
  - intros Hfail.
    destruct (Z.to_nat (LogSender.max_retries config)) as [|k] eqn:Hk; [lia|].
    cbn [seq map]. change (Z.of_nat 1) with 1%Z. rewrite attempts_loop_step.
    replace (snd (LogSender._send_batch Entry (outcomes 1%Z) batch))
      with (@Ok bool false); [reflexivity|].
    unfold LogSender._send_batch. cbn [snd].
    destruct Hfail as [(status & text & -> & Hstatus & Hread) | ->];
      [|reflexivity].
    unfold LogSender._handle_response.
    destruct (Z.ltb_spec status 300) as [?|_]; [lia|].
    destruct text as [body|e]; [reflexivity|].
    rewrite (Hread e eq_refl). reflexivity.
  - intros (status & e & Hout & Hstatus & He) Hmore.
    destruct (Z.to_nat (LogSender.max_retries config)) as [|[|k]] eqn:Hk;
      [lia | lia |].
    cbn [seq map]. change (Z.of_nat 1) with 1%Z. rewrite attempts_loop_step.
    replace (snd (LogSender._send_batch Entry (outcomes 1%Z) batch))
      with (@Raise bool e).
    + replace (1 =? LogSender.max_retries config)%Z with false
        by (symmetry; apply Z.eqb_neq; lia).
      cbn [fst].
      destruct (attempts_loop_first Entry config outcomes batch
                  (Z.of_nat 2) (map (fun i : nat => Z.of_nat i) (seq 3 k)))
        as (tr & ->).
      exists tr. reflexivity.
    + unfold LogSender._send_batch. cbn [snd]. rewrite Hout.
      unfold LogSender._handle_response.
      destruct (Z.ltb_spec status 300) as [?|_]; [lia|]. cbn [bind].
      destruct e; try reflexivity. congruence.
Qed.

(** Three attempts allowed, every request answered with status 500. *)
Lemma process_batch_no_retry_on_http_failure_witness :
  let config := {| LogSender.max_request_size := 1000;
                   LogSender.max_events_per_request := 100;
                   LogSender.max_retries := 3;
                   LogSender.concurrency := 4 |} in
  let batch := LogSender._create_batch Z [1; 2]%Z in
  LogSender._process_batch Z config
    (fun _ => LogSender.Response 500 (Ok "Internal Server Error")) batch
  = ([LogSender.HttpPost batch], false).
Proof.
  cbv zeta.
  apply (proj1 (process_batch_no_retry_on_http_failure Z
           {| LogSender.max_request_size := 1000;
              LogSender.max_events_per_request := 100;
              LogSender.max_retries := 3;
              LogSender.concurrency := 4 |}
           (fun _ => LogSender.Response 500 (Ok "Internal Server Error"))
           (LogSender._create_batch Z [1; 2]%Z) ltac:(cbn; lia))).
  left. exists 500%Z, (Ok "Internal Server Error").
  split; [reflexivity|]. split; [lia|]. intros e He. discriminate He.
Defined.

(** The retry loop is entered by exceptions only: a request that times out
    is tried three times, 1.5 s and 3 s apart. *)
Example process_batch_retries_on_timeout :
  let config := {| LogSender.max_request_size := 1000;
                   LogSender.max_events_per_request := 100;
                   LogSender.max_retries := 3;
                   LogSender.concurrency := 4 |} in
  let batch := LogSender._create_batch Z [1; 2]%Z in
  LogSender._process_batch Z config
    (fun _ => LogSender.PostRaises TimeoutError) batch
  = ([LogSender.HttpPost batch; LogSender.Sleep 1500;
      LogSender.HttpPost batch; LogSender.Sleep 3000;
      LogSender.HttpPost batch], false).
Proof. reflexivity. Qed.

(** So is an answer with status 500 whose body cannot be decoded; it is
    accepted at the second attempt here. *)
Example process_batch_retries_on_unreadable_body :
  let config := {| LogSender.max_request_size := 1000;
                   LogSender.max_events_per_request := 100;
                   LogSender.max_retries := 3;
                   LogSender.concurrency := 4 |} in
  let batch := LogSender._create_batch Z [1; 2]%Z in
  LogSender._process_batch Z config
    (fun attempt => if (attempt =? 1)%Z
                    then LogSender.Response 500 (Raise ValueError)
                    else LogSender.Response 200 (Ok "")) batch
  = ([LogSender.HttpPost batch; LogSender.Sleep 1500;
      LogSender.HttpPost batch], true).
Proof. reflexivity. Qed.

(** Two batches of one entry, the first accepted and the second answered
    with status 500: two requests in all, and [send] returns false. *)
Example send_false_when_one_batch_fails :
  let config := {| LogSender.max_request_size := 1000;
                   LogSender.max_events_per_request := 1;
                   LogSender.max_retries := 3;
                   LogSender.concurrency := 4 |} in
  LogSender.send Z (fun z => z) config
    (fun batch _ => if Nat.eqb batch 0 then LogSender.Response 200 (Ok "")
                    else LogSender.Response 500 (Ok ""))
    [1; 2]%Z
  = ([LogSender.HttpPost (LogSender._create_batch Z [1]%Z);
      LogSender.HttpPost (LogSender._create_batch Z [2]%Z)], Completes false).
Proof. reflexivity. Qed.

(** Without a permit no request is made: a negative count makes [send]
    return false, a count of zero makes it wait for ever. *)
Example send_without_permits :
  let config (permits : Z) :=
    {| LogSender.max_request_size := 1000;
       LogSender.max_events_per_request := 1;
       LogSender.max_retries := 3;
       LogSender.concurrency := permits |} in
  LogSender.send Z (fun z => z) (config (-1)%Z)
    (fun _ _ => LogSender.Response 200 (Ok "")) [1; 2]%Z
  = ([], Completes false)
  /\ LogSender.send Z (fun z => z) (config 0%Z)
       (fun _ _ => LogSender.Response 200 (Ok "")) [1; 2]%Z
     = ([], Blocks).
Proof. split; reflexivity. Qed.

(** ** Timestamps (custom_processor.py) *)

Section Timestamps.
Import Re Datetime CustomProcessor TimestampSpec.
Variable B : Builtins.

Lemma digit_is_not_slash (c : ascii) :
  is_digit c = true ->
  Ascii.eqb c "/" = false /\ Ascii.eqb (lower_ascii c) (lower_ascii "/") = false.
Proof.
  destruct c as [[] [] [] [] [] [] [] []]; vm_compute; intros H;
    first [discriminate H | split; reflexivity].
Qed.

Lemma run_slash_on_digit (ds : list directive) (c : ascii) (s : string)
    (acc : fields) :
  is_digit c = true -> run (DirLit "/" :: ds) (String c s) acc = [].
Proof.
  intros Hc. cbn [run].
  rewrite (proj2 (digit_is_not_slash c Hc)). reflexivity.
Qed.

(** The month-first format does not fit a text that starts with three
    digits: the month takes one or two of them and a slash must follow. *)
Lemma run_month_first_on_digits (ds : list directive) (a b c : ascii)
    (s : string) (acc : fields) :
  is_digit b = true -> is_digit c = true ->
  run (Dirm :: DirLit "/" :: ds) (String a (String b (String c s))) acc = [].
Proof.
  intros Hb Hc. unfold run at 1. fold run. unfold alts_m, two_digits, one_digit.
  destruct (is_digit a && is_digit b
            && ((Nat.eqb (digit_val a) 1 && (digit_val b <=? 2)%nat)
                || (Nat.eqb (digit_val a) 0 && (1 <=? digit_val b)%nat)));
    destruct (is_digit a && (1 <=? digit_val a)%nat);
    cbn [app flat_map fst snd];
    rewrite ?(proj2 (digit_is_not_slash c Hc)),
            ?(proj2 (digit_is_not_slash b Hb));
    reflexivity.
Qed.

(** A text that the first pattern matches starts with four digits. *)
Lemma dash_pattern_shape (ts : string) :
  re_match dash_pattern ts = true ->
  exists a b c d rest,
    ts = String a (String b (String c (String d rest)))
    /\ is_digit a = true /\ is_digit b = true
    /\ is_digit c = true /\ is_digit d = true.
Proof.
  unfold re_match.
  replace (compile dash_pattern)
    with [Digits 4; Lit "-"; Digits 2; Lit "-"; Digits 2; Lit " ";
          Digits 2; Lit ":"; Digits 2; Lit ":"; Digits 2]
    by (vm_compute; reflexivity).
  destruct ts as [|a [|b [|c [|d rest]]]]; cbn [match_items match_digits];
    repeat match goal with
           | |- context [if is_digit ?x then _ else _] =>
               destruct (is_digit x) eqn:?
           end;
    try discriminate.
  intros _. exists a, b, c, d, rest. repeat split; assumption.
Qed.

Lemma get_format_of_both_patterns :
  _get_format dash_pattern = "%m/%d/%Y %H:%M:%S"
  /\ _get_format slash_pattern = "%m/%d/%Y %H:%M:%S".
Proof. split; vm_compute; reflexivity. Qed.

Lemma strptime_month_first_on_digits (a b c : ascii) (s : string) :
  is_digit b = true -> is_digit c = true ->
  strptime (String a (String b (String c s))) "%m/%d/%Y %H:%M:%S"
  = Raise ValueError.
Proof.
  intros Hb Hc. unfold strptime.
  replace (parse_format "%m/%d/%Y %H:%M:%S")
    with (Some [Dirm; DirLit "/"; Dird; DirLit "/"; DirY; DirSpace;
                DirH; DirLit ":"; DirM; DirLit ":"; DirS])
    by (vm_compute; reflexivity).
  rewrite (run_month_first_on_digits _ a b c s fields0 Hb Hc). reflexivity.
Qed.

Lemma slash_pattern_on_digits (a b c : ascii) (s : string) :
  is_digit a = true -> is_digit b = true -> is_digit c = true ->
  re_match slash_pattern (String a (String b (String c s))) = false.
Proof.
  intros Ha Hb Hc. unfold re_match.
  replace (compile slash_pattern)
    with [Digits 2; Lit "/"; Digits 2; Lit "/"; Digits 4; Lit " ";
          Digits 2; Lit ":"; Digits 2; Lit ":"; Digits 2]
    by (vm_compute; reflexivity).
  cbn [match_items match_digits]. rewrite Ha, Hb.
  rewrite (proj1 (digit_is_not_slash c Hc)). reflexivity.
Qed.

End Timestamps.

(** C4, what the code does: a timestamp that matches the first pattern
    (date and time with dashes) is never parsed: [_get_format] selects the
    month-first format with slashes for it, parsing fails, the second
    pattern does not match, and the current UTC time is returned. *)
Theorem parse_datetime_dash_pattern_falls_back (B : Builtins) (ts : string) :
  Re.re_match TimestampSpec.dash_pattern ts = true ->
  CustomProcessor._parse_datetime B (VStr ts) = Ok (utcnow_isoformat B).
Proof.
  intros Hmatch.
  destruct (dash_pattern_shape ts Hmatch)
    as (a & b & c & d & rest & -> & Ha & Hb & Hc & Hd).
  unfold CustomProcessor._parse_datetime, CustomProcessor.time_patterns.
  fold TimestampSpec.dash_pattern. fold TimestampSpec.slash_pattern.
  cbn [CustomProcessor.parse_datetime_from CustomProcessor.pattern_match bind].
  rewrite Hmatch.
  rewrite (proj1 get_format_of_both_patterns).
  cbn [CustomProcessor.py_strptime].
  rewrite (strptime_month_first_on_digits a b c _ Hb Hc).
  cbn [CustomProcessor.is_ValueError].
  rewrite (slash_pattern_on_digits a b c _ Ha Hb Hc). reflexivity.
Qed.

(** The timestamp of the specification's example. *)
Lemma parse_datetime_dash_pattern_falls_back_witness :
  CustomProcessor._parse_datetime (Demo.builtins VNone)
    (VStr "2024-01-01 10:00:00") = Ok "now"
  /\ CustomProcessor._parse_datetime (Demo.builtins VNone)
       (VStr "2024-01-01 10:00:00") <> Ok "2024-01-01T10:00:00.000".
Proof.
  assert (H : CustomProcessor._parse_datetime (Demo.builtins VNone)
                (VStr "2024-01-01 10:00:00") = Ok "now").
  { apply (parse_datetime_dash_pattern_falls_back (Demo.builtins VNone)
             "2024-01-01 10:00:00").
    vm_compute. reflexivity. }
  split; [exact H|]. rewrite H. discriminate.
Defined.

(** The format with dashes, had it been selected, gives the text that the
    specification expects; a month-first timestamp is converted. *)
Example dash_format_would_convert :
  match Datetime.strptime "2024-01-01 10:00:00" "%Y-%m-%d %H:%M:%S" with
  | Ok dt => Datetime.isoformat_milliseconds dt
  | Raise _ => ""
  end = "2024-01-01T10:00:00.000".
Proof. vm_compute. reflexivity. Qed.

Example parse_datetime_slash_pattern :
  CustomProcessor._parse_datetime (Demo.builtins VNone)
    (VStr "01/02/2024 10:00:00") = Ok "2024-01-02T10:00:00.000".
Proof. vm_compute. reflexivity. Qed.

(** ** Records of an event (custom_processor.py) *)

Lemma extract_severity_bad_record (parsed : gmap string value) :
  Mapping.extract_severity Demo.bad_record parsed
  = (<["severity" := VStr "Informational"]> parsed, Ok tt).
Proof. reflexivity. Qed.

Lemma process_record_bad_category (B : Builtins)
    (config : CustomProcessor.Config) (eng : MetadataEngine.Engine) :
  CustomProcessor._process_record B config eng Demo.bad_record = None.
Proof.
  unfold CustomProcessor._process_record, Demo.bad_record.
  cbn [CustomProcessor._deserialize_properties CustomProcessor.first_present
       Mapping.azure_properties_names py_in has_key assoc String.eqb
       Ascii.eqb Bool.eqb bind].
  unfold CustomProcessor._build_parsed_record.
  cbv zeta. unfold mbind at 1.
  change (VDict [("category", VInt 5)]) with Demo.bad_record.
  rewrite extract_severity_bad_record. unfold Demo.bad_record.
  unfold mbind at 1.
  unfold CustomProcessor._extract_resource_info at 1.
  unfold mbind at 1. unfold lift at 1.
  cbn [py_in has_key assoc String.eqb Ascii.eqb Bool.eqb ret].
  unfold mbind at 1.
  match goal with
  | |- context [MetadataEngine.apply B eng ?r ?p] =>
      destruct (metadata_apply_returns B eng r p) as [parsed1 ->]
  end.
  unfold mbind at 1.
  destruct (CustomProcessor._convert_timestamp B parsed1) as [parsed2 [[]|e]];
    [|reflexivity].
  reflexivity.
Qed.

(** C1, what the code does: when the body of an event decodes to an object
    with a list of records, [extract_logs] returns one element for every
    record that is not null: the entry of the record or, when producing it
    raised, the [None] that [_process_record] returned.  The filter of the
    list comprehension tests the record, not the result.  A record whose
    category is a number is such a record. *)
Theorem extract_logs_keeps_failed_records (B : Builtins)
    (config : CustomProcessor.Config) (eng : MetadataEngine.Engine)
    (event : CustomProcessor.Event) (body : string) (records : list value) :
  CustomProcessor.body_as_str event = Ok body ->
  body <> "" ->
  json_loads B true body = Ok (VDict [("records", VList records)]) ->
  CustomProcessor.extract_logs B config eng event
    = Ok (map (CustomProcessor._process_record B config eng)
              (List.filter CustomProcessor.is_not_None records))
  /\ CustomProcessor._process_record B config eng Demo.bad_record = None
  /\ (In Demo.bad_record records ->
      exists logs, CustomProcessor.extract_logs B config eng event = Ok logs
                   /\ In None logs).
Proof.
  intros Hbody Hne Hjson.
  assert (Hlogs : CustomProcessor.extract_logs B config eng event
            = Ok (map (CustomProcessor._process_record B config eng)
                      (List.filter CustomProcessor.is_not_None records))).
  { unfold CustomProcessor.extract_logs, try_except. rewrite Hbody.
    cbn [bind]. destruct body as [|c body]; [congruence|].
    unfold CustomProcessor._parse_event_body. rewrite Hjson.
    reflexivity. }
  split; [exact Hlogs|]. split; [apply process_record_bad_category|].
  intros Hin. eexists. split; [exact Hlogs|].
  rewrite <- (process_record_bad_category B config eng).
  apply in_map. apply List.filter_In. split; [exact Hin | reflexivity].
Qed.

(** An event with the record whose category is a number and a sound
    record: a list of two elements, the first of which is [None]. *)
Lemma extract_logs_keeps_failed_records_witness :
  CustomProcessor.extract_logs
    (Demo.builtins (VDict [("records", VList [Demo.bad_record; Demo.good_record])]))
    Demo.config Demo.engine Demo.event
  = Ok [None; Some Demo.good_entry].
Proof.
  pose proof (proj1 (extract_logs_keeps_failed_records
    (Demo.builtins (VDict [("records", VList [Demo.bad_record; Demo.good_record])]))
    Demo.config Demo.engine Demo.event "body"
    [Demo.bad_record; Demo.good_record]
    eq_refl ltac:(discriminate) eq_refl)) as H.
  rewrite H. vm_compute. reflexivity.
Defined.

(** ** Checkpoints (eventhub_consumer.py) *)

(** C3, the claim as it stands fails: for an event with one sound record
    and an endpoint that answers 500, the delivery fails ([send] returns
    false after its one request), the handler returns normally and the
    checkpoint of the event is updated. *)
Lemma checkpoint_updated_after_failed_delivery :
  let B := Demo.builtins (VDict [("records", VList [Demo.good_record])]) in
  let batch := LogSender._create_batch _ [Some Demo.good_entry] in
  CustomProcessor.extract_logs B Demo.config Demo.engine Demo.event
    = Ok [Some Demo.good_entry]
  /\ LogSender.send _ Demo.ten_bytes Demo.sender_config Demo.always_500
       [Some Demo.good_entry]
     = ([LogSender.HttpPost batch], Completes false)
  /\ EventHubConsumer.process_message B Demo.config Demo.engine
       Demo.sender_config Demo.ten_bytes Demo.always_500 (Ok tt) Demo.event
     = ([EventHubConsumer.Delivery (LogSender.HttpPost batch);
         EventHubConsumer.UpdateCheckpoint Demo.event], Completes (Ok tt)).
Proof.
  cbv zeta. split; [|split]; vm_compute; reflexivity.
Qed.

(** C3, amended: for every delivered event the handler first runs the
    pipeline, requests included; the checkpoint update of the event is
    called, after the last request, exactly when the pipeline returned
    without raising, which is also the case when [send] reported a failed
    delivery; when the pipeline raises nothing is checkpointed and a
    [ProcessingError] leaves the handler, as it does when the update itself
    raises; and when the pipeline never returns, for want of a permit to
    send, nothing is checkpointed and the handler does not return
    either. *)
Theorem process_message_checkpoint_spec (B : Builtins)
    (config : CustomProcessor.Config) (eng : MetadataEngine.Engine)
    (sender_config : LogSender.Config)
    (entry_size : option (gmap string string) -> Z)
    (network : nat -> Z -> LogSender.post_outcome)
    (checkpoint : result unit) (event : CustomProcessor.Event) :
  let pipeline :=
    CustomProcessor.process B config eng sender_config entry_size network event in
  let handled :=
    EventHubConsumer.process_message B config eng sender_config entry_size
      network checkpoint event in
  match snd pipeline with
  | Completes (Ok _) =>
      fst handled = map EventHubConsumer.Delivery (fst pipeline)
                    ++ [EventHubConsumer.UpdateCheckpoint event]
      /\ snd handled = match checkpoint with
                       | Ok _ => Completes (Ok tt)
                       | Raise _ => Completes (Raise ProcessingError)
                       end
  | Completes (Raise _) =>
      fst handled = map EventHubConsumer.Delivery (fst pipeline)
      /\ ~ In (EventHubConsumer.UpdateCheckpoint event) (fst handled)
      /\ snd handled = Completes (Raise ProcessingError)
  | Blocks =>
      fst handled = map EventHubConsumer.Delivery (fst pipeline)
      /\ ~ In (EventHubConsumer.UpdateCheckpoint event) (fst handled)
      /\ snd handled = Blocks
  end.
Proof.
  cbv zeta. unfold EventHubConsumer.process_message,
    EventHubConsumer.process_message_body.
  destruct (CustomProcessor.process B config eng sender_config entry_size
              network event) as [tr [[[]|e]|]]; cbn [fst snd].
  - destruct checkpoint as [[]|e]; cbn; split; reflexivity.
  - cbn. split; [reflexivity|]. split; [|reflexivity].
    rewrite in_map_iff. intros (x & Hx & _). discriminate Hx.
  - cbn. split; [reflexivity|]. split; [|reflexivity].
    rewrite in_map_iff. intros (x & Hx & _). discriminate Hx.
Qed.

(** The pipeline does raise: when the body of an event of the stream client
    decodes to a list, [extract_logs] fails, its handler fails in turn on
    [event.get], nothing is sent, nothing is checkpointed and the handler
    raises [ProcessingError]. *)
Example process_message_pipeline_raises :
  EventHubConsumer.process_message (Demo.builtins (VList []))
    Demo.config Demo.engine Demo.sender_config Demo.ten_bytes Demo.always_500
    (Ok tt) Demo.event
  = ([], Completes (Raise ProcessingError)).
Proof. vm_compute. reflexivity. Qed.

(* ===================================================================== *)
(** * Further properties *)
(* ===================================================================== *)

(** ** Delivery of a batch (logs_sender.py) *)

(** X1: a batch is never requested more often than [max_retries] allows,
    every request of [_process_batch] carries that batch, and the batch is
    reported sent only if one of the attempts 1 .. max_retries was answered
    with a status below 300. *)
Theorem process_batch_requests_bounded (Entry : Type)
    (config : LogSender.Config) (outcomes : Z -> LogSender.post_outcome)
    (batch : LogSender.LogBatch Entry) :
  let out := LogSender._process_batch Entry config outcomes batch in
  Forall (fun b => b = batch) (TraceSpec.posts Entry (fst out))
  /\ (Z.of_nat (length (TraceSpec.posts Entry (fst out)))
      <= Z.max 0 (LogSender.max_retries config))%Z
  /\ (snd out = true ->
      exists attempt, (1 <= attempt <= LogSender.max_retries config)%Z
                      /\ TraceSpec.accepted (outcomes attempt)).
Proof.
  cbv zeta. unfold LogSender._process_batch.
  destruct (attempts_loop_posts Entry config outcomes batch
              (LogSender.range1 (LogSender.max_retries config)))
    as (H1 & H2 & H3).
  split; [exact H1|]. split.
  - rewrite range1_length in H2. lia.
  - intros Hsent. destruct (H3 Hsent) as (a & Ha & Hacc).
    exists a. split; [apply range1_In; exact Ha | exact Hacc].
Qed.

(** X2: with a retry count of zero or less no request is made at all and
    the batch is reported failed. *)
Theorem process_batch_without_attempts (Entry : Type)
    (config : LogSender.Config) (outcomes : Z -> LogSender.post_outcome)
    (batch : LogSender.LogBatch Entry) :
  (LogSender.max_retries config <= 0)%Z ->
  LogSender._process_batch Entry config outcomes batch = ([], false).
Proof.
  intros Hn. unfold LogSender._process_batch, LogSender.range1.
  replace (Z.to_nat (LogSender.max_retries config)) with 0%nat by lia.
  reflexivity.
Qed.

(** A retry count of zero and an endpoint that would accept everything. *)
Lemma process_batch_without_attempts_witness :
  LogSender._process_batch Z
    {| LogSender.max_request_size := 1000;
       LogSender.max_events_per_request := 100;
       LogSender.max_retries := 0;
       LogSender.concurrency := 4 |}
    (fun _ => LogSender.Response 200 (Ok "")) (LogSender._create_batch Z [1]%Z)
  = ([], false).
Proof.
  apply (process_batch_without_attempts Z
           {| LogSender.max_request_size := 1000;
              LogSender.max_events_per_request := 100;
              LogSender.max_retries := 0;
              LogSender.concurrency := 4 |}
           (fun _ => LogSender.Response 200 (Ok ""))
           (LogSender._create_batch Z [1]%Z)).
  cbn. lia.
Defined.

Section Backoff.
Import LogSender TraceSpec.
Variable Entry : Type.
Variable config : Config.
Variable outcomes : Z -> post_outcome.
Variable batch : LogBatch Entry.

(** The loop over the attempts a, a+1, .. up to the last one allowed, when
    every request raises. *)
Lemma attempts_loop_all_raise (k a : nat) :
  max_retries config = Z.of_nat (a + k) ->
  (forall i, (a <= i <= a + k)%nat -> raises_uncaught (outcomes (Z.of_nat i))) ->
  let out := attempts_loop Entry config outcomes batch
               (map (fun i => Z.of_nat i) (seq a (S k))) in
  posts Entry (fst out) = replicate (S k) batch
  /\ sleeps Entry (fst out) = map (fun i => (1500 * Z.of_nat i)%Z) (seq a k)
  /\ snd out = false.
Proof.
  revert a. induction k as [|k IH]; intros a Hmax Hall; cbv zeta.
  - cbn [seq map]. rewrite attempts_loop_step.
    destruct (send_batch_raises Entry _ batch (Hall a ltac:(lia))) as (e & ->).
    replace (Z.of_nat a =? max_retries config)%Z with true
      by (symmetry; apply Z.eqb_eq; lia).
    cbn. repeat split.
  - change (seq a (S (S k))) with (a :: seq (S a) (S k)). cbn [map].
    rewrite attempts_loop_step.
    destruct (send_batch_raises Entry _ batch (Hall a ltac:(lia))) as (e & ->).
    replace (Z.of_nat a =? max_retries config)%Z with false
      by (symmetry; apply Z.eqb_neq; lia).
    cbn [fst snd posts sleeps].
    destruct (IH (S a)) as (IH1 & IH2 & IH3).
    { lia. }
    { intros i Hi. apply Hall. lia. }
    rewrite IH1, IH2, IH3. cbn [replicate seq map]. repeat split.
Qed.

End Backoff.

(** X3: when every request of a batch raises something other than a client
    error (a timeout, say), the batch is requested exactly [max_retries]
    times, the waits between the requests are 1.5 s, 3 s, ... that is 1500 ms
    times the number of the failed attempt, there is no wait after the last
    attempt, and the batch is reported failed. *)
Theorem process_batch_backoff_schedule (Entry : Type)
    (config : LogSender.Config) (outcomes : Z -> LogSender.post_outcome)
    (batch : LogSender.LogBatch Entry) :
  (1 <= LogSender.max_retries config)%Z ->
  (forall attempt, (1 <= attempt <= LogSender.max_retries config)%Z ->
                   TraceSpec.raises_uncaught (outcomes attempt)) ->
  let out := LogSender._process_batch Entry config outcomes batch in
  TraceSpec.posts Entry (fst out)
    = replicate (Z.to_nat (LogSender.max_retries config)) batch
  /\ TraceSpec.sleeps Entry (fst out)
    = map (fun attempt => (1500 * attempt)%Z)
          (LogSender.range1 (LogSender.max_retries config - 1))
  /\ snd out = false.
Proof.
  intros Hn Hall. cbv zeta. unfold LogSender._process_batch, LogSender.range1.
  destruct (Z.to_nat (LogSender.max_retries config)) as [|k] eqn:Hk; [lia|].
  destruct (attempts_loop_all_raise Entry config outcomes batch k 1)
    as (H1 & H2 & H3).
  { lia. }
  { intros i Hi. apply Hall. lia. }
  rewrite H1, H2, H3.
  replace (Z.to_nat (LogSender.max_retries config - 1)) with k by lia.
  rewrite map_map. repeat split.
Qed.

(** Four attempts, every one of them timing out. *)
Lemma process_batch_backoff_schedule_witness :
  let config := {| LogSender.max_request_size := 1000;
                   LogSender.max_events_per_request := 100;
                   LogSender.max_retries := 4;
                   LogSender.concurrency := 4 |} in
  let batch := LogSender._create_batch Z [1]%Z in
  let out := LogSender._process_batch Z config
               (fun _ => LogSender.PostRaises TimeoutError) batch in
  TraceSpec.posts Z (fst out) = [batch; batch; batch; batch]
  /\ TraceSpec.sleeps Z (fst out) = [1500; 3000; 4500]%Z
  /\ snd out = false.
Proof.
  cbv zeta.
  apply (process_batch_backoff_schedule Z
           {| LogSender.max_request_size := 1000;
              LogSender.max_events_per_request := 100;
              LogSender.max_retries := 4;
              LogSender.concurrency := 4 |}
           (fun _ => LogSender.PostRaises TimeoutError)
           (LogSender._create_batch Z [1]%Z)).
  - cbn. lia.
  - intros attempt _. exists TimeoutError. split; reflexivity.
Defined.

(** ** What [send] puts on the wire (logs_sender.py) *)

Lemma posts_concat (Entry : Type)
    (trs : list (list (LogSender.io_event Entry))) (b : LogSender.LogBatch Entry) :
  In b (TraceSpec.posts Entry (concat trs)) ->
  exists tr, In tr trs /\ In b (TraceSpec.posts Entry tr).
Proof.
  induction trs as [|tr trs IH]; cbn [concat]; [intros []|].
  rewrite posts_app, in_app_iff. intros [H|H].
  - exists tr. split; [left; reflexivity | exact H].
  - destruct (IH H) as (tr' & Hin & Hb). exists tr'. split; [right|]; assumption.
Qed.

(** X4: whatever the limits and whatever the endpoint answers, every
    request of [send] carries one of the batches of [_prepare_batches], and
    no entry above the byte limit is ever in a request. *)
Theorem send_posts_only_prepared_batches (Entry : Type)
    (entry_size : Entry -> Z) (config : LogSender.Config)
    (network : nat -> Z -> LogSender.post_outcome) (logs : list Entry)
    (b : LogSender.LogBatch Entry) :
  In b (TraceSpec.posts Entry
          (fst (LogSender.send Entry entry_size config network logs))) ->
  In b (LogSender._prepare_batches Entry entry_size config logs)
  /\ Forall (fun e => In e logs
                      /\ (entry_size e <= LogSender.max_request_size config)%Z)
            (LogSender.serialized_batch b).
Proof.
  intros Hb.
  assert (Hin : In b (LogSender._prepare_batches Entry entry_size config logs)).
  { unfold LogSender.send in Hb.
    destruct (LogSender._prepare_batches Entry entry_size config logs)
      as [|b0 bs] eqn:Hbatches; [destruct Hb|].
    destruct (LogSender.concurrency config <? 0)%Z; [destruct Hb|].
    destruct (LogSender.concurrency config =? 0)%Z; [destruct Hb|].
    cbn [fst] in Hb. apply posts_concat in Hb as (tr & Htr & Hb).
    apply in_map_iff in Htr as ([tr' sent] & <- & Hres).
    apply list_elem_of_In, elem_of_lookup_imap in Hres as (i & batch & Heq & Hi).
    pose proof (proj1 (attempts_loop_posts Entry config (network i) batch
                         (LogSender.range1 (LogSender.max_retries config))))
      as Hposts.
    fold (LogSender._process_batch Entry config (network i) batch) in Hposts.
    rewrite <- Heq in Hposts. cbn [fst] in Hb, Hposts.
    rewrite List.Forall_forall in Hposts. rewrite (Hposts b Hb).
    apply list_elem_of_In. eapply list_elem_of_lookup_2. exact Hi. }
  split; [exact Hin|].
  apply List.Forall_forall. intros e He.
  assert (Hconcat : In e (concat (map LogSender.serialized_batch
            (LogSender._prepare_batches Entry entry_size config logs)))).
  { apply in_concat. exists (LogSender.serialized_batch b).
    split; [apply in_map; exact Hin | exact He]. }
  unfold LogSender._prepare_batches in Hconcat.
  rewrite prepare_from_concat in Hconcat. cbn [app] in Hconcat.
  apply List.filter_In in Hconcat as [Hlogs Hfits].
  split; [exact Hlogs|]. unfold BatcherSpec.fits in Hfits.
  destruct (Z.gtb_spec (entry_size e) (LogSender.max_request_size config));
    [discriminate | lia].
Qed.

(** Entries of 2, 9 and 3 bytes under a limit of 5. *)
Lemma send_posts_only_prepared_batches_witness :
  let config := {| LogSender.max_request_size := 5;
                   LogSender.max_events_per_request := 100;
                   LogSender.max_retries := 3;
                   LogSender.concurrency := 4 |} in
  Forall (fun e => In e [2; 9; 3]%Z /\ (e <= 5)%Z) [2; 3]%Z.
Proof.
  cbv zeta.
  apply (proj2 (send_posts_only_prepared_batches Z (fun z => z)
                  {| LogSender.max_request_size := 5;
                     LogSender.max_events_per_request := 100;
                     LogSender.max_retries := 3;
                     LogSender.concurrency := 4 |}
                  (fun _ _ => LogSender.Response 200 (Ok "")) [2; 9; 3]%Z
                  (LogSender._create_batch Z [2; 3]%Z)
                  ltac:(left; reflexivity))).
Defined.

(** ** Batches at the edges of the configuration (logs_sender.py) *)

Section BatcherEdges.
Import LogSender BatcherSpec.
Variable Entry : Type.
Variable entry_size : Entry -> Z.
Variable config : Config.

Lemma length_concat_batches (bs : list (LogBatch Entry)) :
  Forall (fun b => number_of_logs b = length (serialized_batch b)) bs ->
  length (concat (map serialized_batch bs))
  = list_sum (map number_of_logs bs).
Proof.
  induction 1 as [|b bs Hb _ IH]; [reflexivity|].
  cbn [map concat list_sum]. rewrite length_app, IH, Hb. reflexivity.
Qed.

Lemma prepare_from_counts (logs cur : list Entry) (sz : Z) :
  Forall (fun b => number_of_logs b = length (serialized_batch b))
         (prepare_from Entry entry_size config logs cur sz).
Proof.
  revert cur sz. induction logs as [|log rest IH]; intros cur sz.
  - cbn [prepare_from]. destruct cur; repeat constructor.
  - cbn [prepare_from].
    destruct (entry_size log >? max_request_size config)%Z; [apply IH|].
    destruct ((Z.of_nat (length cur) >=? max_events_per_request config)%Z
              || (sz + entry_size log >? max_request_size config)%Z).
    + constructor; [reflexivity | apply IH].
    + apply IH.
Qed.

End BatcherEdges.

(** X5: with a count limit of zero or less, [_prepare_batches] first emits
    an empty batch and then every entry that fits in a batch of its own;
    when no entry fits it emits nothing. *)
Theorem prepare_batches_zero_count_limit (Entry : Type)
    (entry_size : Entry -> Z) (config : LogSender.Config) (logs : list Entry) :
  (LogSender.max_events_per_request config <= 0)%Z ->
  map LogSender.serialized_batch
      (LogSender._prepare_batches Entry entry_size config logs)
  = match List.filter (BatcherSpec.fits Entry entry_size config) logs with
    | [] => []
    | kept => [] :: map (fun e => [e]) kept
    end.
Proof.
  intros Hzero. unfold LogSender._prepare_batches.
  rewrite (prepare_from_zero_count_limit Entry entry_size config logs [] 0%Z Hzero).
  reflexivity.
Qed.

(** Three entries, the second one oversized, under a count limit of zero. *)
Lemma prepare_batches_zero_count_limit_witness :
  map LogSender.serialized_batch
      (LogSender._prepare_batches Z (fun z => z)
         {| LogSender.max_request_size := 5;
            LogSender.max_events_per_request := 0;
            LogSender.max_retries := 3;
            LogSender.concurrency := 4 |} [2; 9; 3]%Z)
  = [[]; [2]; [3]]%Z.
Proof.
  apply (prepare_batches_zero_count_limit Z (fun z => z)
           {| LogSender.max_request_size := 5;
              LogSender.max_events_per_request := 0;
              LogSender.max_retries := 3;
              LogSender.concurrency := 4 |} [2; 9; 3]%Z).
  cbn. lia.
Defined.

(** X6: whatever the two limits are, no entry that fits is lost, repeated
    or reordered by [_prepare_batches]: the batches put end to end are the
    fitting entries of the input, and the [number_of_logs] of the batches
    add up to their number. *)
Theorem prepare_batches_conserves_entries (Entry : Type)
    (entry_size : Entry -> Z) (config : LogSender.Config) (logs : list Entry) :
  let batches := LogSender._prepare_batches Entry entry_size config logs in
  let kept := List.filter (BatcherSpec.fits Entry entry_size config) logs in
  concat (map LogSender.serialized_batch batches) = kept
  /\ list_sum (map LogSender.number_of_logs batches) = length kept.
Proof.
  cbv zeta. unfold LogSender._prepare_batches.
  pose proof (prepare_from_concat Entry entry_size config logs [] 0%Z) as Hconcat.
  cbn [app] in Hconcat. split; [exact Hconcat|].
  rewrite <- Hconcat. symmetry. apply length_concat_batches, prepare_from_counts.
Qed.

(** ** The retry decorator (libs/exceptions.py) *)

Section ErrorHandler.
Import Exceptions.
Variable A : Type.
Variable func : nat -> result A.

Lemma wrapper_loop_all_connectivity (retries left : nat) :
  (forall i, (retries <= i < retries + left)%nat ->
             func i = Raise ConnectivityError) ->
  wrapper_loop A func retries left = ((retries + left)%nat, Raise ConnectivityError).
Proof.
  revert retries. induction left as [|left IH]; intros retries Hall.
  - cbn. rewrite Nat.add_0_r. reflexivity.
  - cbn [wrapper_loop]. rewrite (Hall retries ltac:(lia)).
    rewrite IH; [f_equal; lia|]. intros i Hi. apply Hall. lia.
Qed.

Lemma wrapper_loop_stops (n retries left : nat) (r : result A) :
  (n < left)%nat ->
  (forall i, (retries <= i < retries + n)%nat ->
             func i = Raise ConnectivityError) ->
  func (retries + n)%nat = r ->
  r <> Raise ConnectivityError ->
  wrapper_loop A func retries left = (S (retries + n), r).
Proof.
  revert retries left. induction n as [|n IH]; intros retries left Hn Hall Hr Hne.
  - destruct left as [|left]; [lia|]. rewrite Nat.add_0_r in *.
    cbn [wrapper_loop]. rewrite Hr.
    destruct r as [a|e]; [reflexivity|]. destruct e; congruence.
  - destruct left as [|left]; [lia|]. cbn [wrapper_loop].
    rewrite (Hall retries ltac:(lia)).
    rewrite (IH (S retries) left); [f_equal; lia | lia | |
      rewrite <- Hr; f_equal; lia | exact Hne].
    intros i Hi. apply Hall. lia.
Qed.

End ErrorHandler.

(** X7: the decorated function is called again only after a
    [ConnectivityError], and at most [max_retries] times in all.  If it
    raises [ConnectivityError] every time, the wrapper raises a
    [ConnectivityError] of its own after [max_retries] calls (after none at
    all when [max_retries] is zero or less).  Otherwise the first outcome
    that is not a [ConnectivityError], a returned value, a
    [ProcessingError] or any other exception, ends the loop and is the
    outcome of the wrapper. *)
Theorem error_handler_spec (A : Type) (max_retries : Z)
    (func : nat -> result A) :
  ((forall i, (Z.of_nat i < max_retries)%Z -> func i = Raise ConnectivityError) ->
   Exceptions.error_handler A max_retries func
   = (Z.to_nat max_retries, Raise ConnectivityError))
  /\ (forall n r,
        (Z.of_nat n < max_retries)%Z ->
        (forall i, (i < n)%nat -> func i = Raise ConnectivityError) ->
        func n = r ->
        r <> Raise ConnectivityError ->
        Exceptions.error_handler A max_retries func = (S n, r)).
Proof.
  unfold Exceptions.error_handler. split.
  - intros Hall.
    rewrite (wrapper_loop_all_connectivity A func 0 (Z.to_nat max_retries));
      [reflexivity|].
    intros i Hi. apply Hall. lia.
  - intros n r Hn Hall Hr Hne.
    rewrite (wrapper_loop_stops A func n 0 (Z.to_nat max_retries) r);
      [reflexivity | lia | | exact Hr | exact Hne].
    intros i Hi. apply Hall. lia.
Qed.

(** Three calls allowed: a function that fails to connect once and then
    cannot process is called twice; a function that never connects is
    called three times. *)
Lemma error_handler_spec_witness :
  Exceptions.error_handler unit 3
    (fun i => if Nat.eqb i 0 then Raise ConnectivityError
              else Raise ProcessingError)
  = (2%nat, Raise ProcessingError)
  /\ Exceptions.error_handler unit 3 (fun _ => Raise ConnectivityError)
     = (3%nat, Raise ConnectivityError).
Proof.
  split.
  - apply (proj2 (error_handler_spec unit 3
                    (fun i => if Nat.eqb i 0 then Raise ConnectivityError
                              else Raise ProcessingError)) 1%nat
                 (Raise ProcessingError)).
    + lia.
    + intros i Hi. replace i with 0%nat by lia. reflexivity.
    + reflexivity.
    + discriminate.
  - apply (proj1 (error_handler_spec unit 3 (fun _ => Raise ConnectivityError))).
    intros i _. reflexivity.
Defined.

(** The pipeline fails to return only for want of a permit. *)
Lemma process_blocks (B : Builtins)
    (config : CustomProcessor.Config) (eng : MetadataEngine.Engine)
    (sender_config : LogSender.Config)
    (entry_size : option (gmap string string) -> Z)
    (network : nat -> Z -> LogSender.post_outcome)
    (event : CustomProcessor.Event)
    (tr : list (LogSender.io_event (option (gmap string string)))) :
  CustomProcessor.process B config eng sender_config entry_size network event
    = (tr, Blocks) ->
  LogSender.concurrency sender_config = 0%Z
  /\ exists logs,
       CustomProcessor.extract_logs B config eng event = Ok logs
       /\ LogSender._prepare_batches _ entry_size sender_config logs <> [].
Proof.
  unfold CustomProcessor.process, CustomProcessor._send_logs_safely,
    LogSender.send.
  destruct (CustomProcessor.extract_logs B config eng event) as [logs|e];
    [|discriminate].
  destruct logs as [|log logs]; [discriminate|].
  destruct (LogSender._prepare_batches _ entry_size sender_config (log :: logs))
    as [|b bs] eqn:Hbatches; [discriminate|].
  destruct (LogSender.concurrency sender_config <? 0)%Z; [discriminate|].
  destruct (Z.eqb_spec (LogSender.concurrency sender_config) 0) as [Hzero|_];
    [|discriminate].
  intros _. split; [exact Hzero|]. exists (log :: logs).
  split; [reflexivity|]. rewrite Hbatches. discriminate.
Qed.

(** X8: the decorator never retries [process_message]: the body of the
    handler turns every exception into a [ProcessingError], which the
    decorator raises again at once, so the handler is its body run once and
    it ends normally or with a [ProcessingError]; it fails to end only when
    the sender is configured without a permit (a concurrency of zero) and
    has a batch to send. *)
Theorem process_message_runs_once (B : Builtins)
    (config : CustomProcessor.Config) (eng : MetadataEngine.Engine)
    (sender_config : LogSender.Config)
    (entry_size : option (gmap string string) -> Z)
    (network : nat -> Z -> LogSender.post_outcome)
    (checkpoint : result unit) (event : CustomProcessor.Event) :
  EventHubConsumer.process_message B config eng sender_config entry_size
    network checkpoint event
  = EventHubConsumer.process_message_body B config eng sender_config
      entry_size network checkpoint event
  /\ (snd (EventHubConsumer.process_message B config eng sender_config
             entry_size network checkpoint event) = Completes (Ok tt)
      \/ snd (EventHubConsumer.process_message B config eng sender_config
                entry_size network checkpoint event)
         = Completes (Raise ProcessingError)
      \/ (snd (EventHubConsumer.process_message B config eng sender_config
                 entry_size network checkpoint event) = Blocks
          /\ LogSender.concurrency sender_config = 0%Z
          /\ exists logs,
               CustomProcessor.extract_logs B config eng event = Ok logs
               /\ LogSender._prepare_batches _ entry_size sender_config logs
                  <> [])).
Proof.
  unfold EventHubConsumer.process_message, EventHubConsumer.process_message_body.
  destruct (CustomProcessor.process B config eng sender_config entry_size
              network event) as [tr [[[]|e]|]] eqn:Hprocess;
    [destruct checkpoint as [[]|e]| |]; cbn; split; auto.
  right. right. split; [reflexivity|].
  destruct (process_blocks B config eng sender_config entry_size network
              event tr Hprocess) as (Hzero & logs & Hlogs & Hbatches).
  split; [exact Hzero|]. exists logs. split; assumption.
Qed.

(** ** The checkpoint store (local_checkpoint.py) *)

Section CheckpointStore.
Import LocalCheckpoint.
Variable B : Builtins.
Variable base_dir : place.

Lemma append_cancel_l (p x y : string) :
  String.append p x = String.append p y -> x = y.
Proof.
  induction p as [|c p IH]; simpl; [trivial|].
  intros H. apply IH. injection H as H. exact H.
Qed.

(** A text without a slash is one piece. *)
Lemma split_without_slash (s : string) :
  contains "/" s = false -> split "/" s = [s].
Proof.
  induction s as [|a s IH]; [reflexivity|].
  cbn [contains String.prefix split].
  destruct (ascii_dec "/" a) as [<-|Hne]; [destruct s; discriminate|].
  cbn [orb]. intros Hs.
  replace (Ascii.eqb a "/") with false
    by (symmetry; apply Ascii.eqb_neq; congruence).
  rewrite (IH Hs). reflexivity.
Qed.

(** The directory of a partition whose id has no slash is one name. *)
Lemma partition_dir_plain (p : string) :
  contains "/" p = false ->
  _get_partition_dir B (VStr p) = [String.append "partition_" p].
Proof.
  intros Hp. unfold _get_partition_dir, components. cbn [str_of].
  rewrite split_without_slash; [reflexivity|].
  simpl. exact Hp.
Qed.

(** Two partitions have two files. *)
Lemma checkpoint_file_injective (a b : string) :
  contains "/" a = false -> contains "/" b = false ->
  checkpoint_file B base_dir (VStr a) = checkpoint_file B base_dir (VStr b) ->
  a = b.
Proof.
  intros Ha Hb. unfold checkpoint_file.
  rewrite (partition_dir_plain a Ha), (partition_dir_plain b Hb).
  intros H. apply app_inv_head in H. injection H as H.
  apply append_cancel_l in H. exact H.
Qed.

(** Following names arrives at the same place when more directories are
    there. *)
Lemma walk_mono (fs fs' : FileSystem) (names : list string) (cur target : place) :
  (forall x, fs !! x = Some Directory -> fs' !! x = Some Directory) ->
  walk fs cur names = Ok target ->
  walk fs' cur names = Ok target.
Proof.
  intros Hdirs. revert cur.
  induction names as [|c rest IH]; intros cur; cbn [walk]; [trivial|].
  destruct (fs !! cur) as [[|content]|] eqn:Hcur; try discriminate.
  rewrite (Hdirs cur Hcur). apply IH.
Qed.

(** What an update that returned has done: the directory of the partition
    is there, made if it was missing, and the file holds the
    checkpoint. *)
Lemma update_checkpoint_returned (items : list (string * value))
    (partition_id offset sequence_number : value) (fs fs1 : FileSystem) :
  assoc "partition_id" items = Some partition_id ->
  assoc "offset" items = Some offset ->
  assoc "sequence_number" items = Some sequence_number ->
  update_checkpoint B base_dir (VDict items) fs = (fs1, Ok tt) ->
  exists (dir file : place) (fs' : FileSystem),
    walk fs base_dir (_get_partition_dir B partition_id) = Ok dir
    /\ fs' !! dir = Some Directory
    /\ (forall x, x <> dir -> fs' !! x = fs !! x)
    /\ (forall x, fs !! x = Some Directory -> fs' !! x = Some Directory)
    /\ (forall x c, fs' !! x = Some (File c) <-> fs !! x = Some (File c))
    /\ walk fs' base_dir (_get_partition_dir B partition_id ++ ["checkpoint.json"])
       = Ok file
    /\ fs' !! file <> Some Directory
    /\ fs1 = <[file := File (Written offset sequence_number)]> fs'.
Proof.
  intros Hp Ho Hs.
  unfold update_checkpoint, mbind, lift, py_getitem. rewrite Hp.
  unfold mkdir_exist_ok at 1.
  destruct (walk fs base_dir (_get_partition_dir B partition_id))
    as [dir|e] eqn:Hdir; [|discriminate].
  destruct (fs !! dir) as [[|c]|] eqn:Hnode; [| discriminate |].
  - unfold open_w at 1.
    destruct (walk fs base_dir
                (_get_partition_dir B partition_id ++ ["checkpoint.json"]))
      as [file|e] eqn:Hfile; [|discriminate].
    rewrite Ho, Hs. unfold write.
    destruct (fs !! file) as [[|c]|] eqn:Hfnode; [discriminate| |];
      rewrite insert_insert_eq; intros Heq; injection Heq as <-;
      exists dir, file, fs; rewrite ?Hfnode;
      (split; [first [reflexivity | exact Hdir]|]; split; [exact Hnode|];
       split; [reflexivity|]; split; [trivial|];
       split; [reflexivity|]; split; [first [reflexivity | exact Hfile]|];
       split; [rewrite ?Hfnode; discriminate | reflexivity]).
  - unfold open_w at 1.
    destruct (walk (<[dir := Directory]> fs) base_dir
                (_get_partition_dir B partition_id ++ ["checkpoint.json"]))
      as [file|e] eqn:Hfile; [|discriminate].
    rewrite Ho, Hs. unfold write.
    assert (Hfiles : forall x c,
              <[dir := Directory]> fs !! x = Some (File c)
              <-> fs !! x = Some (File c)).
    { intros x c. destruct (decide (x = dir)) as [->|Hne].
      - rewrite lookup_insert_eq, Hnode. split; discriminate.
      - rewrite lookup_insert_ne by congruence. reflexivity. }
    assert (Hdirs : forall x, fs !! x = Some Directory ->
                              <[dir := Directory]> fs !! x = Some Directory).
    { intros x Hx. destruct (decide (x = dir)) as [->|Hne].
      - apply lookup_insert_eq.
      - rewrite lookup_insert_ne by congruence. exact Hx. }
    destruct (<[dir := Directory]> fs !! file) as [[|c]|] eqn:Hfnode;
      [discriminate| |];
      rewrite insert_insert_eq; intros Heq; injection Heq as <-;
      exists dir, file, (<[dir := Directory]> fs); rewrite ?Hfnode;
      (split; [first [reflexivity | exact Hdir]|];
       split; [apply lookup_insert_eq|];
       split; [intros x Hx; apply lookup_insert_ne; congruence|];
       split; [exact Hdirs|]; split; [exact Hfiles|];
       split; [first [reflexivity | exact Hfile]|];
       split; [rewrite ?Hfnode; discriminate | reflexivity]).
Qed.

(** In the store that an update has left, the next update for the same
    partition finds its directory and opens the same file. *)
Lemma update_checkpoint_again (items : list (string * value))
    (partition_id offset sequence_number : value) (fs fs1 : FileSystem) :
  assoc "partition_id" items = Some partition_id ->
  assoc "offset" items = Some offset ->
  assoc "sequence_number" items = Some sequence_number ->
  update_checkpoint B base_dir (VDict items) fs = (fs1, Ok tt) ->
  exists file : place,
    fs1 !! file = Some (File (Written offset sequence_number))
    /\ (forall x c, x <> file ->
          fs1 !! x = Some (File c) <-> fs !! x = Some (File c))
    /\ mkdir_exist_ok base_dir (_get_partition_dir B partition_id) fs1
       = (fs1, Ok tt)
    /\ open_w base_dir (_get_partition_dir B partition_id ++ ["checkpoint.json"]) fs1
       = (<[file := File Truncated]> fs1, Ok file)
    /\ (contains "/" (str_of B partition_id) = false ->
        file = checkpoint_file B base_dir partition_id).
Proof.
  intros Hp Ho Hs Hupdate.
  destruct (update_checkpoint_returned items partition_id offset
              sequence_number fs fs1 Hp Ho Hs Hupdate)
    as (dir & file & fs' & Hdir & Hnode & _ & Hdirs & Hfiles & Hfile & Hnot & ->).
  assert (Hne : dir <> file) by (intros ->; contradiction).
  assert (Hdirs1 : forall x, fs' !! x = Some Directory ->
            <[file := File (Written offset sequence_number)]> fs' !! x
            = Some Directory).
  { intros x Hx. rewrite lookup_insert_ne; [exact Hx|].
    intros <-. contradiction. }
  exists file. split; [apply lookup_insert_eq|]. split; [|split; [|split]].
  - intros x c Hx. rewrite lookup_insert_ne by congruence. apply Hfiles.
  - unfold mkdir_exist_ok.
    rewrite (walk_mono fs _ _ _ dir (fun x Hx => Hdirs1 x (Hdirs x Hx)) Hdir).
    rewrite (Hdirs1 dir Hnode). reflexivity.
  - unfold open_w. rewrite (walk_mono fs' _ _ _ file Hdirs1 Hfile).
    rewrite lookup_insert_eq. reflexivity.
  - intros Hplain. unfold checkpoint_file.
    unfold _get_partition_dir, components in Hfile |- *.
    rewrite split_without_slash in Hfile |- * by (simpl; exact Hplain).
    simpl List.filter in Hfile |- *. cbn [walk app] in Hfile.
    destruct (fs' !! base_dir) as [[|c]|]; try discriminate Hfile.
    simpl String.eqb in Hfile.
    destruct (fs' !! (base_dir ++ [String.append "partition_" (str_of B partition_id)]))
      as [[|c]|]; try discriminate Hfile.
    injection Hfile as <-. rewrite <- app_assoc. reflexivity.
Qed.

(** An update for a partition whose id has no slash changes nothing but
    the directory of the partition and the file in it. *)
Lemma update_checkpoint_elsewhere (items : list (string * value))
    (partition : string) (fs : FileSystem) (x : place) :
  assoc "partition_id" items = Some (VStr partition) ->
  contains "/" partition = false ->
  x <> base_dir ++ [String.append "partition_" partition] ->
  x <> base_dir ++ [String.append "partition_" partition; "checkpoint.json"] ->
  fst (update_checkpoint B base_dir (VDict items) fs) !! x = fs !! x.
Proof.
  intros Hp Hplain Hdir Hfile.
  unfold update_checkpoint, mbind, lift, py_getitem. rewrite Hp.
  rewrite (partition_dir_plain partition Hplain).
  unfold mkdir_exist_ok, open_w, write. cbn [walk app].
  simpl String.eqb.
  destruct (fs !! base_dir) as [[|c]|] eqn:Hbase; try reflexivity.
  destruct (fs !! (base_dir ++ [String.append "partition_" partition]))
    as [[|c]|] eqn:Hnode; try reflexivity.
  - rewrite Hbase, Hnode. rewrite <- app_assoc. cbn [app].
    destruct (fs !! (base_dir ++ [String.append "partition_" partition;
                                  "checkpoint.json"])) as [[|c]|];
      try reflexivity;
      destruct (assoc "offset" items);
      try (cbn [fst]; rewrite !lookup_insert_ne by congruence; reflexivity);
      destruct (assoc "sequence_number" items);
      cbn [fst]; rewrite !lookup_insert_ne by congruence; reflexivity.
  - assert (Hbase' : <[base_dir ++ [String.append "partition_" partition]
                        := Directory]> fs !! base_dir = Some Directory).
    { rewrite lookup_insert_ne; [exact Hbase|].
      intros H. apply (f_equal length) in H. rewrite length_app in H.
      cbn in H. lia. }
    rewrite Hbase', lookup_insert_eq. rewrite <- app_assoc. cbn [app].
    destruct (<[base_dir ++ [String.append "partition_" partition]
                := Directory]> fs
              !! (base_dir ++ [String.append "partition_" partition;
                               "checkpoint.json"])) as [[|c]|];
      try (cbn [fst]; rewrite !lookup_insert_ne by congruence; reflexivity);
      destruct (assoc "offset" items);
      try (cbn [fst]; rewrite !lookup_insert_ne by congruence; reflexivity);
      destruct (assoc "sequence_number" items);
      cbn [fst]; rewrite !lookup_insert_ne by congruence; reflexivity.
Qed.

(** In a store whose base directory is there, an update for a partition
    whose id has no slash goes through, unless a regular file is in the
    place of the directory or a directory in the place of the file. *)
Lemma update_checkpoint_returns (items : list (string * value))
    (partition : string) (offset sequence_number : value) (fs : FileSystem) :
  assoc "partition_id" items = Some (VStr partition) ->
  assoc "offset" items = Some offset ->
  assoc "sequence_number" items = Some sequence_number ->
  contains "/" partition = false ->
  fs !! base_dir = Some Directory ->
  (forall c, fs !! (base_dir ++ _get_partition_dir B (VStr partition))
             <> Some (File c)) ->
  fs !! checkpoint_file B base_dir (VStr partition) <> Some Directory ->
  update_checkpoint B base_dir (VDict items) fs
  = (<[checkpoint_file B base_dir (VStr partition)
       := File (Written offset sequence_number)]>
       (<[base_dir ++ _get_partition_dir B (VStr partition) := Directory]> fs),
     Ok tt).
Proof.
  intros Hp Ho Hs Hplain Hbase Hdir Hfile.
  unfold update_checkpoint, checkpoint_file, mbind, lift, py_getitem in *.
  rewrite Hp, Ho, Hs.
  rewrite (partition_dir_plain partition Hplain) in *.
  unfold mkdir_exist_ok, open_w, write. cbn [walk app] in *.
  simpl String.eqb. rewrite Hbase.
  assert (Hne : base_dir ++ [String.append "partition_" partition] <> base_dir).
  { intros H. apply (f_equal length) in H. rewrite length_app in H.
    cbn in H. lia. }
  assert (Hne' : base_dir ++ [String.append "partition_" partition]
                 <> base_dir ++ [String.append "partition_" partition;
                                 "checkpoint.json"]).
  { intros H. apply app_inv_head in H. discriminate H. }
  destruct (fs !! (base_dir ++ [String.append "partition_" partition]))
    as [[|c]|] eqn:Hnode; [| exfalso; exact (Hdir c eq_refl) |].
  - rewrite Hbase, Hnode, <- app_assoc. cbn [app].
    rewrite (insert_id fs _ _ Hnode).
    destruct (fs !! (base_dir ++ [String.append "partition_" partition;
                                  "checkpoint.json"])) as [[|c]|];
      [contradiction| |]; rewrite insert_insert_eq; reflexivity.
  - rewrite lookup_insert_ne by exact Hne.
    rewrite Hbase, lookup_insert_eq, <- app_assoc. cbn [app].
    rewrite lookup_insert_ne by exact Hne'.
    destruct (fs !! (base_dir ++ [String.append "partition_" partition;
                                  "checkpoint.json"])) as [[|c]|];
      [contradiction| |]; rewrite insert_insert_eq; reflexivity.
Qed.

End CheckpointStore.

(** X9: two updates in a row for one partition leave one checkpoint for
    it, that of the second update.  In a store whose base directory is
    there, an update for a partition whose id has no slash goes through: it
    makes the directory partition_<id> when it is missing and writes
    checkpoint.json in it (it fails only where a regular file is in the
    place of the directory, or a directory in the place of the file).
    And when an update for a partition has gone through, whatever the id,
    the next update for that partition goes through too and changes one
    file only, the file that the first update wrote: it now holds the
    offset and the sequence number of the second update and nothing of the
    first; the first update changed no other file either. *)
Theorem update_checkpoint_last_write_wins (B : Builtins)
    (base_dir : list string) (first second : list (string * value))
    (partition_id offset1 sequence1 offset2 sequence2 : value) :
  assoc "partition_id" first = Some partition_id ->
  assoc "offset" first = Some offset1 ->
  assoc "sequence_number" first = Some sequence1 ->
  assoc "partition_id" second = Some partition_id ->
  assoc "offset" second = Some offset2 ->
  assoc "sequence_number" second = Some sequence2 ->
  (forall (partition : string) (fs : LocalCheckpoint.FileSystem),
     partition_id = VStr partition ->
     contains "/" partition = false ->
     fs !! base_dir = Some LocalCheckpoint.Directory ->
     (forall c, fs !! (base_dir ++ LocalCheckpoint._get_partition_dir B partition_id)
                <> Some (LocalCheckpoint.File c)) ->
     fs !! LocalCheckpoint.checkpoint_file B base_dir partition_id
       <> Some LocalCheckpoint.Directory ->
     LocalCheckpoint.update_checkpoint B base_dir (VDict first) fs
     = (<[LocalCheckpoint.checkpoint_file B base_dir partition_id
          := LocalCheckpoint.File (LocalCheckpoint.Written offset1 sequence1)]>
          (<[base_dir ++ LocalCheckpoint._get_partition_dir B partition_id
             := LocalCheckpoint.Directory]> fs),
        Ok tt))
  /\ (forall fs fs1 : LocalCheckpoint.FileSystem,
       LocalCheckpoint.update_checkpoint B base_dir (VDict first) fs
         = (fs1, Ok tt) ->
       exists file : list string,
         fs1 !! file
           = Some (LocalCheckpoint.File
                     (LocalCheckpoint.Written offset1 sequence1))
         /\ (forall x c, x <> file ->
               fs1 !! x = Some (LocalCheckpoint.File c)
               <-> fs !! x = Some (LocalCheckpoint.File c))
         /\ LocalCheckpoint.update_checkpoint B base_dir (VDict second) fs1
            = (<[file := LocalCheckpoint.File
                           (LocalCheckpoint.Written offset2 sequence2)]> fs1,
               Ok tt)
         /\ (contains "/" (str_of B partition_id) = false ->
             file = LocalCheckpoint.checkpoint_file B base_dir partition_id)).
Proof.
  intros Hp1 Ho1 Hs1 Hp2 Ho2 Hs2. split.
  - intros partition fs -> Hplain Hbase Hdir Hfile.
    apply (update_checkpoint_returns B base_dir first partition offset1
             sequence1 fs Hp1 Ho1 Hs1 Hplain Hbase Hdir Hfile).
  - intros fs fs1 Hfirst.
    destruct (update_checkpoint_again B base_dir first partition_id offset1
                sequence1 fs fs1 Hp1 Ho1 Hs1 Hfirst)
      as (file & Hheld & Hothers & Hmkdir & Hopen & Hplain).
    exists file. split; [exact Hheld|]. split; [exact Hothers|].
    split; [|exact Hplain].
    unfold LocalCheckpoint.update_checkpoint, mbind, lift, py_getitem.
    rewrite Hp2, Hmkdir, Hopen, Ho2, Hs2. unfold LocalCheckpoint.write.
    rewrite insert_insert_eq. reflexivity.
Qed.

(** Offsets 10 then 20 for partition 0 in a store just made: both updates
    go through and the file holds 20. *)
Lemma update_checkpoint_last_write_wins_witness :
  LocalCheckpoint.update_checkpoint (Demo.builtins VNone) ["ckpt"]
    (VDict DemoStore.checkpoint_10) DemoStore.fresh
  = (DemoStore.with_partition_0, Ok tt)
  /\ exists file : list string,
       LocalCheckpoint.update_checkpoint (Demo.builtins VNone) ["ckpt"]
         (VDict DemoStore.checkpoint_20) DemoStore.with_partition_0
       = (<[file := LocalCheckpoint.File
                      (LocalCheckpoint.Written (VStr "20") (VInt 2))]>
            DemoStore.with_partition_0, Ok tt)
       /\ file = ["ckpt"; "partition_0"; "checkpoint.json"].
Proof.
  destruct (update_checkpoint_last_write_wins (Demo.builtins VNone) ["ckpt"]
              DemoStore.checkpoint_10 DemoStore.checkpoint_20
              (VStr "0") (VStr "10") (VInt 1) (VStr "20") (VInt 2)
              eq_refl eq_refl eq_refl eq_refl eq_refl eq_refl)
    as (Hreturns & Hagain).
  split.
  - refine (eq_trans (Hreturns "0" DemoStore.fresh eq_refl eq_refl _ _ _) _).
    + vm_compute. reflexivity.
    + intros c. vm_compute. discriminate.
    + vm_compute. discriminate.
    + vm_compute. reflexivity.
  - destruct (Hagain DemoStore.fresh DemoStore.with_partition_0
                ltac:(vm_compute; reflexivity))
      as (file & _ & _ & Hsecond & Hplain).
    exists file. split; [exact Hsecond|]. apply Hplain. reflexivity.
Defined.

(** X10: an update for one partition leaves the checkpoint of every other
    partition as it was (partition ids being single path components, that
    is without a slash). *)
Theorem update_checkpoint_other_partition (B : Builtins)
    (base_dir : list string)
    (items : list (string * value)) (partition other : string)
    (offset sequence_number : value)
    (fs : LocalCheckpoint.FileSystem) :
  assoc "partition_id" items = Some (VStr partition) ->
  assoc "offset" items = Some offset ->
  assoc "sequence_number" items = Some sequence_number ->
  contains "/" partition = false ->
  contains "/" other = false ->
  other <> partition ->
  fst (LocalCheckpoint.update_checkpoint B base_dir (VDict items) fs)
    !! LocalCheckpoint.checkpoint_file B base_dir (VStr other)
  = fs !! LocalCheckpoint.checkpoint_file B base_dir (VStr other).
Proof.
  intros Hp _ _ Hplain Hother Hne.
  apply (update_checkpoint_elsewhere B base_dir items partition fs _ Hp Hplain).
  - unfold LocalCheckpoint.checkpoint_file.
    rewrite (partition_dir_plain B other Hother).
    intros H. apply app_inv_head in H. discriminate H.
  - unfold LocalCheckpoint.checkpoint_file.
    rewrite (partition_dir_plain B other Hother).
    intros H. apply app_inv_head in H. injection H as H.
    apply append_cancel_l in H. congruence.
Qed.

(** Partition 1 was at offset 7; partition 0 is updated. *)
Lemma update_checkpoint_other_partition_witness :
  fst (LocalCheckpoint.update_checkpoint (Demo.builtins VNone) ["ckpt"]
         (VDict DemoStore.checkpoint_20) DemoStore.with_partition_1)
    !! ["ckpt"; "partition_1"; "checkpoint.json"]
  = Some (LocalCheckpoint.File (LocalCheckpoint.Written (VStr "7") (VInt 7))).
Proof.
  refine (eq_trans
    (update_checkpoint_other_partition (Demo.builtins VNone) ["ckpt"]
       DemoStore.checkpoint_20 "0" "1" (VStr "20") (VInt 2)
       DemoStore.with_partition_1
       eq_refl eq_refl eq_refl eq_refl eq_refl ltac:(discriminate)) _).
  vm_compute. reflexivity.
Defined.

(** X11: an update without a partition id raises [KeyError] and touches
    nothing.  An update that names its partition but lacks the offset or
    the sequence number never returns normally; after an update of that
    partition that went through, it finds the directory, opens the file
    for writing and raises [KeyError] with the file open: the checkpoint
    that the file held is lost, the file is left empty, and nothing else
    changes. *)
Theorem update_checkpoint_missing_key (B : Builtins) (base_dir : list string)
    (items : list (string * value)) (fs : LocalCheckpoint.FileSystem) :
  (assoc "partition_id" items = None ->
   LocalCheckpoint.update_checkpoint B base_dir (VDict items) fs
   = (fs, Raise KeyError))
  /\ (assoc "offset" items = None \/ assoc "sequence_number" items = None ->
      snd (LocalCheckpoint.update_checkpoint B base_dir (VDict items) fs)
      <> Ok tt)
  /\ (forall (earlier : list (string * value))
        (partition_id offset sequence_number : value)
        (fs0 : LocalCheckpoint.FileSystem),
        assoc "partition_id" earlier = Some partition_id ->
        assoc "offset" earlier = Some offset ->
        assoc "sequence_number" earlier = Some sequence_number ->
        LocalCheckpoint.update_checkpoint B base_dir (VDict earlier) fs0
          = (fs, Ok tt) ->
        assoc "partition_id" items = Some partition_id ->
        assoc "offset" items = None \/ assoc "sequence_number" items = None ->
        exists file : list string,
          fs !! file
            = Some (LocalCheckpoint.File
                      (LocalCheckpoint.Written offset sequence_number))
          /\ LocalCheckpoint.update_checkpoint B base_dir (VDict items) fs
             = (<[file := LocalCheckpoint.File LocalCheckpoint.Truncated]> fs,
                Raise KeyError)
          /\ (contains "/" (str_of B partition_id) = false ->
              file = LocalCheckpoint.checkpoint_file B base_dir partition_id)).
Proof.
  split; [|split].
  - intros Hp. unfold LocalCheckpoint.update_checkpoint, mbind, lift, py_getitem.
    rewrite Hp. reflexivity.
  - intros Hmissing.
    unfold LocalCheckpoint.update_checkpoint, mbind, lift, py_getitem.
    destruct (assoc "partition_id" items) as [pid|]; [|discriminate].
    destruct (LocalCheckpoint.mkdir_exist_ok base_dir
                (LocalCheckpoint._get_partition_dir B pid) fs) as [fs' [[]|e]];
      [|discriminate].
    destruct (LocalCheckpoint.open_w base_dir
                (LocalCheckpoint._get_partition_dir B pid ++ ["checkpoint.json"])
                fs') as [fs'' [f|e]]; [|discriminate].
    destruct (assoc "offset" items) as [o|]; [|discriminate].
    destruct Hmissing as [H|H]; [discriminate H|]. rewrite H. discriminate.
  - intros earlier partition_id offset sequence_number fs0 Hp0 Ho0 Hs0 Hearlier
      Hp Hmissing.
    destruct (update_checkpoint_again B base_dir earlier partition_id offset
                sequence_number fs0 fs Hp0 Ho0 Hs0 Hearlier)
      as (file & Hheld & _ & Hmkdir & Hopen & Hplain).
    exists file. split; [exact Hheld|]. split; [|exact Hplain].
    unfold LocalCheckpoint.update_checkpoint, mbind, lift, py_getitem.
    rewrite Hp, Hmkdir, Hopen.
    destruct (assoc "offset" items) as [o|] eqn:Ho; [|reflexivity].
    destruct Hmissing as [H|H]; [discriminate H|]. rewrite H. reflexivity.
Qed.

(** Partition 0 was at offset 10; an update without offset empties its
    file. *)
Lemma update_checkpoint_missing_key_witness :
  exists file : list string,
    LocalCheckpoint.update_checkpoint (Demo.builtins VNone) ["ckpt"]
      (VDict DemoStore.checkpoint_without_offset) DemoStore.with_partition_0
    = (<[file := LocalCheckpoint.File LocalCheckpoint.Truncated]>
         DemoStore.with_partition_0, Raise KeyError)
    /\ file = ["ckpt"; "partition_0"; "checkpoint.json"].
Proof.
  destruct (proj2 (proj2 (update_checkpoint_missing_key (Demo.builtins VNone)
              ["ckpt"] DemoStore.checkpoint_without_offset
              DemoStore.with_partition_0))
            DemoStore.checkpoint_10 (VStr "0") (VStr "10") (VInt 1)
            DemoStore.fresh eq_refl eq_refl eq_refl
            ltac:(vm_compute; reflexivity) eq_refl (or_introl eq_refl))
    as (file & _ & Hupdate & Hplain).
  exists file. split; [exact Hupdate|]. apply Hplain. reflexivity.
Defined.

(** ** Resource identifiers that are not text (mapping.py) *)

(** X12: [extract_resource_id_attributes] records the identifier under
    azure.resource.id whatever its type.  An identifier that is an array is
    recorded and nothing else happens; for a number, a boolean, null or an
    object the error handler itself fails on [resource_id[:200]] and the
    exception leaves the function. *)
Theorem extract_resource_id_attributes_not_text (resource_id : value)
    (parsed : gmap string value) :
  value_is_str resource_id = false ->
  fst (Mapping.extract_resource_id_attributes resource_id parsed)
    = <[Mapping.RESOURCE_ID_ATTRIBUTE := resource_id]> parsed
  /\ is_ok (snd (Mapping.extract_resource_id_attributes resource_id parsed))
     = negb (RecordSpec.not_sliceable resource_id).
Proof.
  intros Htext. destruct resource_id; try discriminate Htext; split; reflexivity.
Qed.

(** An identifier that is the number 5. *)
Lemma extract_resource_id_attributes_not_text_witness :
  fst (Mapping.extract_resource_id_attributes (VInt 5) ∅)
    = <[Mapping.RESOURCE_ID_ATTRIBUTE := VInt 5]> ∅
  /\ is_ok (snd (Mapping.extract_resource_id_attributes (VInt 5) ∅)) = false.
Proof.
  exact (extract_resource_id_attributes_not_text (VInt 5) ∅ eq_refl).
Defined.

(** ** Severity of any record (mapping.py) *)

Lemma map_to_severity_returns (record : value) (level : string)
    (parsed : gmap string value) :
  snd (Mapping.map_to_severity record level parsed) = Ok tt.
Proof.
  unfold Mapping.map_to_severity, try_catch, mbind, lift, getstate, setitem.
  destruct (py_getitem record level) as [raw|e]; [|reflexivity].
  destruct (as_int raw); cbn beta iota;
    match goal with
    | |- context [Mapping.check_known_severity ?v] =>
        destruct (Mapping.check_known_severity v) as [[]|]
    end; reflexivity.
Qed.

Lemma extract_severity_returns (record : value) (parsed : gmap string value) :
  snd (Mapping.extract_severity record parsed) = Ok tt.
Proof.
  unfold Mapping.extract_severity, try_catch, mbind, lift.
  destruct (Mapping.first_level_property Mapping.azure_level_properties record)
    as [[level|]|e]; try reflexivity.
  destruct (Mapping.map_to_severity record level parsed) as [p [[]|e]];
    reflexivity.
Qed.

(** X13: [extract_severity] never raises, and it always leaves a severity
    in the entry; on a record that is not an object (text, an array, a
    number) the severity is Informational. *)
Theorem extract_severity_total (record : value) (parsed : gmap string value) :
  snd (Mapping.extract_severity record parsed) = Ok tt
  /\ is_Some (fst (Mapping.extract_severity record parsed) !! "severity")
  /\ ((forall items, record <> VDict items) ->
      fst (Mapping.extract_severity record parsed)
      = <["severity" := VStr "Informational"]> parsed).
Proof.
  assert (Hnot : (forall items, record <> VDict items) ->
            Mapping.extract_severity record parsed
            = (<["severity" := VStr "Informational"]> parsed, Ok tt)).
  { intros Hrec. destruct record; try reflexivity. now destruct (Hrec items). }
  destruct record as [| | | | | |items];
    try (rewrite Hnot by discriminate; cbn [fst snd];
         rewrite lookup_insert_eq; split; [|split]; eauto).
  clear Hnot.
  unfold Mapping.extract_severity, try_catch, mbind, lift.
  cbn [Mapping.first_level_property Mapping.azure_level_properties in_keys bind].
  assert (Hmap : forall level,
    snd (Mapping.map_to_severity (VDict items) level parsed) = Ok tt
    /\ is_Some (fst (Mapping.map_to_severity (VDict items) level parsed)
                  !! "severity")).
  { intros level. split; [apply map_to_severity_returns|].
    unfold Mapping.map_to_severity, try_catch, mbind, lift, getstate, setitem.
    destruct (py_getitem (VDict items) level) as [raw|e];
      [|cbn; rewrite lookup_insert_eq; eauto].
    destruct (as_int raw); cbn beta iota;
      match goal with
      | |- context [Mapping.check_known_severity ?v] =>
          destruct (Mapping.check_known_severity v) as [[]|]
      end; cbn [fst]; rewrite lookup_insert_eq; eauto. }
  destruct (has_key "Level" items); cbn beta iota.
  - destruct (Hmap "Level") as [Hs Hk].
    destruct (Mapping.map_to_severity (VDict items) "Level" parsed) as [p r].
    cbn in Hs, Hk. subst r. cbn. split; [reflexivity|]. split; [exact Hk|].
    intros Hrec. now destruct (Hrec items).
  - destruct (has_key "level" items); cbn beta iota.
    + destruct (Hmap "level") as [Hs Hk].
      destruct (Mapping.map_to_severity (VDict items) "level" parsed) as [p r].
      cbn in Hs, Hk. subst r. cbn. split; [reflexivity|]. split; [exact Hk|].
      intros Hrec. now destruct (Hrec items).
    + cbn. rewrite lookup_insert_eq. split; [reflexivity|]. split; [eauto|].
      intros Hrec. now destruct (Hrec items).
Qed.

(** A record that is text. *)
Lemma extract_severity_total_witness :
  Mapping.extract_severity (VStr "not a record") ∅
  = ({[ "severity" := VStr "Informational" ]}, Ok tt).
Proof.
  pose proof (extract_severity_total (VStr "not a record") ∅) as (Hs & _ & Hp).
  specialize (Hp ltac:(discriminate)).
  destruct (Mapping.extract_severity (VStr "not a record") ∅) as [p r].
  cbn [fst snd] in Hs, Hp. rewrite Hs, Hp. reflexivity.
Defined.

(** ** The properties field of a record (custom_processor.py) *)

Section Deserialize.
Import CustomProcessor RecordSpec.
Variable B : Builtins.

Lemma assoc_set_same (k : string) (v : value) (items : list (string * value)) :
  assoc k (assoc_set k v items) = Some v.
Proof.
  induction items as [|[k' v'] items IH]; cbn [assoc_set assoc].
  - rewrite String.eqb_refl. reflexivity.
  - destruct (String.eqb k' k) eqn:Hk; cbn [assoc].
    + rewrite String.eqb_refl. reflexivity.
    + rewrite Hk. exact IH.
Qed.

Lemma assoc_set_other (k k' : string) (v : value)
    (items : list (string * value)) :
  k' <> k -> assoc k' (assoc_set k v items) = assoc k' items.
Proof.
  intros Hne. induction items as [|[k0 v0] items IH]; cbn [assoc_set assoc].
  - destruct (String.eqb_spec k k'); [congruence | reflexivity].
  - destruct (String.eqb_spec k0 k) as [->|Hk0]; cbn [assoc].
    + destruct (String.eqb_spec k k'); [congruence | reflexivity].
    + destruct (String.eqb k0 k'); [reflexivity | exact IH].
Qed.

Lemma first_present_alias (items : list (string * value)) :
  first_present Mapping.azure_properties_names (VDict items)
  = Ok (first_alias items).
Proof.
  unfold first_alias.
  cbn [first_present Mapping.azure_properties_names py_in bind].
  destruct (has_key "properties" items); [reflexivity|].
  destruct (has_key "EventProperties" items); reflexivity.
Qed.

Lemma first_alias_key (items : list (string * value)) (k : string) :
  first_alias items = Some k ->
  (k = "properties" \/ k = "EventProperties") /\ is_Some (assoc k items).
Proof.
  unfold first_alias, has_key.
  destruct (assoc "properties" items) eqn:H1.
  - intros [= <-]. rewrite H1. eauto.
  - destruct (assoc "EventProperties" items) eqn:H2; [|discriminate].
    intros [= <-]. rewrite H2. eauto.
Qed.

End Deserialize.

(** X14: on a record that is an object, [_deserialize_properties] looks at
    one field only, the first of properties and EventProperties that is a
    key of the record.  When that field is text that decodes as JSON, the
    field holds the decoded value afterwards and every other field is as
    before; when it is missing, is not text, or does not decode, the record
    is unchanged.  No exception leaves the function unless the decoder
    raises something other than a decoding error. *)
Theorem deserialize_properties_spec (B : Builtins)
    (items : list (string * value)) :
  match RecordSpec.first_alias items with
  | None => CustomProcessor._deserialize_properties B (VDict items) = Ok (VDict items)
  | Some k =>
      match assoc k items with
      | Some (VStr text) =>
          match json_loads B true text with
          | Ok decoded =>
              exists items',
                CustomProcessor._deserialize_properties B (VDict items)
                  = Ok (VDict items')
                /\ assoc k items' = Some decoded
                /\ (forall k', k' <> k -> assoc k' items' = assoc k' items)
          | Raise JSONDecodeError =>
              CustomProcessor._deserialize_properties B (VDict items)
                = Ok (VDict items)
          | Raise e =>
              CustomProcessor._deserialize_properties B (VDict items) = Raise e
          end
      | _ => CustomProcessor._deserialize_properties B (VDict items)
               = Ok (VDict items)
      end
  end.
Proof.
  unfold CustomProcessor._deserialize_properties.
  rewrite first_present_alias. cbn [bind].
  destruct (RecordSpec.first_alias items) as [k|]; [|reflexivity].
  cbn [py_get bind].
  destruct (assoc k items) as [v|]; cbn [default]; unfold id; [|reflexivity].
  destruct v as [| | | |text| |]; try reflexivity.
  destruct (json_loads B true text) as [decoded|e].
  - exists (CustomProcessor.assoc_set k decoded items).
    split; [reflexivity|]. split; [apply assoc_set_same|].
    intros k' Hk'. apply assoc_set_other. exact Hk'.
  - destruct e; reflexivity.
Qed.

(** ** Records that are dropped (custom_processor.py) *)

Lemma extract_resource_id_attributes_not_text_raise (resource_id : value)
    (parsed : gmap string value) :
  RecordSpec.not_sliceable resource_id = true ->
  exists parsed' e,
    Mapping.extract_resource_id_attributes resource_id parsed
    = (parsed', Raise e).
Proof.
  intros Hbad. destruct resource_id; try discriminate Hbad;
    eexists; eexists; reflexivity.
Qed.

Lemma deserialize_keeps_other_fields (B : Builtins)
    (items : list (string * value)) (record' : value) (k' : string) :
  CustomProcessor._deserialize_properties B (VDict items) = Ok record' ->
  k' <> "properties" -> k' <> "EventProperties" ->
  exists items', record' = VDict items' /\ assoc k' items' = assoc k' items.
Proof.
  intros Hok Hk1 Hk2.
  unfold CustomProcessor._deserialize_properties in Hok.
  rewrite first_present_alias in Hok. cbn [bind] in Hok.
  destruct (RecordSpec.first_alias items) as [k|] eqn:Halias;
    [|injection Hok as <-; eauto].
  destruct (first_alias_key items k Halias) as [Hk _].
  cbn [py_get bind] in Hok.
  destruct (assoc k items) as [v|]; cbn [default] in Hok; unfold id in Hok;
    [|injection Hok as <-; eauto].
  destruct v as [| | | |text| |]; try (injection Hok as <-; eauto).
  destruct (json_loads B true text) as [decoded|e].
  - cbn [CustomProcessor.py_setitem] in Hok. injection Hok as <-.
    eexists. split; [reflexivity|]. apply assoc_set_other.
    destruct Hk as [->| ->]; assumption.
  - destruct e; try discriminate Hok. injection Hok as <-. eauto.
Qed.

(** X15: a record whose resourceId is a number, a boolean, null or an
    object is dropped: the exception that leaves
    [extract_resource_id_attributes] is caught by [_process_record], which
    returns [None] for the whole record. *)
Theorem process_record_drops_non_text_resource_id (B : Builtins)
    (config : CustomProcessor.Config) (eng : MetadataEngine.Engine)
    (items : list (string * value)) (resource_id : value) :
  assoc "resourceId" items = Some resource_id ->
  RecordSpec.not_sliceable resource_id = true ->
  CustomProcessor._process_record B config eng (VDict items) = None.
Proof.
  intros Hid Hbad. unfold CustomProcessor._process_record.
  destruct (CustomProcessor._deserialize_properties B (VDict items))
    as [record'|e] eqn:Hdes; [|reflexivity].
  destruct (deserialize_keeps_other_fields B items record' "resourceId" Hdes)
    as (items' & -> & Hid'); [discriminate | discriminate |].
  rewrite Hid in Hid'. cbn [bind].
  unfold CustomProcessor._build_parsed_record. cbv zeta.
  unfold mbind at 1.
  pose proof (extract_severity_returns (VDict items')
                {["cloud.provider" := VStr "Azure"]}) as Hsev.
  destruct (Mapping.extract_severity (VDict items')
              {["cloud.provider" := VStr "Azure"]}) as [p1 r1].
  cbn [snd] in Hsev. subst r1.
  unfold mbind at 1. unfold CustomProcessor._extract_resource_info.
  unfold mbind at 1. unfold lift at 1. cbn [py_in].
  unfold has_key. rewrite Hid'.
  unfold mbind at 1. unfold lift at 1. cbn [py_getitem]. rewrite Hid'.
  destruct (extract_resource_id_attributes_not_text_raise resource_id p1 Hbad)
    as (p2 & e & ->).
  reflexivity.
Qed.

(** A record whose resourceId is the number 5. *)
Lemma process_record_drops_non_text_resource_id_witness :
  CustomProcessor._process_record (Demo.builtins VNone) Demo.config Demo.engine
    (VDict [("resourceId", VInt 5); ("Level", VInt 2)]) = None.
Proof.
  apply (process_record_drops_non_text_resource_id (Demo.builtins VNone)
           Demo.config Demo.engine
           [("resourceId", VInt 5); ("Level", VInt 2)] (VInt 5));
    reflexivity.
Defined.

(** ** What every entry holds (custom_processor.py) *)

Section KeepsKeys.
Import RecordSpec.

Lemma keeps_setitem (k : string) (v : value) : keeps_keys (setitem k v).
Proof.
  intros parsed k' Hk'. unfold setitem. cbn [fst].
  destruct (decide (k = k')) as [->|Hne].
  - rewrite lookup_insert_eq. eauto.
  - rewrite lookup_insert_ne by exact Hne. exact Hk'.
Qed.

Lemma keeps_ret {A : Type} (a : A) : keeps_keys (ret a).
Proof. intros parsed k Hk. exact Hk. Qed.

Lemma keeps_lift {A : Type} (r : result A) : keeps_keys (lift r).
Proof. intros parsed k Hk. exact Hk. Qed.

Lemma keeps_getstate : keeps_keys (@getstate (gmap string value)).
Proof. intros parsed k Hk. exact Hk. Qed.

Lemma keeps_mbind {A C : Type} (m : M (gmap string value) A)
    (f : A -> M (gmap string value) C) :
  keeps_keys m -> (forall a, keeps_keys (f a)) -> keeps_keys (mbind m f).
Proof.
  intros Hm Hf parsed k Hk. unfold mbind.
  specialize (Hm parsed k Hk).
  destruct (m parsed) as [p [a|e]]; cbn [fst] in *; [|exact Hm].
  apply Hf. exact Hm.
Qed.

Lemma keeps_try_catch {A : Type} (m : M (gmap string value) A)
    (h : exn -> M (gmap string value) A) :
  keeps_keys m -> (forall e, keeps_keys (h e)) -> keeps_keys (try_catch m h).
Proof.
  intros Hm Hh parsed k Hk. unfold try_catch.
  specialize (Hm parsed k Hk).
  destruct (m parsed) as [p [a|e]]; cbn [fst] in *; [exact Hm|].
  apply Hh. exact Hm.
Qed.

Lemma keeps_map_to_severity (record : value) (level : string) :
  keeps_keys (Mapping.map_to_severity record level).
Proof.
  unfold Mapping.map_to_severity.
  apply keeps_try_catch; [|intros; apply keeps_setitem].
  apply keeps_mbind; [apply keeps_lift|]. intros raw.
  apply keeps_mbind; [destruct (as_int raw); apply keeps_setitem|]. intros _.
  apply keeps_mbind; [apply keeps_getstate|]. intros p. apply keeps_lift.
Qed.

Lemma keeps_extract_severity (record : value) :
  keeps_keys (Mapping.extract_severity record).
Proof.
  unfold Mapping.extract_severity.
  apply keeps_try_catch; [|intros; apply keeps_setitem].
  apply keeps_mbind; [apply keeps_lift|]. intros [level|];
    [apply keeps_map_to_severity | apply keeps_setitem].
Qed.

Lemma extract_severity_has_severity (record : value)
    (parsed : gmap string value) :
  is_Some (fst (Mapping.extract_severity record parsed) !! "severity").
Proof.
  assert (Hset : forall v p, is_Some (fst (setitem "severity" v p) !! "severity")).
  { intros v p. cbn. rewrite lookup_insert_eq. eauto. }
  unfold Mapping.extract_severity, try_catch, mbind, lift.
  destruct (Mapping.first_level_property Mapping.azure_level_properties record)
    as [[level|]|e]; try apply Hset.
  destruct (Mapping.map_to_severity record level parsed) as [p [[]|e]] eqn:Hmap;
    [|apply Hset].
  cbn [fst]. revert Hmap.
  unfold Mapping.map_to_severity, try_catch, mbind, lift, getstate, setitem.
  destruct (py_getitem record level) as [raw|e].
  - destruct (as_int raw); cbn beta iota;
      match goal with
      | |- context [Mapping.check_known_severity ?v] =>
          destruct (Mapping.check_known_severity v) as [[]|]
      end; intros [= <-]; cbn; rewrite ?lookup_insert_eq; eauto.
  - intros [= <-]. cbn. rewrite lookup_insert_eq. eauto.
Qed.

Lemma keeps_extract_resource_id_attributes (resource_id : value) :
  keeps_keys (Mapping.extract_resource_id_attributes resource_id).
Proof.
  unfold Mapping.extract_resource_id_attributes.
  apply keeps_try_catch; [|intros; apply keeps_lift].
  apply keeps_mbind; [apply keeps_setitem|]. intros _.
  apply keeps_mbind; [apply keeps_lift|]. intros stripped. cbv zeta.
  apply keeps_mbind; [apply keeps_lift|]. intros _.
  repeat match goal with
         | |- keeps_keys (if ?c then _ else _) => destruct c
         end; try apply keeps_ret.
  repeat (apply keeps_mbind; [apply keeps_setitem|]; intros _).
  apply keeps_setitem.
Qed.

Lemma keeps_extract_resource_info (record : value) :
  keeps_keys (CustomProcessor._extract_resource_info record).
Proof.
  unfold CustomProcessor._extract_resource_info.
  apply keeps_mbind; [apply keeps_lift|]. intros [|]; [|apply keeps_ret].
  apply keeps_mbind; [apply keeps_lift|]. intros resource_id.
  apply keeps_extract_resource_id_attributes.
Qed.

Variable B : Builtins.

Lemma keeps_apply_attributes (attrs : list MetadataEngine.Attribute)
    (raw_record : value) :
  keeps_keys (MetadataEngine.apply_attributes B attrs raw_record).
Proof.
  induction attrs as [|attr attrs IH]; cbn [MetadataEngine.apply_attributes];
    [apply keeps_ret|].
  apply keeps_mbind; [|intros _; exact IH].
  unfold MetadataEngine.apply_attribute.
  apply keeps_try_catch; [|intros; apply keeps_ret].
  apply keeps_mbind; [apply keeps_lift|].
  intros []; first [apply keeps_ret | apply keeps_setitem].
Qed.

Lemma keeps_apply_first (rs : list MetadataEngine.ConfigRule) (record : value) :
  keeps_keys (MetadataEngine.apply_first B rs record).
Proof.
  induction rs as [|rule rs IH]; cbn [MetadataEngine.apply_first];
    [apply keeps_ret|].
  apply keeps_mbind; [apply keeps_getstate|]. intros parsed.
  destruct (MetadataEngine._is_rule_applicable B rule record parsed); [|exact IH].
  apply keeps_mbind; [apply keeps_apply_attributes | intros; apply keeps_ret].
Qed.

Lemma keeps_engine_apply (eng : MetadataEngine.Engine) (record : value) :
  keeps_keys (MetadataEngine.apply B eng record).
Proof.
  unfold MetadataEngine.apply.
  apply keeps_try_catch; [|intros; apply keeps_ret].
  apply keeps_mbind; [apply keeps_apply_first|]. intros [|]; [apply keeps_ret|].
  destruct (MetadataEngine.default_rule eng);
    [apply keeps_apply_attributes | apply keeps_ret].
Qed.

Lemma keeps_convert_timestamp : keeps_keys (CustomProcessor._convert_timestamp B).
Proof.
  unfold CustomProcessor._convert_timestamp.
  apply keeps_mbind; [apply keeps_getstate|]. intros record.
  destruct (record !! "timestamp"); [|apply keeps_ret].
  apply keeps_mbind; [apply keeps_lift | intros; apply keeps_setitem].
Qed.

End KeepsKeys.

(** X16: provided the entity inference removes no key, every entry that
    [_process_record] returns has the provider tag and a severity: the two
    are set first and no later step (resource attributes, rules, timestamp,
    field limits) removes a key. *)
Theorem process_record_entry_has_provider_and_severity (B : Builtins)
    (config : CustomProcessor.Config) (eng : MetadataEngine.Engine)
    (record : value) (entry : gmap string string) :
  (forall category, RecordSpec.keeps_keys (infer_monitored_entity_id B category)) ->
  CustomProcessor._process_record B config eng record = Some entry ->
  is_Some (entry !! "cloud.provider") /\ is_Some (entry !! "severity").
Proof.
  intros Hinfer. unfold CustomProcessor._process_record.
  destruct (CustomProcessor._deserialize_properties B record) as [record'|e];
    [|discriminate].
  cbn [bind]. unfold CustomProcessor._build_parsed_record. cbv zeta.
  match goal with
  | |- context [Py.mbind (Mapping.extract_severity record') ?k] => set (rest := k)
  end.
  assert (Hrest : forall u, RecordSpec.keeps_keys (rest u)).
  { intros u. subst rest. cbv beta.
    apply keeps_mbind; [apply keeps_extract_resource_info|]. intros _.
    apply keeps_mbind; [apply keeps_engine_apply|]. intros _.
    apply keeps_mbind; [apply keeps_convert_timestamp|]. intros _.
    apply keeps_mbind; [apply keeps_lift|]. intros category. apply Hinfer. }
  unfold mbind at 1.
  pose proof (extract_severity_has_severity record'
                {["cloud.provider" := VStr "Azure"]}) as Hsev.
  pose proof (keeps_extract_severity record'
                {["cloud.provider" := VStr "Azure"]} "cloud.provider"
                ltac:(rewrite lookup_singleton_eq; eauto)) as Hprov.
  destruct (Mapping.extract_severity record'
              {["cloud.provider" := VStr "Azure"]}) as [p1 [u|e]];
    [|discriminate].
  cbn [fst] in Hsev, Hprov.
  pose proof (Hrest u p1 "severity" Hsev) as Hsev'.
  pose proof (Hrest u p1 "cloud.provider" Hprov) as Hprov'.
  destruct (rest u p1) as [parsed [u'|e]]; [|discriminate].
  cbn [fst bind] in *. intros [= <-].
  unfold CustomProcessor._apply_field_limits. rewrite !map_lookup_imap.
  destruct Hsev' as [v1 ->]. destruct Hprov' as [v2 ->]. cbn. eauto.
Qed.

(** A record with a level, in a runtime whose inference does nothing. *)
Lemma process_record_entry_has_provider_and_severity_witness :
  is_Some (Demo.good_entry !! "cloud.provider")
  /\ is_Some (Demo.good_entry !! "severity").
Proof.
  apply (process_record_entry_has_provider_and_severity (Demo.builtins VNone)
           Demo.config Demo.engine Demo.good_record Demo.good_entry).
  - intros category parsed k Hk. exact Hk.
  - vm_compute. reflexivity.
Defined.

(** ** Timestamps of any type (custom_processor.py) *)

Lemma strptime_raises_only_ValueError (data format : string) (e : exn) :
  Datetime.strptime data format = Raise e -> e = ValueError.
Proof.
  unfold Datetime.strptime.
  destruct (Datetime.parse_format format) as [ds|]; [|congruence].
  destruct (Datetime.run ds data Datetime.fields0) as [|[f rest] l]; [congruence|].
  destruct rest; [|congruence].
  destruct (Datetime.valid_fields f); congruence.
Qed.

Lemma parse_datetime_from_text (B : Builtins) (patterns : list string)
    (ts : string) :
  exists iso, CustomProcessor.parse_datetime_from B patterns (VStr ts) = Ok iso.
Proof.
  induction patterns as [|pattern rest IH];
    cbn [CustomProcessor.parse_datetime_from CustomProcessor.pattern_match bind
         CustomProcessor.py_strptime]; [eauto|].
  destruct (Re.re_match pattern ts); [|exact IH].
  destruct (Datetime.strptime ts (CustomProcessor._get_format pattern))
    as [dt|e] eqn:Hparse; [eauto|].
  rewrite (strptime_raises_only_ValueError _ _ _ Hparse). exact IH.
Qed.

(** X17: [_parse_datetime] never raises on text: whatever the text, it
    returns a text (a converted timestamp or the current time).  On a
    timestamp that is not text (a number, null, an object) it raises
    [TypeError].  So [_convert_timestamp] leaves an entry without timestamp
    as it is, replaces a textual timestamp by a text, and raises on any
    other timestamp without changing the entry. *)
Theorem convert_timestamp_spec (B : Builtins) (parsed : gmap string value) :
  match parsed !! "timestamp" with
  | None => CustomProcessor._convert_timestamp B parsed = (parsed, Ok tt)
  | Some (VStr ts) =>
      exists iso,
        CustomProcessor._parse_datetime B (VStr ts) = Ok iso
        /\ CustomProcessor._convert_timestamp B parsed
           = (<["timestamp" := VStr iso]> parsed, Ok tt)
  | Some v =>
      CustomProcessor._parse_datetime B v = Raise TypeError
      /\ CustomProcessor._convert_timestamp B parsed = (parsed, Raise TypeError)
  end.
Proof.
  unfold CustomProcessor._convert_timestamp, mbind, getstate, lift, setitem.
  destruct (parsed !! "timestamp") as [v|]; [|reflexivity].
  destruct v as [| | | |ts| |]; try (split; reflexivity).
  destruct (parse_datetime_from_text B CustomProcessor.time_patterns ts)
    as [iso Hiso].
  exists iso. unfold CustomProcessor._parse_datetime. rewrite Hiso.
  split; reflexivity.
Qed.

(** ** The body of an event (custom_processor.py) *)

(** X18: [_parse_event_body] on a body that decodes to an object returns
    its records field, or an empty list when there is none, without trying
    the lenient decoding; on a body that decodes to anything else (an
    array, a number, text) it raises [AttributeError]; on a body that does
    not decode it falls back to the lenient decoding and never raises. *)
Theorem parse_event_body_spec (B : Builtins) (body : string) :
  match json_loads B true body with
  | Ok (VDict items) =>
      CustomProcessor._parse_event_body B body
      = Ok (default (VList []) (assoc "records" items))
  | Ok _ => CustomProcessor._parse_event_body B body = Raise AttributeError
  | Raise JSONDecodeError =>
      is_ok (CustomProcessor._parse_event_body B body) = true
  | Raise e => CustomProcessor._parse_event_body B body = Raise e
  end.
Proof.
  unfold CustomProcessor._parse_event_body.
  destruct (json_loads B true body) as [doc|e].
  - destruct doc; reflexivity.
  - destruct e; try reflexivity.
    cbn [bind]. unfold CustomProcessor._attempt_fallback_parsing, try_except.
    match goal with
    | |- context [json_loads B false ?s] =>
        destruct (json_loads B false s) as [doc|e]
    end; [|reflexivity].
    cbn [bind]. destruct (py_get doc "records" (VList [])); reflexivity.
Qed.

(** X19: [extract_logs] raises only through its own error handler: if
    [event.get] works on the event, [extract_logs] never raises, whatever
    the body; if the event has no such method and the body decodes to
    something that is not an object, the exception of the handler leaves
    [extract_logs]. *)
Theorem extract_logs_raises_only_in_handler (B : Builtins)
    (config : CustomProcessor.Config) (eng : MetadataEngine.Engine)
    (event : CustomProcessor.Event) :
  (is_ok (CustomProcessor.get_offset event) = true ->
   is_ok (CustomProcessor.extract_logs B config eng event) = true)
  /\ (forall body doc e,
        CustomProcessor.body_as_str event = Ok body ->
        body <> "" ->
        json_loads B true body = Ok doc ->
        (forall items, doc <> VDict items) ->
        CustomProcessor.get_offset event = Raise e ->
        CustomProcessor.extract_logs B config eng event = Raise e).
Proof.
  split.
  - intros Hget. unfold CustomProcessor.extract_logs, try_except,
      CustomProcessor._log_event_error.
    match goal with
    | |- is_ok (match ?inner with _ => _ end) = true => destruct inner as [logs|e]
    end; [reflexivity|].
    destruct (CustomProcessor.get_offset event); [reflexivity | discriminate Hget].
  - intros body doc e Hbody Hne Hdoc Hnot Hget.
    unfold CustomProcessor.extract_logs, try_except,
      CustomProcessor._log_event_error.
    rewrite Hbody. cbn [bind]. destruct body as [|c body]; [congruence|].
    unfold CustomProcessor._parse_event_body. rewrite Hdoc.
    destruct doc; try (cbn; rewrite Hget; reflexivity).
    now destruct (Hnot items).
Qed.

(** An event of the stream client, which has no [get], whose body decodes
    to an empty array. *)
Lemma extract_logs_raises_only_in_handler_witness :
  CustomProcessor.extract_logs (Demo.builtins (VList [])) Demo.config
    Demo.engine Demo.event = Raise AttributeError.
Proof.
  apply (proj2 (extract_logs_raises_only_in_handler (Demo.builtins (VList []))
                  Demo.config Demo.engine Demo.event) "body" (VList [])
               AttributeError eq_refl ltac:(discriminate) eq_refl
               ltac:(discriminate) eq_refl).
Defined.

(** ** Month-first timestamps (custom_processor.py) *)

Section MonthFirst.
Import Re Datetime TimestampText.
Local Open Scope nat_scope.

Lemma digit_char_spec (n : nat) :
  is_digit (digit_char n) = true /\ digit_val (digit_char n) = n mod 10.
Proof.
  unfold digit_char.
  assert (Hk : n mod 10 < 10) by (apply Nat.mod_upper_bound; lia).
  generalize dependent (n mod 10). intros k Hk.
  do 10 (destruct k as [|k]; [split; reflexivity|]). lia.
Qed.

Lemma hd_error_app_l {A : Type} (l1 l2 : list A) (x : A) :
  hd_error l1 = Some x -> hd_error (l1 ++ l2) = Some x.
Proof. destruct l1; [discriminate | trivial]. Qed.

Lemma two_digits_pad2 (ok : nat -> nat -> bool) (n : nat) (rest : string) :
  n < 100 -> ok (n / 10) (n mod 10) = true ->
  two_digits ok (String.append (pad2 n) rest) = [(n, rest)].
Proof.
  intros Hn Hok.
  change (String.append (pad2 n) rest)
    with (String (digit_char (n / 10)) (String (digit_char n) rest)).
  unfold two_digits.
  destruct (digit_char_spec (n / 10)) as [-> ->].
  destruct (digit_char_spec n) as [-> ->].
  rewrite (Nat.mod_small (n / 10) 10)
    by (apply Nat.Div0.div_lt_upper_bound; lia).
  rewrite Hok. cbn [andb]. do 2 f_equal.
  pose proof (Nat.div_mod_eq n 10). lia.
Qed.

Lemma alts_Y_pad4 (n : nat) (rest : string) :
  (Z.of_nat n <= 9999)%Z -> alts_Y (String.append (pad4 n) rest) = [(n, rest)].
Proof.
  intros Hn.
  change (String.append (pad4 n) rest)
    with (String (digit_char (n / 1000)) (String (digit_char (n / 100))
            (String (digit_char (n / 10)) (String (digit_char n) rest)))).
  unfold alts_Y.
  destruct (digit_char_spec (n / 1000)) as [-> ->].
  destruct (digit_char_spec (n / 100)) as [-> ->].
  destruct (digit_char_spec (n / 10)) as [-> ->].
  destruct (digit_char_spec n) as [-> ->].
  cbn [andb]. do 2 f_equal.
  rewrite (Nat.mod_small (n / 1000) 10)
    by (apply Nat.Div0.div_lt_upper_bound; lia).
  assert (E1 : n / 10 / 10 = n / 100) by (rewrite Nat.Div0.div_div; reflexivity).
  assert (E2 : n / 100 / 10 = n / 1000) by (rewrite Nat.Div0.div_div; reflexivity).
  pose proof (Nat.div_mod_eq n 10) as H1.
  pose proof (Nat.div_mod_eq (n / 10) 10) as H2.
  pose proof (Nat.div_mod_eq (n / 100) 10) as H3.
  rewrite E1 in H2. rewrite E2 in H3. lia.
Qed.

(** The conditions of the numeric directives on fields within range. *)
Lemma ok_month (n : nat) :
  1 <= n <= 12 ->
  (Nat.eqb (n / 10) 1 && (n mod 10 <=? 2))
  || (Nat.eqb (n / 10) 0 && (1 <=? n mod 10)) = true.
Proof. intros Hn. do 13 (destruct n as [|n]; [try lia; reflexivity|]). lia. Qed.

Lemma ok_day (n : nat) :
  1 <= n <= 31 ->
  (Nat.eqb (n / 10) 3 && (n mod 10 <=? 1))
  || ((1 <=? n / 10) && (n / 10 <=? 2))
  || (Nat.eqb (n / 10) 0 && (1 <=? n mod 10)) = true.
Proof. intros Hn. do 32 (destruct n as [|n]; [try lia; reflexivity|]). lia. Qed.

Lemma ok_hour (n : nat) :
  n <= 23 -> (Nat.eqb (n / 10) 2 && (n mod 10 <=? 3)) || (n / 10 <=? 1) = true.
Proof. intros Hn. do 24 (destruct n as [|n]; [reflexivity|]). lia. Qed.

Lemma ok_minute (n : nat) : n <= 59 -> (n / 10 <=? 5) = true.
Proof. intros Hn. do 60 (destruct n as [|n]; [reflexivity|]). lia. Qed.

Lemma ok_second (n : nat) :
  n <= 59 -> (Nat.eqb (n / 10) 6 && (n mod 10 <=? 1)) || (n / 10 <=? 5) = true.
Proof. intros Hn. do 60 (destruct n as [|n]; [reflexivity|]). lia. Qed.

Lemma days_in_month_le_31 (y m : nat) : days_in_month y m <= 31.
Proof.
  unfold days_in_month.
  do 12 (destruct m as [|m]; [try destruct (is_leap y); lia|]). lia.
Qed.

Lemma valid_fields_bounds (f : fields) :
  valid_fields f = true ->
  1 <= year f /\ 1 <= month f <= 12 /\ 1 <= day f <= 31
  /\ hour f <= 23 /\ minute f <= 59 /\ second f <= 59.
Proof.
  unfold valid_fields. rewrite !andb_true_iff, !Nat.leb_le.
  pose proof (days_in_month_le_31 (year f) (month f)). lia.
Qed.

End MonthFirst.

Section MonthFirstParsing.
Import Re Datetime TimestampText.
Local Open Scope nat_scope.

Lemma digit_char_not_space (n : nat) : is_space (digit_char n) = false.
Proof.
  unfold digit_char.
  assert (Hk : n mod 10 < 10) by (apply Nat.mod_upper_bound; lia).
  generalize dependent (n mod 10). intros k Hk.
  do 10 (destruct k as [|k]; [reflexivity|]). lia.
Qed.

Lemma run_Dirm (ds : list directive) (n : nat) (rest : string) (acc : fields)
    (r : fields * string) :
  1 <= n <= 12 ->
  hd_error (run ds rest {| year := year acc; month := n; day := day acc;
                           hour := hour acc; minute := minute acc;
                           second := second acc |}) = Some r ->
  hd_error (run (Dirm :: ds) (String.append (pad2 n) rest) acc) = Some r.
Proof.
  intros Hn Hr. cbn [run]. unfold alts_m.
  rewrite two_digits_pad2 by (try lia; apply ok_month; lia).
  cbn [app flat_map fst snd]. apply hd_error_app_l. exact Hr.
Qed.

Lemma run_Dird (ds : list directive) (n : nat) (rest : string) (acc : fields)
    (r : fields * string) :
  1 <= n <= 31 ->
  hd_error (run ds rest {| year := year acc; month := month acc; day := n;
                           hour := hour acc; minute := minute acc;
                           second := second acc |}) = Some r ->
  hd_error (run (Dird :: ds) (String.append (pad2 n) rest) acc) = Some r.
Proof.
  intros Hn Hr. cbn [run]. unfold alts_d.
  rewrite two_digits_pad2 by (try lia; apply ok_day; lia).
  cbn [app flat_map fst snd]. apply hd_error_app_l. exact Hr.
Qed.

Lemma run_DirY (ds : list directive) (n : nat) (rest : string) (acc : fields)
    (r : fields * string) :
  (Z.of_nat n <= 9999)%Z ->
  hd_error (run ds rest {| year := n; month := month acc; day := day acc;
                           hour := hour acc; minute := minute acc;
                           second := second acc |}) = Some r ->
  hd_error (run (DirY :: ds) (String.append (pad4 n) rest) acc) = Some r.
Proof.
  intros Hn Hr. cbn [run]. rewrite alts_Y_pad4 by exact Hn.
  cbn [app flat_map fst snd]. apply hd_error_app_l. exact Hr.
Qed.

Lemma run_DirH (ds : list directive) (n : nat) (rest : string) (acc : fields)
    (r : fields * string) :
  n <= 23 ->
  hd_error (run ds rest {| year := year acc; month := month acc; day := day acc;
                           hour := n; minute := minute acc;
                           second := second acc |}) = Some r ->
  hd_error (run (DirH :: ds) (String.append (pad2 n) rest) acc) = Some r.
Proof.
  intros Hn Hr. cbn [run]. unfold alts_H.
  rewrite two_digits_pad2 by (try lia; apply ok_hour; lia).
  cbn [app flat_map fst snd]. apply hd_error_app_l. exact Hr.
Qed.

Lemma run_DirM (ds : list directive) (n : nat) (rest : string) (acc : fields)
    (r : fields * string) :
  n <= 59 ->
  hd_error (run ds rest {| year := year acc; month := month acc; day := day acc;
                           hour := hour acc; minute := n;
                           second := second acc |}) = Some r ->
  hd_error (run (DirM :: ds) (String.append (pad2 n) rest) acc) = Some r.
Proof.
  intros Hn Hr. cbn [run]. unfold alts_M.
  rewrite two_digits_pad2 by (try lia; apply ok_minute; lia).
  cbn [app flat_map fst snd]. apply hd_error_app_l. exact Hr.
Qed.

Lemma run_DirS (ds : list directive) (n : nat) (rest : string) (acc : fields)
    (r : fields * string) :
  n <= 59 ->
  hd_error (run ds rest {| year := year acc; month := month acc; day := day acc;
                           hour := hour acc; minute := minute acc;
                           second := n |}) = Some r ->
  hd_error (run (DirS :: ds) (String.append (pad2 n) rest) acc) = Some r.
Proof.
  intros Hn Hr. cbn [run]. unfold alts_S.
  rewrite two_digits_pad2 by (try lia; apply ok_second; lia).
  cbn [app flat_map fst snd]. apply hd_error_app_l. exact Hr.
Qed.

Lemma run_DirLit (ds : list directive) (c : ascii) (rest : string)
    (acc : fields) :
  run (DirLit c :: ds) (String c rest) acc = run ds rest acc.
Proof. cbn [run]. rewrite Ascii.eqb_refl. reflexivity. Qed.

Lemma run_DirSpace (ds : list directive) (n : nat) (rest : string)
    (acc : fields) (r : fields * string) :
  hd_error (run ds (String.append (pad2 n) rest) acc) = Some r ->
  hd_error (run (DirSpace :: ds) (String " " (String.append (pad2 n) rest)) acc)
  = Some r.
Proof.
  intros Hr. cbn [run].
  change (String.append (pad2 n) rest)
    with (String (digit_char (n / 10)) (String (digit_char n) rest)) in *.
  cbn [alts_space]. change (is_space " ") with true. cbn iota.
  rewrite digit_char_not_space. cbn [app flat_map].
  apply hd_error_app_l. exact Hr.
Qed.

(** Parsing what was printed gives the fields back. *)
Lemma strptime_slash_text (f : fields) :
  valid_fields f = true ->
  (Z.of_nat (year f) <= 9999)%Z ->
  strptime (slash_text f) "%m/%d/%Y %H:%M:%S" = Ok f.
Proof.
  intros Hvalid Hyear.
  destruct (valid_fields_bounds f Hvalid) as (Hy & Hm & Hd & HH & HM & HS).
  assert (Hrun : hd_error
            (run [Dirm; DirLit "/"; Dird; DirLit "/"; DirY; DirSpace;
                  DirH; DirLit ":"; DirM; DirLit ":"; DirS]
                 (slash_text f) fields0) = Some (f, EmptyString)).
  { unfold slash_text.
    apply run_Dirm; [exact Hm|]. rewrite run_DirLit.
    apply run_Dird; [exact Hd|]. rewrite run_DirLit.
    apply run_DirY; [exact Hyear|].
    apply run_DirSpace.
    apply run_DirH; [exact HH|]. rewrite run_DirLit.
    apply run_DirM; [exact HM|]. rewrite run_DirLit.
    change (pad2 (second f)) with (String.append (pad2 (second f)) "").
    apply run_DirS; [exact HS|].
    destruct f; reflexivity. }
  unfold strptime.
  replace (parse_format "%m/%d/%Y %H:%M:%S")
    with (Some [Dirm; DirLit "/"; Dird; DirLit "/"; DirY; DirSpace;
                DirH; DirLit ":"; DirM; DirLit ":"; DirS])
    by (vm_compute; reflexivity).
  destruct (run _ (slash_text f) fields0) as [|[f' rest] l]; [discriminate Hrun|].
  cbn [hd_error] in Hrun. injection Hrun as -> ->. rewrite Hvalid. reflexivity.
Qed.

Lemma slash_text_patterns (f : fields) :
  re_match TimestampSpec.dash_pattern (slash_text f) = false
  /\ re_match TimestampSpec.slash_pattern (slash_text f) = true.
Proof.
  unfold re_match.
  replace (compile TimestampSpec.dash_pattern)
    with [Digits 4; Lit "-"; Digits 2; Lit "-"; Digits 2; Lit " ";
          Digits 2; Lit ":"; Digits 2; Lit ":"; Digits 2]
    by (vm_compute; reflexivity).
  replace (compile TimestampSpec.slash_pattern)
    with [Digits 2; Lit "/"; Digits 2; Lit "/"; Digits 4; Lit " ";
          Digits 2; Lit ":"; Digits 2; Lit ":"; Digits 2]
    by (vm_compute; reflexivity).
  change (slash_text f) with
    (String (digit_char (month f / 10)) (String (digit_char (month f))
     (String "/"
     (String (digit_char (day f / 10)) (String (digit_char (day f))
     (String "/"
     (String (digit_char (year f / 1000)) (String (digit_char (year f / 100))
     (String (digit_char (year f / 10)) (String (digit_char (year f))
     (String " "
     (String (digit_char (hour f / 10)) (String (digit_char (hour f))
     (String ":"
     (String (digit_char (minute f / 10)) (String (digit_char (minute f))
     (String ":"
     (String (digit_char (second f / 10)) (String (digit_char (second f))
      EmptyString))))))))))))))))))).
  cbn [match_items match_digits].
  rewrite !(proj1 (digit_char_spec _)).
  change (is_digit "/") with false. cbn iota.
  rewrite !Ascii.eqb_refl. split; reflexivity.
Qed.

End MonthFirstParsing.

(** X20: a date and time printed month first, as "MM/DD/YYYY HH:MM:SS"
    with every field padded with zeros, is converted by [_parse_datetime]
    to the ISO-8601 text of the same date and time with milliseconds,
    "YYYY-MM-DDTHH:MM:SS.000", for every valid date and time of the years
    1 to 9999. *)
Theorem parse_datetime_month_first_round_trip (B : Builtins)
    (f : Datetime.fields) :
  Datetime.valid_fields f = true ->
  (Z.of_nat (Datetime.year f) <= 9999)%Z ->
  CustomProcessor._parse_datetime B (VStr (TimestampText.slash_text f))
  = Ok (Datetime.isoformat_milliseconds f).
Proof.
  intros Hvalid Hyear.
  destruct (slash_text_patterns f) as [Hdash Hslash].
  unfold CustomProcessor._parse_datetime, CustomProcessor.time_patterns.
  fold TimestampSpec.dash_pattern. fold TimestampSpec.slash_pattern.
  cbn [CustomProcessor.parse_datetime_from CustomProcessor.pattern_match bind].
  rewrite Hdash, Hslash.
  rewrite (proj2 get_format_of_both_patterns).
  cbn [CustomProcessor.py_strptime].
  rewrite (strptime_slash_text f Hvalid Hyear). reflexivity.
Qed.

(** The last day of February of a leap year. *)
Lemma parse_datetime_month_first_round_trip_witness :
  CustomProcessor._parse_datetime (Demo.builtins VNone)
    (VStr "02/29/2024 23:59:07")
  = Ok "2024-02-29T23:59:07.000".
Proof.
  apply (parse_datetime_month_first_round_trip (Demo.builtins VNone)
           {| Datetime.year := 2024; Datetime.month := 2; Datetime.day := 29;
              Datetime.hour := 23; Datetime.minute := 59;
              Datetime.second := 7 |}).
  - vm_compute. reflexivity.
  - vm_compute. discriminate.
Defined.

(** ** Source matchers (metadata_engine.py) *)

Lemma casefold_idempotent (s : string) : casefold (casefold s) = casefold s.
Proof.
  induction s as [|c s IH]; [reflexivity|]. cbn [casefold]. rewrite IH. f_equal.
  destruct c as [[] [] [] [] [] [] [] []]; reflexivity.
Qed.

(** X21: a matcher built from a source that is neither resourceType nor
    category (in whatever case), or from a condition that does not start
    with one of [$eq], [$in], [$prefix], [$contains] in lower case, or from
    a condition without a quoted operand, is invalid and matches no record
    at all. *)
Theorem invalid_source_matcher_never_matches (B : Builtins)
    (source condition : string) (record : value)
    (parsed_record : gmap string value) :
  MetadataEngine.lookup_extractor source = None
  \/ Forall (fun c => startswith condition (MetadataEngine.comparator_key c) = false)
            MetadataEngine._CONDITION_COMPARATOR_MAP
  \/ MetadataEngine.quoted_from None condition = [] ->
  MetadataEngine.valid (MetadataEngine.new_SourceMatcher source condition) = false
  /\ MetadataEngine.matcher_match B
       (MetadataEngine.new_SourceMatcher source condition) record parsed_record
     = false.
Proof.
  intros Hbad.
  assert (Hvalid : MetadataEngine.valid
                     (MetadataEngine.new_SourceMatcher source condition) = false).
  { unfold MetadataEngine.new_SourceMatcher. cbn [MetadataEngine.valid].
    destruct Hbad as [Hsrc|[Hop|Hq]].
    - rewrite Hsrc. reflexivity.
    - assert (Hfind : List.find
                (fun c => startswith condition (MetadataEngine.comparator_key c))
                MetadataEngine._CONDITION_COMPARATOR_MAP = None).
      { unfold MetadataEngine._CONDITION_COMPARATOR_MAP in *.
        repeat match goal with
               | H : Forall _ (_ :: _) |- _ =>
                   apply Forall_cons_1 in H; destruct H as [? H]
               end.
        cbn [List.find].
        repeat match goal with
               | H : startswith _ _ = false |- _ => rewrite H; clear H
               end.
        reflexivity. }
      rewrite Hfind. rewrite andb_false_r. reflexivity.
    - rewrite Hq. rewrite andb_false_r. reflexivity. }
  split; [exact Hvalid|].
  unfold MetadataEngine.matcher_match. rewrite Hvalid. reflexivity.
Qed.

(** The operator in capitals. *)
Lemma invalid_source_matcher_never_matches_witness :
  MetadataEngine.matcher_match Demo.echo_builtins
    (MetadataEngine.new_SourceMatcher "category" "$EQ('Administrative')")
    Demo.admin_record ∅ = false.
Proof.
  apply (proj2 (invalid_source_matcher_never_matches Demo.echo_builtins
                  "category" "$EQ('Administrative')" Demo.admin_record ∅
                  ltac:(right; left; repeat constructor))).
Defined.

(** X22: the four comparators ignore case: changing the case of the
    letters of the value or of the operand does not change the outcome. *)
Theorem comparators_ignore_case (B : Builtins) (cmp : MetadataEngine.comparator)
    (x y : string) :
  MetadataEngine.run_comparator B cmp (VStr (casefold x)) (casefold y)
  = MetadataEngine.run_comparator B cmp (VStr x) y.
Proof.
  destruct cmp; cbn [MetadataEngine.run_comparator];
    unfold MetadataEngine._eq_comparator, MetadataEngine._in_comparator,
      MetadataEngine._prefix_comparator, MetadataEngine._contains_comparator;
    cbn [str_of]; rewrite !casefold_idempotent; reflexivity.
Qed.

(** ** The [$in] comparator (metadata_engine.py) *)

Section InComparator.

Lemma split_nonempty (sep : ascii) (s : string) :
  exists w ws, split sep s = w :: ws.
Proof.
  induction s as [|a s (w & ws & IH)]; cbn [split]; [eauto|].
  destruct (Ascii.eqb a sep); [eauto|]. rewrite IH. eauto.
Qed.

Lemma split_app_sep (sep : ascii) (a b : string) :
  split sep (String.append a (String sep b)) = split sep a ++ split sep b.
Proof.
  induction a as [|c a IH].
  - change (split sep (String sep b) = [EmptyString] ++ split sep b).
    cbn [split app]. rewrite Ascii.eqb_refl. reflexivity.
  - change (split sep (String c (String.append a (String sep b)))
            = split sep (String c a) ++ split sep b).
    cbn [split]. rewrite IH.
    destruct (Ascii.eqb c sep); [reflexivity|].
    destruct (split_nonempty sep a) as (w & ws & ->). reflexivity.
Qed.

(** The texts joined by a separator and split again are the pieces of
    each text. *)
Lemma split_join (sep : ascii) (l : list string) :
  l <> [] ->
  split sep (join (String sep EmptyString) l) = concat (map (split sep) l).
Proof.
  intros Hl. induction l as [|x l IH]; [congruence|].
  destruct l as [|y l].
  - cbn. rewrite app_nil_r. reflexivity.
  - change (join (String sep EmptyString) (x :: y :: l))
      with (String.append x (String sep (join (String sep EmptyString) (y :: l)))).
    rewrite split_app_sep, IH by discriminate. reflexivity.
Qed.

Lemma casefold_append (a b : string) :
  casefold (String.append a b) = String.append (casefold a) (casefold b).
Proof. induction a as [|c a IH]; simpl; [reflexivity | rewrite IH; reflexivity]. Qed.

Lemma casefold_join (l : list string) :
  casefold (join "," l) = join "," (map casefold l).
Proof.
  induction l as [|x l IH]; [reflexivity|].
  destruct l as [|y l]; [reflexivity|].
  change (join "," (x :: y :: l))
    with (String.append x (String "," (join "," (y :: l)))).
  change (join "," (map casefold (x :: y :: l)))
    with (String.append (casefold x)
            (String "," (join "," (map casefold (y :: l))))).
  rewrite casefold_append. cbn [casefold]. rewrite IH. reflexivity.
Qed.

End InComparator.

(** X23: for an operand made of the quoted texts of a condition joined by
    commas, [_in_comparator] accepts a value exactly when its text, case
    aside, is one of the comma-separated pieces of one of those texts: a
    quoted text that itself contains commas stands for each of its
    pieces. *)
Theorem in_comparator_membership (B : Builtins) (x : value)
    (operands : list string) :
  operands <> [] ->
  MetadataEngine._in_comparator B x (join "," operands) = true
  <-> exists operand piece,
        In operand operands
        /\ In piece (split "," (casefold operand))
        /\ casefold (str_of B x) = piece.
Proof.
  intros Hne. unfold MetadataEngine._in_comparator.
  rewrite casefold_join, split_join by (destruct operands; [congruence|discriminate]).
  rewrite existsb_exists. split.
  - intros (piece & Hin & Heq). apply String.eqb_eq in Heq.
    apply in_concat in Hin as (pieces & Hpieces & Hpiece).
    apply in_map_iff in Hpieces as (folded & <- & Hfolded).
    apply in_map_iff in Hfolded as (operand & <- & Hop).
    exists operand, piece. auto.
  - intros (operand & piece & Hop & Hpiece & Heq).
    exists piece. split; [|apply String.eqb_eq; exact Heq].
    apply in_concat. exists (split "," (casefold operand)).
    split; [|exact Hpiece]. apply in_map, in_map. exact Hop.
Qed.

(** The operands of [$in('Security', 'Administrative')] and the category
    Administrative. *)
Lemma in_comparator_membership_witness :
  MetadataEngine._in_comparator Demo.echo_builtins (VStr "ADMINISTRATIVE")
    (join "," (MetadataEngine.quoted_from None "$in('Security', 'Administrative')"))
  = true.
Proof.
  apply (proj2 (in_comparator_membership Demo.echo_builtins
                  (VStr "ADMINISTRATIVE")
                  (MetadataEngine.quoted_from None
                     "$in('Security', 'Administrative')")
                  ltac:(vm_compute; discriminate))).
  exists "Administrative", "administrative".
  split; [right; left; reflexivity|].
  split; [left; reflexivity | reflexivity].
Defined.

(** ** Loading the rules (metadata_engine.py) *)

Section Loading.
Import RuleLoading.

Lemma create_sources_valid (sources_def : list value)
    (sources : list MetadataEngine.SourceMatcher) :
  _create_sources sources_def = Ok sources ->
  Forall (fun m => MetadataEngine.valid m = true) sources.
Proof.
  revert sources. induction sources_def as [|src rest IH]; intros sources.
  - cbn. intros [= <-]. constructor.
  - cbn [_create_sources].
    destruct (let? source := py_getitem src "source" in
              let? condition := py_getitem src "condition" in
              SourceMatcher_init source condition) as [matcher|e].
    + destruct (_create_sources rest) as [tl|e]; [|discriminate].
      cbn [bind]. specialize (IH tl eq_refl).
      destruct (MetadataEngine.valid matcher) eqn:Hv; intros [= <-];
        [constructor; assumption | assumption].
    + destruct e; try discriminate. apply IH.
Qed.

Lemma create_config_rule_valid (name rule_def : value) (r : LoadedRule) :
  is_default_name name = false ->
  _create_config_rule name rule_def = Some r ->
  has_valid_matchers r.
Proof.
  intros Hname. unfold _create_config_rule. rewrite Hname. cbn [negb andb].
  destruct (py_get rule_def "sources" (VList [])) as [sdef|]; [|discriminate].
  cbn [bind].
  destruct (CustomProcessor.py_iter sdef) as [sl|]; [|discriminate]. cbn [bind].
  destruct (_create_sources sl) as [sources|] eqn:Hs; [|discriminate]. cbn [bind].
  destruct (py_get rule_def "attributes" (VList [])) as [adef|]; [|discriminate].
  cbn [bind].
  destruct (CustomProcessor.py_iter adef) as [al|]; [|discriminate]. cbn [bind].
  destruct (_create_attributes al) as [attributes|]; [|discriminate]. cbn [bind].
  destruct sources as [|m ms]; [discriminate|]. intros [= <-].
  split; [discriminate|]. cbn [matchers]. exact (create_sources_valid sl _ Hs).
Qed.

Lemma omap_Forall {A C : Type} (f : A -> option C) (P : C -> Prop) (l : list A) :
  (forall a c, f a = Some c -> P c) -> Forall P (omap f l).
Proof.
  intros Hf. induction l as [|a l IH]; cbn; [constructor|].
  destruct (f a) as [c|] eqn:Hc; [constructor; eauto | exact IH].
Qed.

Lemma load_single_config_valid (config : value) (st : Loaded) :
  Forall has_valid_matchers (loaded_rules st) ->
  Forall has_valid_matchers (loaded_rules (_load_single_config config st)).
Proof.
  intros Hst. unfold _load_single_config.
  destruct (py_get config "name" VNone) as [name|] eqn:Hname; [|exact Hst].
  destruct (is_default_name name) eqn:Hdefault; [exact Hst|].
  unfold _process_config.
  destruct (py_get config "rules" (VList [])) as [rules_def|]; [|exact Hst].
  cbn [bind].
  destruct (CustomProcessor.py_iter rules_def) as [rules_list|]; [|exact Hst].
  cbn [bind].
  destruct config as [| | | | | |items]; try discriminate Hname.
  cbn [py_get bind loaded_rules]. cbn [py_get] in Hname.
  apply Forall_app. split; [exact Hst|].
  apply omap_Forall. intros rule_def r Hr.
  eapply create_config_rule_valid; [|exact Hr].
  injection Hname as <-.
  destruct (assoc "name" items) as [v|]; [exact Hdefault | reflexivity].
Qed.

End Loading.

(** X24: every matcher that [_create_sources] returns is valid: the
    definitions that lack a key and the matchers that are not valid are
    left out. *)
Theorem create_sources_only_valid (sources_def : list value)
    (sources : list MetadataEngine.SourceMatcher) :
  RuleLoading._create_sources sources_def = Ok sources ->
  Forall (fun m => MetadataEngine.valid m = true) sources
  /\ (length sources <= length sources_def)%nat.
Proof.
  intros Hs. split; [exact (create_sources_valid sources_def sources Hs)|].
  revert sources Hs. induction sources_def as [|src rest IH]; intros sources.
  - cbn. intros [= <-]. cbn. lia.
  - cbn [RuleLoading._create_sources].
    destruct (let? source := py_getitem src "source" in
              let? condition := py_getitem src "condition" in
              RuleLoading.SourceMatcher_init source condition) as [matcher|e].
    + destruct (RuleLoading._create_sources rest) as [tl|e]; [|discriminate].
      cbn [bind]. specialize (IH tl eq_refl).
      destruct (MetadataEngine.valid matcher); intros [= <-]; cbn [length]; lia.
    + destruct e; try discriminate. intros Hs. specialize (IH _ Hs).
      cbn [length]. lia.
Qed.

(** Three definitions: a sound one, one without condition, one with an
    unknown source. *)
Lemma create_sources_only_valid_witness :
  RuleLoading._create_sources
    [VDict [("source", VStr "category"); ("condition", VStr "$eq('Audit')")];
     VDict [("source", VStr "category")];
     VDict [("source", VStr "tenant"); ("condition", VStr "$eq('x')")]]
  = Ok [MetadataEngine.new_SourceMatcher "category" "$eq('Audit')"]
  /\ Forall (fun m => MetadataEngine.valid m = true)
       [MetadataEngine.new_SourceMatcher "category" "$eq('Audit')"].
Proof.
  split; [vm_compute; reflexivity|].
  apply (proj1 (create_sources_only_valid
    [VDict [("source", VStr "category"); ("condition", VStr "$eq('Audit')")];
     VDict [("source", VStr "category")];
     VDict [("source", VStr "tenant"); ("condition", VStr "$eq('x')")]]
    [MetadataEngine.new_SourceMatcher "category" "$eq('Audit')"]
    ltac:(vm_compute; reflexivity))).
Defined.

(** X25: whatever documents are loaded and in whatever order, every rule in
    the list of ordinary rules has at least one source matcher and only
    valid ones; a rule without a valid matcher is never kept there. *)
Theorem loaded_rules_have_valid_matchers (documents : list value) :
  Forall RuleLoading.has_valid_matchers
    (RuleLoading.loaded_rules (RuleLoading.load_all documents)).
Proof.
  unfold RuleLoading.load_all.
  assert (Hgen : forall st,
    Forall RuleLoading.has_valid_matchers (RuleLoading.loaded_rules st) ->
    Forall RuleLoading.has_valid_matchers
      (RuleLoading.loaded_rules
         (fold_left (fun st doc => RuleLoading._load_single_config doc st)
                    documents st))).
  { induction documents as [|doc docs IH]; intros st Hst; [exact Hst|].
    cbn [fold_left]. apply IH. apply load_single_config_valid. exact Hst. }
  apply Hgen. constructor.
Qed.

(** X26: a document named default never adds an ordinary rule; its default
    rule is built from the sources and attributes fields at the top level
    of the document, so a default document that has neither (whatever its
    rules field holds) gives a default rule without matcher and without
    attribute; and a default document whose attributes cannot be iterated
    over leaves the engine without default rule, whatever default rule was
    loaded before. *)
Theorem default_document_spec (items : list (string * value))
    (st : RuleLoading.Loaded) :
  assoc "name" items = Some (VStr "default") ->
  let st' := RuleLoading._load_single_config (VDict items) st in
  RuleLoading.loaded_rules st' = RuleLoading.loaded_rules st
  /\ (assoc "sources" items = None -> assoc "attributes" items = None ->
      RuleLoading.loaded_default st'
      = Some {| RuleLoading.entity := VStr "default";
                RuleLoading.matchers := [];
                RuleLoading.attrs := [] |})
  /\ (forall n, assoc "attributes" items = Some (VInt n) ->
                RuleLoading.loaded_default st' = None).
Proof.
  intros Hname. cbv zeta. unfold RuleLoading._load_single_config.
  cbn [py_get]. rewrite Hname. cbn [default RuleLoading.is_default_name
    value_eq_str String.eqb Ascii.eqb Bool.eqb RuleLoading.loaded_rules
    RuleLoading.loaded_default].
  split; [reflexivity|]. split.
  - intros Hs Ha. unfold RuleLoading._create_config_rule. cbn [py_get].
    rewrite Hs, Ha. reflexivity.
  - intros n Ha. unfold RuleLoading._create_config_rule. cbn [py_get].
    rewrite Ha. cbn [default bind].
    destruct (CustomProcessor.py_iter
                (default (VList []) (assoc "sources" items))) as [sl|];
      [|reflexivity].
    cbn [bind]. destruct (RuleLoading._create_sources sl); reflexivity.
Qed.

(** A default document shaped as a list of rules, loaded after a default
    rule with one attribute. *)
Lemma default_document_spec_witness :
  RuleLoading.loaded_default
    (RuleLoading._load_single_config
       (VDict [("name", VStr "default");
               ("rules", VList [VDict [("attributes",
                  VList [VDict [("key", VStr "k"); ("pattern", VStr "p")]])]])])
       {| RuleLoading.loaded_rules := [];
          RuleLoading.loaded_default :=
            Some {| RuleLoading.entity := VStr "default";
                    RuleLoading.matchers := [];
                    RuleLoading.attrs := [(VStr "k", VStr "p")] |} |})
  = Some {| RuleLoading.entity := VStr "default";
            RuleLoading.matchers := [];
            RuleLoading.attrs := [] |}.
Proof.
  apply (proj1 (proj2 (default_document_spec
    [("name", VStr "default");
     ("rules", VList [VDict [("attributes",
        VList [VDict [("key", VStr "k"); ("pattern", VStr "p")]])]])]
    {| RuleLoading.loaded_rules := [];
       RuleLoading.loaded_default :=
         Some {| RuleLoading.entity := VStr "default";
                 RuleLoading.matchers := [];
                 RuleLoading.attrs := [(VStr "k", VStr "p")] |} |}
    eq_refl)) eq_refl eq_refl).
Defined.

(** ** Partition workers (process_manager.py) *)

(** X27: on a manager that has started nothing yet, [start] creates one
    worker for every partition 0 .. partitions - 1, in that order; the
    configuration of worker i is the configuration of the hub with
    partition_id set to i, and none at all when the partition count is zero
    or less. *)
Theorem start_one_worker_per_partition (process_name : nat -> string)
    (created : nat) (hub_config : gmap string value) (n : Z) :
  hub_config !! "partitions" = Some (VInt n) ->
  exists m,
    ProcessManager.start process_name created
      {| ProcessManager.config := hub_config; ProcessManager.processes := [] |}
    = Ok m
    /\ ProcessManager.config m = hub_config
    /\ length (ProcessManager.processes m) = Z.to_nat n
    /\ (forall i, (i < Z.to_nat n)%nat ->
          exists p,
            ProcessManager.processes m !! i = Some p
            /\ ProcessManager.is_alive p = true
            /\ ProcessManager.consumer_config p !! "partition_id"
               = Some (VInt (Z.of_nat i))
            /\ (forall k, k <> "partition_id" ->
                  ProcessManager.consumer_config p !! k = hub_config !! k)).
Proof.
  intros Hn. unfold ProcessManager.start. cbn [ProcessManager.config].
  rewrite Hn. cbn [as_int ProcessManager.processes app].
  eexists. split; [reflexivity|]. cbn [ProcessManager.config ProcessManager.processes].
  split; [reflexivity|]. split; [rewrite length_map, length_seq; reflexivity|].
  intros i Hi. eexists. split.
  - rewrite list_lookup_fmap. rewrite lookup_seq_lt by exact Hi. reflexivity.
  - cbn [ProcessManager.is_alive ProcessManager.consumer_config].
    unfold ProcessManager._build_process_config. cbn [ProcessManager.config].
    split; [reflexivity|]. split; [apply lookup_insert_eq|].
    intros k Hk. apply lookup_insert_ne. congruence.
Qed.

(** A hub with three partitions. *)
Lemma start_one_worker_per_partition_witness :
  exists m,
    ProcessManager.start (fun _ => "PartitionProcess") 0
      {| ProcessManager.config := DemoManager.hub_config;
         ProcessManager.processes := [] |}
    = Ok m
    /\ length (ProcessManager.processes m) = 3%nat.
Proof.
  destruct (start_one_worker_per_partition (fun _ => "PartitionProcess") 0
              DemoManager.hub_config 3 ltac:(vm_compute; reflexivity))
    as (m & Hstart & _ & Hlen & _).
  exists m. split; [exact Hstart | exact Hlen].
Defined.




(** ** Validation of the configuration (config_loader.py) *)

Section ConfigValidation.
Import ConfigLoader.
Variable float_le_zero : string -> bool.

Lemma for_each_valid (check : value -> outcome) (l : list value) :
  for_each check l = Valid <-> Forall (fun x => check x = Valid) l.
Proof.
  induction l as [|x l IH]; cbn [for_each].
  - split; [constructor | reflexivity].
  - unfold and_then. split.
    + destruct (check x) eqn:Hx; try discriminate.
      intros H. constructor; [exact Hx | apply IH; exact H].
    + intros H. apply Forall_cons_1 in H as [Hx Hl]. rewrite Hx.
      apply IH. exact Hl.
Qed.

Lemma has_key_assoc (k : string) (items : list (string * value)) :
  has_key k items = true <-> exists v, assoc k items = Some v.
Proof.
  unfold has_key. destruct (assoc k items) as [v|].
  - split; eauto.
  - split; [discriminate | intros [v Hv]; discriminate].
Qed.

(** The two checks on one hub together. *)
Lemma hub_checks (hub : value) :
  check_required ["name"; "connection_str"; "consumer_group"; "partitions"] hub
    = Valid
  /\ check_hub_values float_le_zero hub = Valid
  <-> hub_ok float_le_zero hub.
Proof.
  split.
  - intros [Hreq Hval]. destruct hub as [| | | | | |items]; try discriminate Hreq.
    cbn [check_required forallb] in Hreq.
    destruct (has_key "name" items) eqn:H1; [|discriminate].
    destruct (has_key "connection_str" items) eqn:H2; [|discriminate].
    destruct (has_key "consumer_group" items) eqn:H3; [|discriminate].
    clear Hreq. unfold check_hub_values in Hval. cbn [py_getitem py_in] in Hval.
    destruct (assoc "partitions" items) as [partitions|] eqn:Hp; [|discriminate].
    destruct (le_zero float_le_zero partitions) as [[|]|] eqn:Hle;
      try discriminate.
    unfold has_key in Hval.
    destruct (assoc "local_checkpoint_dir" items) as [dir|] eqn:Hd;
      [|discriminate].
    destruct dir; try discriminate Hval.
    exists items, partitions, s. repeat split; assumption.
  - intros (items & partitions & dir & -> & H1 & H2 & H3 & Hp & Hle & Hd).
    split.
    + cbn [check_required forallb]. rewrite H1, H2, H3.
      unfold has_key. rewrite Hp. reflexivity.
    + unfold check_hub_values. cbn [py_getitem py_in]. rewrite Hp, Hle.
      unfold has_key. rewrite Hd. reflexivity.
Qed.

End ConfigValidation.

(** X29: a configuration passes the two validations of [load] exactly when
    it is an object whose event_hubs field is a list of objects, each with
    the fields name, connection_str, consumer_group, partitions and
    local_checkpoint_dir, a partition count that is a number not below or
    equal to zero, and a checkpoint directory that is text.  Anything else
    ends in [ConfigValidationError] or in another exception. *)
Theorem validate_spec (float_le_zero : string -> bool) (config : value) :
  ConfigLoader.validate float_le_zero config = ConfigLoader.Valid
  <-> exists items hubs,
        config = VDict items
        /\ assoc "event_hubs" items = Some (VList hubs)
        /\ Forall (ConfigLoader.hub_ok float_le_zero) hubs.
Proof.
  unfold ConfigLoader.validate, ConfigLoader._validate_structure,
    ConfigLoader._validate_values, ConfigLoader.and_then.
  split.
  - destruct config as [| | | | | |items]; try discriminate.
    cbn [ConfigLoader.check_required forallb py_get py_getitem].
    unfold has_key.
    destruct (assoc "event_hubs" items) as [v|] eqn:Hv; [|discriminate].
    cbn [andb default]. unfold id.
    destruct (CustomProcessor.py_iter v) as [l|e] eqn:Hiter; [|discriminate].
    destruct (ConfigLoader.for_each _ l) eqn:Hstruct; try discriminate.
    destruct v as [| | | | |hubs|]; try discriminate.
    cbn [CustomProcessor.py_iter] in Hiter. injection Hiter as <-.
    intros Hvalues. exists items, hubs. split; [reflexivity|].
    split; [exact Hv|].
    apply for_each_valid in Hstruct. apply for_each_valid in Hvalues.
    rewrite List.Forall_forall in *. intros hub Hin.
    apply hub_checks. split; [apply Hstruct | apply Hvalues]; exact Hin.
  - intros (items & hubs & -> & Hv & Hhubs).
    cbn [ConfigLoader.check_required forallb py_get py_getitem].
    unfold has_key. rewrite Hv. cbn [andb default]. unfold id.
    cbn [CustomProcessor.py_iter].
    assert (Hboth : forall hub, In hub hubs ->
      ConfigLoader.check_required
        ["name"; "connection_str"; "consumer_group"; "partitions"] hub
        = ConfigLoader.Valid
      /\ ConfigLoader.check_hub_values float_le_zero hub = ConfigLoader.Valid).
    { intros hub Hin. apply hub_checks.
      rewrite List.Forall_forall in Hhubs. apply Hhubs. exact Hin. }
    replace (ConfigLoader.for_each
               (ConfigLoader.check_required
                  ["name"; "connection_str"; "consumer_group"; "partitions"])
               hubs) with ConfigLoader.Valid.
    + apply for_each_valid. apply List.Forall_forall.
      intros hub Hin. apply (Hboth hub Hin).
    + symmetry. apply for_each_valid. apply List.Forall_forall.
      intros hub Hin. apply (Hboth hub Hin).
Qed.
